(** * Alexandria: render pipeline, incremental index and query engine

    A shallow embedding of [bleve.go] and [render.go] of the Alexandria
    knowledge base.  Go strings are byte strings ([string]); the file system,
    the search index and the log are an explicit [World] that every
    operation threads; a Go panic is the [Panic] result.  Every operation
    on the outside world leaves an [Event] in the trace of the world, so
    that what ran, and in which order, can be stated.

    The definitions come first: Go strings and the query translation, errors,
    the world, the helpers that live in other files of the repository, the
    index, the render pipeline, slices, the incremental update and the query
    engine, then the reference definitions the theorems are stated with and
    an example installation.  The theorems follow.  The concurrent
    [renderAllScrolls] is not part of the embedding. *)

From Stdlib Require Import ZArith Lia Ascii.
From Stdlib Require String.
From stdpp Require Import base option list gmap strings.

Set Default Proof Using "Type".

(** ** Results of Go code that may panic *)

Inductive res (A : Type) : Type :=
| Ret (a : A)
| Panic (msg : string).
Arguments Ret {A} a.
Arguments Panic {A} msg.

Definition res_bind {A B} (r : res A) (k : A -> res B) : res B :=
  match r with
  | Ret a => k a
  | Panic msg => Panic msg
  end.

Declare Scope go_scope.
Delimit Scope go_scope with go.
Notation "x <-! r ; k" := (res_bind r (fun x => k))
  (at level 100, r at next level, right associativity) : go_scope.
Open Scope go_scope.

(** ** Go strings *)

Module GoString.

(** [s[i]]: indexing a string outside its length panics. *)
Definition index (s : string) (i : nat) : res ascii :=
  match String.get i s with
  | Some c => Ret c
  | None => Panic "index out of range"
  end.

(** [s[i:]]: slicing beyond the length panics. *)
Definition sliceFrom (s : string) (i : nat) : res string :=
  if (i <=? String.length s)%nat
  then Ret (String.substring i (String.length s - i) s)
  else Panic "slice bounds out of range".

(** [strings.Split(s, sep)] for a one-byte separator: always at least one
    piece, [n + 1] pieces for [n] separators. *)
Fixpoint Split (s : string) (sep : ascii) : list string :=
  match s with
  | EmptyString => [EmptyString]
  | String c r =>
      if Ascii.eqb c sep then EmptyString :: Split r sep
      else match Split r sep with
           | w :: ws => String c w :: ws
           | [] => [String c EmptyString]
           end
  end.

(** The UTF-8 encodings of the runes for which [unicode.IsSpace] holds:
    tab, LF, VT, FF, CR, space, U+0085, U+00A0, U+1680, U+2000..U+200A,
    U+2028, U+2029, U+202F, U+205F, U+3000.  Each of them has this one
    valid encoding, and Go decodes any other byte sequence to a rune that
    is not white space. *)
Definition bytes (l : list nat) : string :=
  fold_right (fun n s => String (ascii_of_nat n) s) EmptyString l.

Definition spaceRunes : list string :=
  map bytes
    ([ [9]; [10]; [11]; [12]; [13]; [32]; [194; 133]; [194; 160];
       [225; 154; 128] ]
     ++ map (fun k => [226; 128; 128 + k]) (seq 0 11)
     ++ [ [226; 128; 168]; [226; 128; 169]; [226; 128; 175];
          [226; 129; 159]; [227; 128; 128] ]).

Definition revString (s : string) : string :=
  String.string_of_list_ascii (rev (String.list_ascii_of_string s)).

(** One leading white-space rune removed, if there is one. *)
Definition dropSpaceRune (runes : list string) (s : string) : option string :=
  match filter (fun r => String.prefix r s = true) runes with
  | r :: _ => Some (String.substring (String.length r)
                      (String.length s - String.length r) s)
  | [] => None
  end.

Fixpoint trimLeftRunes (fuel : nat) (runes : list string) (s : string) : string :=
  match fuel with
  | O => s
  | S fuel' =>
      match dropSpaceRune runes s with
      | Some r => trimLeftRunes fuel' runes r
      | None => s
      end
  end.

(** [strings.TrimSpace]: all leading and trailing white space removed.
    Every removed rune is at least one byte, so the length of the string
    is enough fuel. *)
Definition TrimSpace (s : string) : string :=
  let l := trimLeftRunes (String.length s) spaceRunes s in
  revString
    (trimLeftRunes (String.length l) (map revString spaceRunes) (revString l)).

End GoString.

(** ** Query translation ([bleve.go]) *)

(** The body of the [for] loop of [translatePlusMinusTildePrefixes]:
    [word[0]] is read before anything is appended, so an empty [word]
    panics. *)
Definition translateTerm (newQueryString tmp : string) : res string :=
  let word := GoString.TrimSpace tmp in
  c <-! GoString.index word 0;
  if Ascii.eqb c "-" || Ascii.eqb c "+" then
    Ret (newQueryString +:+ " " +:+ word)
  else if Ascii.eqb c "~" then
    w1 <-! GoString.sliceFrom word 1;
    Ret (newQueryString +:+ " " +:+ w1)
  else
    Ret (newQueryString +:+ " +" +:+ word).

Fixpoint translateTerms (newQueryString : string) (terms : list string) : res string :=
  match terms with
  | [] => Ret newQueryString
  | tmp :: rest =>
      q <-! translateTerm newQueryString tmp;
      translateTerms q rest
  end.

Definition translatePlusMinusTildePrefixes (queryString : string) : res string :=
  newQueryString <-! translateTerms EmptyString (GoString.Split queryString " ");
  GoString.sliceFrom newQueryString 1.

(** ** Errors *)

Definition ID := string.

(** Go [error] values.  [ErrNoSuchScroll] is the package-level sentinel of
    [render.go]; Go compares errors by identity, so no other value, not even
    one with the same text, equals it. *)
Inductive error : Type :=
| ErrNoSuchScroll
| PathError (op path : string) (notExist : bool)
| errorString (msg : string)
| withMessage (cause : error) (msg : string).

Fixpoint Error (e : error) : string :=
  match e with
  | ErrNoSuchScroll => "No such scroll"
  | PathError op path notExist =>
      op +:+ " " +:+ path +:+
      (if notExist then ": no such file or directory" else ": permission denied")
  | errorString msg => msg
  | withMessage cause msg => msg +:+ ": " +:+ Error cause
  end.

(** [err == ErrNoSuchScroll] *)
Definition isErrNoSuchScroll (e : error) : bool :=
  match e with
  | ErrNoSuchScroll => true
  | _ => false
  end.

Module os.
(** [os.IsNotExist] looks at the error itself, not at what it wraps. *)
Definition IsNotExist (e : error) : bool :=
  match e with
  | PathError _ _ notExist => notExist
  | _ => false
  end.
End os.

Module errors.
(** [errors.Wrap] and [errors.Wrapf] of github.com/pkg/errors: [nil] stays
    [nil], anything else becomes a new error around the cause. *)
Definition Wrap (err : option error) (message : string) : option error :=
  match err with
  | None => None
  | Some e => Some (withMessage e message)
  end.
Definition Wrapf := Wrap.
End errors.

(** ** Documents and the world *)

(** Modelled from the spec: the [Scroll] type is declared outside these two
    files; its fields are those of the spec's Document (identifier, type,
    content and the auxiliary text fields). *)
Record Scroll : Type := mkScroll {
  ID_ : ID;
  Type_ : string;
  Content : string;
  Source : string;
  Tags : string;
  Hidden : string;
  Other : string
}.

(** [Scroll{}] *)
Definition zeroScroll : Scroll := mkScroll EmptyString EmptyString EmptyString EmptyString EmptyString EmptyString EmptyString.
(** [Scroll{ID: id}] *)
Definition scrollWithID (id : ID) : Scroll := mkScroll id EmptyString EmptyString EmptyString EmptyString EmptyString EmptyString.

(** [Results] as [searchBleve] builds it: the documents and the total. *)
Record Results : Type := mkResults {
  IDs : list Scroll;
  Total : nat
}.
Definition zeroResults : Results := mkResults [] 0.

(** The configured directories are taken to be distinct, so a path is the
    directory it lies in and a file name. *)
Inductive Path : Type :=
| KnowledgePath (name : string)
| TemplatePath (name : string)
| TempPath (name : string)
| CachePath (name : string)
| AlexandriaPath (name : string).

(** An entry of the knowledge directory: what [os.Stat] gives for it (the
    modification time in seconds) and what reading it gives.  Either can
    fail for a listed entry (a dangling link, a directory, a file without
    read permission). *)
Record FileEntry : Type := mkFile {
  fileStat : Z + error;
  fileRead : string + error
}.

Inductive Event : Type :=
| EvLog (msg : string)
| EvOpenIndex
| EvCreateIndex
| EvIndexDelete (id : ID)
| EvIndexBatch (ids : list ID)
| EvSearch (query : string)
| EvStat (p : Path)
| EvChtimes (p : Path) (t : Z)
| EvReadDir
| EvReadFile (p : Path)
| EvWriteFile (p : Path)
| EvExec (cmd : string) (id : ID)
| EvGlob (pattern : string)
| EvRemove (p : Path).

Record World : Type := mkWorld {
  (** [KnowledgeDirectory]: can it be listed, and its entries in the order
      [ioutil.ReadDir] returns them *)
  knowledgeListable : bool;
  knowledge : list (string * FileEntry);
  (** template name to template text *)
  templates : gmap string string;
  (** [TempDirectory] and [CacheDirectory]: file name to content *)
  tempWritable : bool;
  temp : gmap string string;
  cache : gmap string string;
  (** the index at [AlexandriaDirectory/bleve]; [None] when it cannot be opened *)
  index : option (gmap string Scroll);
  indexWritable : bool;
  (** modification time of [AlexandriaDirectory/index_updated], [None] when
      the file does not exist *)
  indexUpdated : option Z;
  (** [time.Now()] in seconds *)
  clock : Z;
  (** everything done so far, oldest first *)
  trace : list Event
}.

Definition setTrace (t : list Event) (w : World) : World :=
  mkWorld (knowledgeListable w) (knowledge w) (templates w) (tempWritable w)
    (temp w) (cache w) (index w) (indexWritable w) (indexUpdated w) (clock w) t.
Definition setTemp (m : gmap string string) (w : World) : World :=
  mkWorld (knowledgeListable w) (knowledge w) (templates w) (tempWritable w)
    m (cache w) (index w) (indexWritable w) (indexUpdated w) (clock w) (trace w).
Definition setCache (m : gmap string string) (w : World) : World :=
  mkWorld (knowledgeListable w) (knowledge w) (templates w) (tempWritable w)
    (temp w) m (index w) (indexWritable w) (indexUpdated w) (clock w) (trace w).
Definition setIndex (i : option (gmap string Scroll)) (w : World) : World :=
  mkWorld (knowledgeListable w) (knowledge w) (templates w) (tempWritable w)
    (temp w) (cache w) i (indexWritable w) (indexUpdated w) (clock w) (trace w).
Definition setIndexUpdated (t : option Z) (w : World) : World :=
  mkWorld (knowledgeListable w) (knowledge w) (templates w) (tempWritable w)
    (temp w) (cache w) (index w) (indexWritable w) t (clock w) (trace w).

(** What [bleve] returns for a query: the identifiers of the hits, at most
    [MaxResults] of them, and the number of all matches. *)
Record SearchResult : Type := mkSearchResult {
  Hits : list ID;
  SearchTotal : nat
}.

(** The collaborators outside the two files: the document parser, the
    freshness policy, the query evaluation of the search library, the two
    external programs, file-name globbing, the growth policy of Go's
    [append] and the configured result limit. *)
Record Env : Type := mkEnv {
  parse : string -> string -> Scroll;
  isUpToDate : ID -> World -> bool;
  bleveSearch : gmap string Scroll -> string -> nat -> SearchResult + error;
  MaxResults : nat;
  (** the source in the temp directory, if any, to the combined output and
      the PDF, if the build succeeds *)
  xelatex : option string -> string * option string;
  (** the PDF to the PNG, if the conversion succeeds *)
  convert : string -> option string;
  (** pattern and the names in the directory to the matching names *)
  Glob : string -> list string -> list string + error;
  (** the old capacity and the length needed to the new capacity *)
  growslice : nat -> nat -> nat
}.

(** ** Stateful code: the world is threaded, a panic ends the run *)

Definition M (A : Type) : Type := World -> res (A * World).

Definition ret {A} (a : A) : M A := fun w => Ret (a, w).

Definition bind {A B} (m : M A) (k : A -> M B) : M B :=
  fun w =>
    match m w with
    | Ret (a, w') => k a w'
    | Panic msg => Panic msg
    end.

Definition lift {A} (r : res A) : M A :=
  fun w =>
    match r with
    | Ret a => Ret (a, w)
    | Panic msg => Panic msg
    end.

Notation "x <- m ; k" := (bind m (fun x => k))
  (at level 100, m at next level, right associativity) : go_scope.
Notation "m ;; k" := (bind m (fun _ => k))
  (at level 100, right associativity) : go_scope.

Definition emit (e : Event) : M unit :=
  fun w => Ret (tt, setTrace (trace w ++ [e]) w).

Definition getWorld : M World := fun w => Ret (w, w).
Definition modify (f : World -> World) : M unit := fun w => Ret (tt, f w).

(** The events a run adds to the trace. *)
Definition eventsOf {A} (m : M A) (w : World) : list Event :=
  match m w with
  | Ret (_, w') => drop (length (trace w)) (trace w')
  | Panic _ => []
  end.

(** ** Helpers of the repository that live outside the two files *)

Definition lookupFile (name : string) (w : World) : option FileEntry :=
  snd <$> head (filter (fun e => fst e = name) (knowledge w)).

Definition notExist (op : string) (path : string) : error :=
  PathError op path true.

(** Modelled from the spec: [logError] and [tryLogError] are not in the two
    files; an error is logged and nothing else happens, and [tryLogError]
    does so only for an error that is not [nil]. *)
Definition logError (err : error) : M unit := emit (EvLog (Error err)).

Definition tryLogError (err : option error) : M unit :=
  match err with
  | Some e => logError e
  | None => ret tt
  end.

(** Of the files of [AlexandriaDirectory] only the sentinel
    [index_updated] has a modification time here. *)
Definition sentinelTime (name : string) (w : World) : option Z :=
  if String.eqb name "index_updated" then indexUpdated w else None.

(** Modelled from the spec: [getModTime] is not in the two files.  It gives
    the modification time of the file, and the time 0 together with the error
    when the file cannot be examined (the comment in [updateIndex]: in that
    case the time will contain 0, i.e. 1970-01-01). *)
Definition getModTime (p : Path) : M (Z * option error) :=
  emit (EvStat p);;
  w <- getWorld;
  ret (match p with
       | KnowledgePath name =>
           match lookupFile name w with
           | Some f =>
               match fileStat f with
               | inl t => (t, None)
               | inr e => (0%Z, Some e)
               end
           | None => (0%Z, Some (notExist "stat" name))
           end
       | AlexandriaPath name =>
           match sentinelTime name w with
           | Some t => (t, None)
           | None => (0%Z, Some (notExist "stat" name))
           end
       | TemplatePath name | TempPath name | CachePath name =>
           (0%Z, Some (notExist "stat" name))
       end).

(** [os.Stat] of a knowledge file, as [findScrolls] uses it: only the error. *)
Definition statKnowledge (name : string) : M (option error) :=
  emit (EvStat (KnowledgePath name));;
  w <- getWorld;
  ret (match lookupFile name w with
       | Some f =>
           match fileStat f with
           | inl _ => None
           | inr e => Some e
           end
       | None => Some (notExist "stat" name)
       end).

(** [ioutil.ReadFile] of a knowledge file. *)
Definition readKnowledgeFile (name : string) : M (string * option error) :=
  emit (EvReadFile (KnowledgePath name));;
  w <- getWorld;
  ret (match lookupFile name w with
       | Some f =>
           match fileRead f with
           | inl content => (content, None)
           | inr e => (EmptyString, Some e)
           end
       | None => (EmptyString, Some (notExist "open" name))
       end).

(** Modelled from the spec: [readScroll] is not in the two files; the
    document with identifier [id] is the file [KnowledgeDirectory/id.tex]. *)
Definition readScroll (id : ID) : M (string * option error) :=
  readKnowledgeFile (id +:+ ".tex").

(** Modelled from the spec: [readTemplate] is not in the two files; it
    reads the template file of that name. *)
Definition readTemplate (name : string) : M (string * option error) :=
  emit (EvReadFile (TemplatePath name));;
  w <- getWorld;
  ret (match templates w !! name with
       | Some t => (t, None)
       | None => (EmptyString, Some (notExist "open" name))
       end).

(** Modelled from the spec: [writeTemp] is not in the two files; it writes
    the LaTeX source to [TempDirectory/id.tex]. *)
Definition writeTemp (id : ID) (doc : string) : M (option error) :=
  emit (EvWriteFile (TempPath (id +:+ ".tex")));;
  w <- getWorld;
  if tempWritable w then
    modify (setTemp (<[id +:+ ".tex" := doc]> (temp w)));;
    ret None
  else
    ret (Some (PathError "open" (id +:+ ".tex") false)).

(** [ioutil.ReadDir(Config.KnowledgeDirectory)]: the names of the entries. *)
Definition ReadDir : M (list string * option error) :=
  emit EvReadDir;;
  w <- getWorld;
  if knowledgeListable w then ret (fst <$> knowledge w, None)
  else ret ([], Some (notExist "open" "KnowledgeDirectory")).

(** [strings.TrimSuffix] *)
Definition TrimSuffix (s suffix : string) : string :=
  let n := String.length s in
  let k := String.length suffix in
  if (k <=? n)%nat && String.eqb (String.substring (n - k) k s) suffix
  then String.substring 0 (n - k) s
  else s.


(** ** The index ([bleve.go] and the search library) *)

(** [bleve.ErrorEmptyID]: the library refuses the empty identifier. *)
Definition ErrorEmptyID : error := errorString "document ID cannot be empty".

(** The index handle is the [index] of the world; what is returned is the
    error of [bleve.Open]. *)
Definition openExistingIndex : M (option error) :=
  emit EvOpenIndex;;
  w <- getWorld;
  match index w with
  | Some _ => ret None
  | None => ret (Some (errorString "cannot open index, path does not exist"))
  end.

(** [bleve.New] refuses an existing path and needs a writable directory. *)
Definition createNewIndex : M (option error) :=
  emit EvCreateIndex;;
  w <- getWorld;
  match index w with
  | Some _ => ret (Some (errorString "cannot create new index, path already exists"))
  | None =>
      if indexWritable w then modify (setIndex (Some ∅));; ret None
      else ret (Some (PathError "mkdir" "bleve" false))
  end.

Definition openOrCreateIndex : M (bool * option error) :=
  err <- openExistingIndex;
  match err with
  | Some _ =>
      err' <- createNewIndex;
      ret (true, err')
  | None => ret (false, None)
  end.

(** [index.Delete(id)] *)
Definition indexDelete (id : ID) : M (option error) :=
  emit (EvIndexDelete id);;
  w <- getWorld;
  if String.eqb id EmptyString then ret (Some ErrorEmptyID)
  else match index w with
       | Some m =>
           if indexWritable w then modify (setIndex (Some (delete id m)));; ret None
           else ret (Some (PathError "write" "bleve" false))
       | None => ret (Some (errorString "index is closed"))
       end.

Definition removeFromIndex (id : ID) : M (option error) :=
  err <- openExistingIndex;
  match err with
  | Some e => ret (Some e)
  | None => indexDelete id
  end.

(** A batch is the list of staged documents, oldest first. *)
Definition Batch := list (ID * Scroll).

(** [batch.Index(id, scroll)] *)
Definition batchIndex (id : ID) (scroll : Scroll) (batch : Batch) : Batch * option error :=
  if String.eqb id EmptyString then (batch, Some ErrorEmptyID)
  else (batch ++ [(id, scroll)], None).

Definition applyBatch (batch : Batch) (m : gmap string Scroll) : gmap string Scroll :=
  foldl (fun acc e => <[fst e := snd e]> acc) m batch.

(** [index.Batch(batch)]: all staged documents enter the index, or none. *)
Definition indexBatch (batch : Batch) : M (option error) :=
  emit (EvIndexBatch (fst <$> batch));;
  w <- getWorld;
  match index w with
  | Some m =>
      if indexWritable w then modify (setIndex (Some (applyBatch batch m)));; ret None
      else ret (Some (PathError "write" "bleve" false))
  | None => ret (Some (errorString "index is closed"))
  end.

(** ** The render pipeline ([render.go]) *)

Record errTemplateReader : Type := mkErrTemplateReader {
  doc : string;
  err_ : option error
}.

(** [(e *errTemplateReader) readTemplate]: a pointer receiver, so what it
    stores is there for the caller. *)
Definition errTemplateReader_readTemplate (e : errTemplateReader) (name : string)
  : M errTemplateReader :=
  match err_ e with
  | Some _ => ret e
  | None =>
      p <- readTemplate name;
      let tmp := fst p in
      let err := snd p in
      ret (mkErrTemplateReader (doc e +:+ tmp)
             (errors.Wrapf err ("read template " +:+ name)))
  end.

(** The interface [latexToPngRenderer].  A method gets the renderer and
    gives it back as the caller holds it after the call. *)
Class latexToPngRenderer (R : Type) : Type := {
  scrollToLatex : R -> ID -> M R;
  latexToPdf : R -> ID -> M R;
  pdfToPng : R -> ID -> M R;
  deleteTemporaryFiles : R -> ID -> M R;
  err : R -> option error
}.

Record xelatexImagemagickRenderer : Type := mkXelatex {
  x_error : option error
}.

(** A method with a value receiver, [func (x T) m(...)], works on a copy of
    the receiver: the caller keeps the value it had, whatever the method
    stored into its copy. *)
Definition byValue {R : Type} (body : R -> ID -> M R) (x : R) (id : ID) : M R :=
  _copy <- body x id;
  ret x.

Section Render.
Variable env : Env.

(** The bodies of the four methods give the receiver [x] as it is inside
    the method when the method returns. *)
Definition scrollToLatex_body (x : xelatexImagemagickRenderer) (id : ID)
  : M xelatexImagemagickRenderer :=
  let e := mkErrTemplateReader EmptyString None in
  p <- readScroll id;
  let scrollText := fst p in
  match snd p with
  | Some err =>
      if os.IsNotExist err then
        err' <- removeFromIndex id;
        tryLogError err';;
        ret (mkXelatex (Some ErrNoSuchScroll))
      else
        ret (mkXelatex (Some err))
  | None =>
      let scroll := parse env id scrollText in
      e <- errTemplateReader_readTemplate e "header";
      e <- errTemplateReader_readTemplate e (Type_ scroll +:+ "_header");
      let e := mkErrTemplateReader (doc e +:+ Content scroll) (err_ e) in
      e <- errTemplateReader_readTemplate e (Type_ scroll +:+ "_footer");
      e <- errTemplateReader_readTemplate e "footer";
      match err_ e with
      | Some _ =>
          ret (mkXelatex
                 (errors.Wrapf (err_ e) ("producing latex file for scroll " +:+ id)))
      | None =>
          err <- writeTemp id (doc e);
          ret (mkXelatex
                 (errors.Wrapf err
                    ("writing latex file " +:+ id +:+ ".tex to temporary directory")))
      end
  end.

(** [exec.Command("xelatex", ...).CombinedOutput()]: the program reads
    [TempDirectory/id.tex] and leaves its log, and the PDF if it
    succeeds, in the temp directory. *)
Definition runXelatex (id : ID) : M (string * option error) :=
  emit (EvExec "xelatex" id);;
  w <- getWorld;
  let out := xelatex env (temp w !! (id +:+ ".tex")) in
  match snd out with
  | Some pdf =>
      if tempWritable w then
        modify (setTemp (<[id +:+ ".pdf" := pdf]>
                           (<[id +:+ ".log" := fst out]> (temp w))));;
        ret (fst out, None)
      else ret (fst out, Some (errorString "exit status 1"))
  | None =>
      (if tempWritable w
       then modify (setTemp (<[id +:+ ".log" := fst out]> (temp w)))
       else ret tt);;
      ret (fst out, Some (errorString "exit status 1"))
  end.

Definition latexToPdf_body (x : xelatexImagemagickRenderer) (id : ID)
  : M xelatexImagemagickRenderer :=
  match x_error x with
  | Some _ => ret x
  | None =>
      p <- runXelatex id;
      ret (mkXelatex (errors.Wrapf (snd p) ("XeLaTeX build: " +:+ fst p)))
  end.

(** [exec.Command("convert", ...).Run()]: reads [TempDirectory/id.pdf],
    writes [CacheDirectory/id.png]. *)
Definition runConvert (id : ID) : M (option error) :=
  emit (EvExec "convert" id);;
  w <- getWorld;
  match temp w !! (id +:+ ".pdf") with
  | Some pdf =>
      match convert env pdf with
      | Some png =>
          modify (setCache (<[id +:+ ".png" := png]> (cache w)));;
          ret None
      | None => ret (Some (errorString "exit status 1"))
      end
  | None => ret (Some (errorString "exit status 1"))
  end.

Definition pdfToPng_body (x : xelatexImagemagickRenderer) (i : ID)
  : M xelatexImagemagickRenderer :=
  match x_error x with
  | Some _ => ret x
  | None =>
      err <- runConvert i;
      ret (mkXelatex err)
  end.

(** [os.Remove] of a file of the temp directory *)
Definition removeTemp (file : string) : M (option error) :=
  emit (EvRemove (TempPath file));;
  w <- getWorld;
  match temp w !! file with
  | Some _ => modify (setTemp (delete file (temp w)));; ret None
  | None => ret (Some (notExist "remove" file))
  end.

Fixpoint removeAll (files : list string) : M unit :=
  match files with
  | [] => ret tt
  | file :: rest =>
      err <- removeTemp file;
      tryLogError err;;
      removeAll rest
  end.

Definition deleteTemporaryFiles_body (x : xelatexImagemagickRenderer) (id : ID)
  : M xelatexImagemagickRenderer :=
  emit (EvGlob (id +:+ ".*"));;
  w <- getWorld;
  match Glob env (id +:+ ".*") (fst <$> map_to_list (temp w)) with
  | inr err => logError err;; ret x
  | inl files => removeAll files;; ret x
  end.

(** All five methods of [xelatexImagemagickRenderer] have value
    receivers. *)
#[export] Instance xelatexImagemagick : latexToPngRenderer xelatexImagemagickRenderer := {
  scrollToLatex := byValue scrollToLatex_body;
  latexToPdf := byValue latexToPdf_body;
  pdfToPng := byValue pdfToPng_body;
  deleteTemporaryFiles := byValue deleteTemporaryFiles_body;
  err := x_error
}.

Section Pipeline.
Context {R : Type} `{latexToPngRenderer R}.

Definition renderScroll (id : ID) (renderer : R) : M (option error * R) :=
  w <- getWorld;
  if isUpToDate env id w then ret (None, renderer)
  else
    renderer <- scrollToLatex renderer id;
    renderer <- latexToPdf renderer id;
    renderer <- pdfToPng renderer id;
    renderer <- deleteTemporaryFiles renderer id;
    ret (errors.Wrap (err renderer) "rendering", renderer).

(** [log.Panic]: the message is logged and the goroutine panics. *)
Definition logPanic {A} (msg : string) : M A :=
  emit (EvLog msg);;
  lift (Panic msg).

(** The loop of [renderListOfScrolls] from the count so far. *)
Fixpoint renderLoop (numScrolls : nat) (ids : list Scroll) (renderer : R) : M nat :=
  match ids with
  | [] => ret numScrolls
  | foo :: rest =>
      let id := ID_ foo in
      p <- renderScroll id renderer;
      match fst p with
      | Some err =>
          if isErrNoSuchScroll err then renderLoop numScrolls rest (snd p)
          else logPanic ("An error ocurred when processing scroll " +:+ id
                         +:+ ": " +:+ Error err)
      | None => renderLoop (S numScrolls) rest (snd p)
      end
  end.

Definition renderListOfScrolls (ids : list Scroll) (renderer : R) : M nat :=
  renderLoop 0 ids renderer.

End Pipeline.
End Render.

(** ** Go slices *)

Module GoSlice.

(** A slice is the part of its backing array from the slice's start: the
    length of [array] is the capacity, the first [len] elements are the
    elements of the slice. *)
Record slice (A : Type) : Type := mkSlice {
  array : list A;
  len : nat
}.
Arguments mkSlice {A} array len.
Arguments array {A} s.
Arguments len {A} s.

(** [var s []T]: the nil slice, length and capacity 0. *)
Definition nil {A} : slice A := mkSlice [] 0.

Definition cap {A} (s : slice A) : nat := length (array s).

Definition elems {A} (s : slice A) : list A := take (len s) (array s).

(** [append(s, x)]: within the capacity the element is stored in place;
    otherwise a zeroed array of the capacity that the growth policy [grow]
    chooses (never less than the length needed) takes the elements. *)
Definition append {A} (grow : nat -> nat -> nat) (zero : A) (s : slice A) (x : A)
  : slice A :=
  if (len s <? cap s)%nat then mkSlice (<[len s := x]> (array s)) (S (len s))
  else
    let newcap := Nat.max (S (len s)) (grow (cap s) (S (len s))) in
    mkSlice (elems s ++ x :: replicate (newcap - S (len s)) zero) (S (len s)).

(** [s[:n]]: allowed up to the capacity, beyond it the program panics. *)
Definition upTo {A} (s : slice A) (n : nat) : res (slice A) :=
  if (n <=? cap s)%nat then Ret (mkSlice (array s) n)
  else Panic "slice bounds out of range".

(** The runtime's choice of the new capacity for a small slice, before it
    is rounded up to an allocation size: the length needed if that is more
    than twice the old capacity, else twice the old capacity. *)
Definition nextslicecap (oldCap newLen : nat) : nat :=
  if (oldCap + oldCap <? newLen)%nat then newLen else oldCap + oldCap.

End GoSlice.

(** ** Incremental index and query engine ([bleve.go]) *)

Section Bleve.
Variable env : Env.

Definition touch (file : Path) : M (option error) :=
  now <- (w <- getWorld; ret (clock w));
  emit (EvChtimes file now);;
  w <- getWorld;
  match file with
  | AlexandriaPath name =>
      match sentinelTime name w with
      | Some _ => modify (setIndexUpdated (Some now));; ret None
      | None => ret (Some (notExist "chtimes" name))
      end
  | KnowledgePath name | TemplatePath name | TempPath name | CachePath name =>
      ret (Some (notExist "chtimes" name))
  end.

Definition recordIndexUpdateStart (indexUpdateFile : Path) : M unit :=
  err <- touch indexUpdateFile;
  tryLogError err.

Definition isOlderThan (file : string) (indexUpdateTime : Z) : M bool :=
  p <- getModTime (KnowledgePath file);
  match snd p with
  | Some err => logError err;; ret true
  | None => ret (fst p <? indexUpdateTime)%Z
  end.

Definition loadAndParseScrollContent (id : ID) (file : string) : M (Scroll * option error) :=
  p <- readKnowledgeFile file;
  tryLogError (snd p);;
  let content := fst p in
  let scroll := parse env id content in
  ret (scroll, snd p).

Definition loadAndParseScrollContentByID (id : ID) : M (Scroll * option error) :=
  p <- readScroll id;
  match snd p with
  | Some err => ret (zeroScroll, Some err)
  | None => ret (parse env id (fst p), None)
  end.

(** The [for] loop of [updateIndex]. *)
Fixpoint indexFiles (isNewIndex : bool) (timeOfLastIndexUpdate : Z)
    (files : list string) (batch : Batch) : M Batch :=
  match files with
  | [] => ret batch
  | file :: rest =>
      skip <- (if negb isNewIndex then isOlderThan file timeOfLastIndexUpdate
               else ret false);
      if skip then indexFiles isNewIndex timeOfLastIndexUpdate rest batch
      else
        let id := TrimSuffix file ".tex" in
        p <- loadAndParseScrollContent id file;
        match snd p with
        | Some err =>
            logError err;;
            indexFiles isNewIndex timeOfLastIndexUpdate rest batch
        | None =>
            let b := batchIndex id (fst p) batch in
            tryLogError (snd b);;
            indexFiles isNewIndex timeOfLastIndexUpdate rest (fst b)
        end
  end.

Definition indexUpdateFile : Path := AlexandriaPath "index_updated".

Definition updateIndex : M (option error) :=
  o <- openOrCreateIndex;
  let isNewIndex := fst o in
  match snd o with
  | Some _ => ret (errors.Wrap (snd o) "open or create index")
  | None =>
      t <- getModTime indexUpdateFile;
      let timeOfLastIndexUpdate := fst t in
      tryLogError (snd t);;
      recordIndexUpdateStart indexUpdateFile;;
      d <- ReadDir;
      match snd d with
      | Some _ => ret (errors.Wrap (snd d) "read knowledge directory")
      | None =>
          batch <- indexFiles isNewIndex timeOfLastIndexUpdate (fst d) [];
          indexBatch batch
      end
  end.

Definition performQuery (newQueryString : string) : M (SearchResult + error) :=
  emit (EvSearch newQueryString);;
  w <- getWorld;
  match index w with
  | Some m => ret (bleveSearch env m newQueryString (MaxResults env))
  | None => ret (inr (errorString "index is closed"))
  end.

(** The [for] loop of [loadMatchingScrolls]. *)
Fixpoint loadMatching (hits : list ID) (scrolls : GoSlice.slice Scroll)
  : M (GoSlice.slice Scroll) :=
  match hits with
  | [] => ret scrolls
  | id :: rest =>
      p <- loadAndParseScrollContentByID id;
      match snd p with
      | Some err => logError err;; loadMatching rest scrolls
      | None =>
          loadMatching rest (GoSlice.append (growslice env) zeroScroll scrolls (fst p))
      end
  end.

Definition loadMatchingScrolls (searchResults : SearchResult) : M (GoSlice.slice Scroll) :=
  loadMatching (Hits searchResults) GoSlice.nil.

Definition searchBleve (queryString : string) : M (Results * option error) :=
  err <- openExistingIndex;
  match err with
  | Some e => logError e;; ret (zeroResults, Some e)
  | None =>
      newQueryString <- lift (translatePlusMinusTildePrefixes queryString);
      r <- performQuery newQueryString;
      match r with
      | inr e =>
          if String.eqb (Error e) "syntax error" then
            emit (EvLog ("Invalid query string: '" +:+ newQueryString +:+ "'"));;
            ret (zeroResults, None)
          else ret (zeroResults, Some e)
      | inl searchResults =>
          scrolls <- loadMatchingScrolls searchResults;
          s <- lift (GoSlice.upTo scrolls (length (Hits searchResults)));
          ret (mkResults (GoSlice.elems s) (SearchTotal searchResults), None)
      end
  end.

(** The second loop of [findScrolls]: [ids[i]] is stored for every document
    whose source file is there; storing outside [ids] panics. *)
Fixpoint fillExisting (results : list Scroll) (ids : list Scroll) (i : nat)
  : M (list Scroll) :=
  match results with
  | [] => ret ids
  | id :: rest =>
      err <- statKnowledge (ID_ id +:+ ".tex");
      if from_option os.IsNotExist false err then fillExisting rest ids i
      else if (i <? length ids)%nat then
        fillExisting rest (<[i := scrollWithID (ID_ id)]> ids) (S i)
      else lift (Panic "index out of range")
  end.

Definition findScrolls (query : string) : M (Results * option error) :=
  s <- searchBleve query;
  let results := fst s in
  match snd s with
  | Some e => ret (zeroResults, Some e)
  | None =>
      let x := mkXelatex None in
      n <- renderListOfScrolls env (H := xelatexImagemagick env) (IDs results) x;
      let ids := replicate n zeroScroll in
      _ids <- fillExisting (IDs results) ids 0;
      ret (mkResults (IDs results) n, None)
  end.

End Bleve.

(** ** The query translation in the words of the specification *)

(** One term: [+] and [-] pass through, [~] is stripped, anything else
    gets a [+]. *)
Definition prefixed (term : string) : string :=
  match term with
  | String c rest =>
      if Ascii.eqb c "-" || Ascii.eqb c "+" then term
      else if Ascii.eqb c "~" then rest
      else "+" +:+ term
  | EmptyString => "+"
  end.

Fixpoint joinWith (sep : string) (l : list string) : string :=
  match l with
  | [] => EmptyString
  | [x] => x
  | x :: rest => x +:+ sep +:+ joinWith sep rest
  end.

(** The terms are the pieces between the spaces, each translated as it is. *)
Definition translationOfTerms (queryString : string) : string :=
  joinWith " " (prefixed <$> GoString.Split queryString " ").

(** The same with every term trimmed of surrounding white space first. *)
Definition translationOfTrimmedTerms (queryString : string) : string :=
  joinWith " " ((fun t => prefixed (GoString.TrimSpace t)) <$> GoString.Split queryString " ").

(** A term with a trailing tab: [+a] followed by the byte 9. *)
Definition plusATab : string := "+a" +:+ String (ascii_of_nat 9) EmptyString.

(** ** What a run returned *)

Definition resultOf {A} (r : res (A * World)) : res A :=
  match r with
  | Ret (a, _) => Ret a
  | Panic msg => Panic msg
  end.

Definition worldOf {A} (r : res (A * World)) : option World :=
  match r with
  | Ret (_, w) => Some w
  | Panic _ => None
  end.

(** The entry of the index for an identifier, if the index is there and
    has one. *)
Definition indexEntry (id : ID) (w : World) : option Scroll :=
  match index w with
  | Some m => m !! id
  | None => None
  end.

(** ** The batch render in the words of the specification *)

Section Tally.
Variable env : Env.
Context {R : Type} `{latexToPngRenderer R}.

(** What [renderScroll] reports for the identifiers of the list, one after
    the other, each render starting in the world and with the renderer the
    one before left. *)
Fixpoint renderOutcomes (ids : list Scroll) (renderer : R) (w : World)
  : list (res (option error)) :=
  match ids with
  | [] => []
  | foo :: rest =>
      match renderScroll env (ID_ foo) renderer w with
      | Ret ((e, renderer'), w') => Ret e :: renderOutcomes rest renderer' w'
      | Panic msg => [Panic msg]
      end
  end.

End Tally.

(** A render succeeded; a render was skipped or succeeded. *)
Definition succeeded (o : res (option error)) : bool :=
  match o with
  | Ret None => true
  | _ => false
  end.

Definition skippedOrSucceeded (o : res (option error)) : bool :=
  match o with
  | Ret None => true
  | Ret (Some e) => isErrNoSuchScroll e
  | Panic _ => false
  end.

(** Skip [ErrNoSuchScroll], abort ([None]) on any other error, count the
    successes. *)
Fixpoint tally (outcomes : list (res (option error))) : option nat :=
  match outcomes with
  | [] => Some 0
  | Ret None :: rest => S <$> tally rest
  | Ret (Some e) :: rest => if isErrNoSuchScroll e then tally rest else None
  | Panic _ :: _ => None
  end.

(** The count a run returned, [None] for a run that panicked. *)
Definition countOf (r : res (nat * World)) : option nat :=
  match r with
  | Ret (n, _) => Some n
  | Panic _ => None
  end.

(** ** The index update in the words of the specification *)

Definition addEvents (evs : list Event) (w : World) : World :=
  setTrace (trace w ++ evs) w.

(** What [os.Stat] and reading give for a name of the knowledge directory. *)
Definition statOf (name : string) (w : World) : Z + error :=
  match lookupFile name w with
  | Some f => fileStat f
  | None => inr (notExist "stat" name)
  end.

Definition contentOf (name : string) (w : World) : string + error :=
  match lookupFile name w with
  | Some f => fileRead f
  | None => inr (notExist "open" name)
  end.

(** What happens to one document of the store in an update. *)
Inductive Verdict : Type :=
| Skipped
| StatFailed (e : error)
| ReadFailed (e : error)
| Refused (id : ID) (e : error)
| Staged (id : ID) (scroll : Scroll).

Section Verdicts.
Variable env : Env.

(** A document that is considered is read, parsed and staged under its
    name without the [.tex] suffix; a failure to read it, or the refusal
    of the batch to take it, leaves it out. *)
Definition consider (w : World) (name : string) : Verdict :=
  match contentOf name w with
  | inr e => ReadFailed e
  | inl content =>
      let id := TrimSuffix name ".tex" in
      if String.eqb id EmptyString then Refused id ErrorEmptyID
      else Staged id (parse env id content)
  end.

(** For a new index every document is considered.  For an index that was
    there, a document whose modification time is before the marker is
    skipped, one whose modification time cannot be read is left out as
    failed, and the others are considered. *)
Definition verdict (isNewIndex : bool) (marker : Z) (w : World) (name : string) : Verdict :=
  if isNewIndex then consider w name
  else match statOf name w with
       | inr e => StatFailed e
       | inl t => if (t <? marker)%Z then Skipped else consider w name
       end.

End Verdicts.

(** The file operations and log lines that go with a verdict. *)
Definition verdictEvents (isNewIndex : bool) (name : string) (v : Verdict) : list Event :=
  (if isNewIndex then [] else [EvStat (KnowledgePath name)]) ++
  match v with
  | Skipped => []
  | StatFailed e => [EvLog (Error e)]
  | ReadFailed e =>
      [EvReadFile (KnowledgePath name); EvLog (Error e); EvLog (Error e)]
  | Refused _ e => [EvReadFile (KnowledgePath name); EvLog (Error e)]
  | Staged _ _ => [EvReadFile (KnowledgePath name)]
  end.

Definition stagedOf (v : Verdict) : option (ID * Scroll) :=
  match v with
  | Staged id scroll => Some (id, scroll)
  | _ => None
  end.

Definition staged (vs : list Verdict) : Batch := omap stagedOf vs.

Definition isCommit (e : Event) : bool :=
  match e with
  | EvIndexBatch _ => true
  | _ => false
  end.

Definition fileEvents (isNewIndex : bool) (names : list string) (vs : list Verdict)
  : list Event :=
  concat (zip_with (verdictEvents isNewIndex) names vs).

(** The marker as an update reads it: the modification time of the
    sentinel, 0 when it cannot be read. *)
Definition cutoffOf (w : World) : Z := default 0%Z (indexUpdated w).

(** The marker after the touch: the current time if the sentinel is
    there, still absent if it is not. *)
Definition touched (w : World) : option Z :=
  match indexUpdated w with
  | Some _ => Some (clock w)
  | None => None
  end.

Definition isNewIndexOf (w : World) : bool :=
  match index w with
  | Some _ => false
  | None => true
  end.

(** The index can be opened, or it can be created. *)
Definition indexUsable (w : World) : bool :=
  negb (isNewIndexOf w) || indexWritable w.

Definition openEvents (w : World) : list Event :=
  EvOpenIndex :: (if isNewIndexOf w then [EvCreateIndex] else []).

(** Reading the marker, then touching it; both fail and are logged when the
    sentinel is not there. *)
Definition markerEvents (w : World) : list Event :=
  match indexUpdated w with
  | Some _ =>
      [EvStat indexUpdateFile; EvChtimes indexUpdateFile (clock w)]
  | None =>
      [EvStat indexUpdateFile;
       EvLog (Error (notExist "stat" "index_updated"));
       EvChtimes indexUpdateFile (clock w);
       EvLog (Error (notExist "chtimes" "index_updated"))]
  end.

Section UpdateReference.
Variable env : Env.

(** The verdicts of an update on the documents of the store, for a given
    marker. *)
Definition verdictsOf (marker : Z) (w : World) : list Verdict :=
  verdict env (isNewIndexOf w) marker w <$> (fst <$> knowledge w).

(** Going through the documents and committing once, for a given marker;
    nothing if the directory cannot be listed. *)
Definition documentEvents (marker : Z) (w : World) : list Event :=
  if knowledgeListable w then
    fileEvents (isNewIndexOf w) (fst <$> knowledge w) (verdictsOf marker w)
    ++ [EvIndexBatch (fst <$> staged (verdictsOf marker w))]
  else [].

(** The events of an update that got past opening the index, for a given
    marker: open, read and touch the marker, list the directory, go through
    the documents. *)
Definition updateEvents (marker : Z) (w : World) : list Event :=
  openEvents w ++ markerEvents w ++ EvReadDir :: documentEvents marker w.

(** The index after an update that got past opening it: the staged
    documents have entered it if the directory could be listed and the
    index written. *)
Definition indexAfterUpdate (w : World) : gmap string Scroll :=
  if knowledgeListable w && indexWritable w
  then applyBatch (staged (verdictsOf (cutoffOf w) w)) (default ∅ (index w))
  else default ∅ (index w).

Definition updateError (w : World) : option error :=
  if knowledgeListable w then
    if indexWritable w then None else Some (PathError "write" "bleve" false)
  else Some (withMessage (notExist "open" "KnowledgeDirectory") "read knowledge directory").

(** The world an update leaves, [w] itself if the run panics. *)
Definition afterUpdate (w : World) : World :=
  match updateIndex env w with
  | Ret (_, w') => w'
  | Panic _ => w
  end.

Fixpoint afterUpdates (n : nat) (w : World) : World :=
  match n with
  | O => w
  | S n' => afterUpdates n' (afterUpdate w)
  end.

End UpdateReference.

(** ** Runs that only add to the trace *)

(** A computation that returns and only adds to the trace. *)
Definition extends {A : Type} (m : M A) : Prop :=
  forall w : World, exists (a : A) (w' : World) (evs : list Event),
    m w = Ret (a, w') /\ trace w' = trace w ++ evs.

(** ** A concrete installation for the examples *)

Module Demo.

Definition parse (id content : string) : Scroll :=
  mkScroll id "note" content EmptyString EmptyString EmptyString EmptyString.

(** The artifact is up to date when [CacheDirectory/id.png] is there. *)
Definition isUpToDate (id : ID) (w : World) : bool :=
  bool_decide (is_Some (cache w !! (id +:+ ".png"))).

(** Every query matches every indexed document. *)
Definition bleveSearch (m : gmap string Scroll) (q : string) (limit : nat)
  : SearchResult + error :=
  if String.eqb q EmptyString then inr (errorString "syntax error")
  else inl (mkSearchResult (take limit (fst <$> map_to_list m)) (size m)).

Definition xelatex (src : option string) : string * option string :=
  match src with
  | Some s => ("Output written", Some ("pdf of " +:+ s))
  | None => ("! I can't find file", None)
  end.

Definition convert (pdf : string) : option string := Some ("png of " +:+ pdf).

(** [name.*] matches the names that begin with [name.] *)
Definition Glob (pattern : string) (names : list string) : list string + error :=
  let stem := String.substring 0 (String.length pattern - 1) pattern in
  inl (filter (fun n => String.prefix stem n = true) names).

Definition env : Env :=
  mkEnv parse isUpToDate bleveSearch 10 xelatex convert Glob GoSlice.nextslicecap.

Definition file (t : Z) (content : string) : FileEntry := mkFile (inl t) (inl content).

Definition library : list (string * FileEntry) :=
  [("a.tex", file 100 "alpha"); ("b.tex", file 200 "beta"); ("c.tex", file 300 "gamma")].

Definition indexed (ids : list ID) : gmap string Scroll :=
  list_to_map ((fun i => (i, parse i "old")) <$> ids).

Definition allTemplates : gmap string string :=
  list_to_map [("header", "H"); ("note_header", "h"); ("note_footer", "f"); ("footer", "F")].

(** The documents a, b and c are there and rendered; d has been deleted but
    is still in the index. *)
Definition w0 : World :=
  mkWorld true library allTemplates true ∅
    (list_to_map [("a.png", "A"); ("b.png", "B"); ("c.png", "C")])
    (Some (indexed ["a"; "b"; "c"; "d"])) true (Some 150%Z) 1000%Z [].

(** The same without the sentinel file [index_updated]. *)
Definition wNoSentinel : World := setIndexUpdated None w0.

(** The same before any index has been built. *)
Definition wNoIndex : World := setIndex None w0.

(** Only a and the deleted d are in the index. *)
Definition wTwoHits : World := setIndex (Some (indexed ["a"; "d"])) w0.

End Demo.


(** ** The hits of a query with their live content *)

Section LiveHits.
Variable env : Env.

(** The document of a hit as it is on disk now, if its source can be read. *)
Definition liveScroll (w : World) (id : ID) : option Scroll :=
  match contentOf (id +:+ ".tex") w with
  | inl content => Some (parse env id content)
  | inr _ => None
  end.

(** The hits whose source can be read, in the order of the hits. *)
Definition liveScrolls (w : World) (hits : list ID) : list Scroll :=
  omap (liveScroll w) hits.

End LiveHits.

(** Reading the source of every hit, with a log line for each one that
    cannot be read. *)
Definition loadEvents (w : World) (hits : list ID) : list Event :=
  concat ((fun id =>
             EvReadFile (KnowledgePath (id +:+ ".tex")) ::
             match contentOf (id +:+ ".tex") w with
             | inl _ => []
             | inr e => [EvLog (Error e)]
             end) <$> hits).

(** A slice as the runtime keeps it: the length is within the capacity. *)
Definition sliceOk {A : Type} (s : GoSlice.slice A) : Prop :=
  GoSlice.len s <= GoSlice.cap s.

(** ** The templates of a document *)

(** The names of the four templates in the order [scrollToLatex] reads
    them. *)
Definition templateNames (scroll : Scroll) : list string :=
  ["header"; Type_ scroll +:+ "_header"; Type_ scroll +:+ "_footer"; "footer"].

(** The first of the names for which there is no template. *)
Fixpoint firstMissing (w : World) (names : list string) : option string :=
  match names with
  | [] => None
  | name :: rest =>
      match templates w !! name with
      | Some _ => firstMissing w rest
      | None => Some name
      end
  end.

(** The names up to and with the first one for which there is no template. *)
Fixpoint upToFirstMissing (w : World) (names : list string) : list string :=
  match names with
  | [] => []
  | name :: rest =>
      match templates w !! name with
      | Some _ => name :: upToFirstMissing w rest
      | None => [name]
      end
  end.

(** ** What a run leaves alone *)

(** A computation that returns and whose final world stands in the relation
    [Inv] to the world it started in. *)
Definition steady {A : Type} (Inv : World -> World -> Prop) (m : M A) : Prop :=
  forall w : World, exists (a : A) (w' : World), m w = Ret (a, w') /\ Inv w w'.

(** Nothing but the temp directory and the trace has changed. *)
Definition onlyTemp (w w' : World) : Prop :=
  knowledgeListable w' = knowledgeListable w /\
  knowledge w' = knowledge w /\
  templates w' = templates w /\
  tempWritable w' = tempWritable w /\
  cache w' = cache w /\
  index w' = index w /\
  indexWritable w' = indexWritable w /\
  indexUpdated w' = indexUpdated w /\
  clock w' = clock w.

(** The store, the templates, the marker and the clock are as they were,
    and so is the index but for the entry of [id], which may be gone. *)
Definition onlyRendered (id : ID) (w w' : World) : Prop :=
  knowledgeListable w' = knowledgeListable w /\
  knowledge w' = knowledge w /\
  templates w' = templates w /\
  tempWritable w' = tempWritable w /\
  indexWritable w' = indexWritable w /\
  indexUpdated w' = indexUpdated w /\
  clock w' = clock w /\
  (forall id' : ID, id' <> id -> indexEntry id' w' = indexEntry id' w) /\
  (indexEntry id w' = None \/ indexEntry id w' = indexEntry id w).

(** A relation between worlds that does not look at the trace. *)
Class TraceBlind (Inv : World -> World -> Prop) : Prop :=
  trace_blind : forall (w : World) (t : list Event), Inv w (setTrace t w).

(** The store, the templates, the marker and the clock are as they were,
    and the index has no entry that is new or changed: the entries of
    [ids] may be gone, the others are there as before. *)
Definition onlyDropped (ids : list ID) (w w' : World) : Prop :=
  knowledgeListable w' = knowledgeListable w /\
  knowledge w' = knowledge w /\
  templates w' = templates w /\
  tempWritable w' = tempWritable w /\
  indexWritable w' = indexWritable w /\
  indexUpdated w' = indexUpdated w /\
  clock w' = clock w /\
  (forall id : ID, id ∉ ids -> indexEntry id w' = indexEntry id w) /\
  (forall id : ID, indexEntry id w' = None \/ indexEntry id w' = indexEntry id w).

(** A computation whose final world, when it returns, stands in the
    relation [Inv] to the world it started in; it may panic. *)
Definition keeps {A : Type} (Inv : World -> World -> Prop) (m : M A) : Prop :=
  forall (w : World) (a : A) (w' : World), m w = Ret (a, w') -> Inv w w'.

(** ** Terms that are already in the syntax of the engine *)

(** The term begins with [+] or [-]. *)
Definition isPrefixed (term : string) : bool :=
  match term with
  | String c _ => Ascii.eqb c "-" || Ascii.eqb c "+"
  | EmptyString => false
  end.

(** ** The index under a search *)

(** Nothing but the temp directory, the cache and the trace has changed. *)
Definition sameLibrary (w w' : World) : Prop :=
  knowledgeListable w' = knowledgeListable w /\
  knowledge w' = knowledge w /\
  templates w' = templates w /\
  tempWritable w' = tempWritable w /\
  index w' = index w /\
  indexWritable w' = indexWritable w /\
  indexUpdated w' = indexUpdated w /\
  clock w' = clock w.

(** A document of a result list: its source can be read, or it is the zero
    value that pads the list. *)
Definition liveOrZero (w : World) (s : Scroll) : Prop :=
  ID_ s = EmptyString \/
  exists content : string, contentOf (ID_ s +:+ ".tex") w = inl content.

(** ** Further installations of the example *)

Module Cases.

(** The index holds the documents of the store and no other. *)
Definition wAllLive : World := setIndex (Some (Demo.indexed ["a"; "b"; "c"])) Demo.w0.

(** The index holds only documents whose source has been deleted. *)
Definition wNoneLive : World := setIndex (Some (Demo.indexed ["d"; "e"])) Demo.w0.

(** The knowledge directory cannot be listed. *)
Definition wUnlistable : World :=
  mkWorld false Demo.library Demo.allTemplates true ∅ ∅
    (Some (Demo.indexed ["a"])) true (Some 150%Z) 1000%Z [].

(** There is no index and the directory it would go to cannot be written. *)
Definition wUnusable : World :=
  mkWorld true Demo.library Demo.allTemplates true ∅ ∅ None false (Some 150%Z) 1000%Z [].

(** The template [footer] is missing. *)
Definition wNoFooter : World :=
  mkWorld true Demo.library (delete "footer" Demo.allTemplates) true ∅ ∅
    (Some (Demo.indexed ["a"])) true (Some 150%Z) 1000%Z [].

(** Nothing has been rendered yet. *)
Definition wStale : World := setCache ∅ Demo.w0.

End Cases.

(** * Theorems *)

(** ** The library functions on small inputs *)

Example Split_keeps_empty_pieces :
  GoString.Split " a b " " " = [EmptyString; "a"; "b"; EmptyString] /\
  GoString.Split EmptyString " " = [EmptyString].
Proof. split; reflexivity. Qed.

(** A tab, a no-break space (bytes 194, 160) and an em space (bytes 226,
    128, 131) around a word are all white space. *)
Example TrimSpace_trims_unicode_space :
  GoString.TrimSpace (GoString.bytes [9; 194; 160; 43; 97; 226; 128; 131; 32]) = "+a" /\
  GoString.TrimSpace (GoString.bytes [160; 43; 97]) = GoString.bytes [160; 43; 97].
Proof. split; vm_compute; reflexivity. Qed.

Example TrimSuffix_examples :
  TrimSuffix "notes.tex" ".tex" = "notes" /\
  TrimSuffix "notes.txt" ".tex" = "notes.txt" /\
  TrimSuffix ".tex" ".tex" = EmptyString.
Proof. repeat split; vm_compute; reflexivity. Qed.

(** Three appends to the nil slice leave the capacity 4 when the capacity
    doubles: the slice can then be extended to four elements, the fourth
    the zero value, but not to five. *)
Example append_leaves_spare_capacity :
  let s := GoSlice.append GoSlice.nextslicecap 0
             (GoSlice.append GoSlice.nextslicecap 0
                (GoSlice.append GoSlice.nextslicecap 0 GoSlice.nil 7) 8) 9 in
  GoSlice.elems s = [7; 8; 9] /\
  GoSlice.cap s = 4 /\
  GoSlice.upTo s 4 = Ret (GoSlice.mkSlice [7; 8; 9; 0] 4) /\
  GoSlice.upTo s 5 = Panic "slice bounds out of range".
Proof. repeat split; vm_compute; reflexivity. Qed.

(** ** Query translation *)

Section QueryTranslation.

Lemma append_assoc (a b c : string) : (a +:+ b) +:+ c = a +:+ (b +:+ c).
Proof.
  induction a as [|x a IH]; [reflexivity|].
  change (String x ((a +:+ b) +:+ c) = String x (a +:+ (b +:+ c))).
  now rewrite IH.
Qed.

Lemma substring_all (s : string) : String.substring 0 (String.length s) s = s.
Proof. induction s as [|c s IH]; [reflexivity | cbn; f_equal; exact IH]. Qed.

Lemma sliceFrom_1 (c : ascii) (s : string) :
  GoString.sliceFrom (String c s) 1 = Ret s.
Proof.
  unfold GoString.sliceFrom. simpl.
  rewrite Nat.sub_0_r. now rewrite substring_all.
Qed.

Lemma Split_not_nil (s : string) (sep : ascii) : GoString.Split s sep <> [].
Proof.
  induction s as [|c s IH]; simpl; [discriminate|].
  destruct (Ascii.eqb c sep); [discriminate|].
  destruct (GoString.Split s sep); [contradiction | discriminate].
Qed.

(** One turn of the loop on a term that is not empty once trimmed. *)
Lemma translateTerm_nonempty (acc tmp : string) :
  GoString.TrimSpace tmp <> EmptyString ->
  translateTerm acc tmp = Ret (acc +:+ " " +:+ prefixed (GoString.TrimSpace tmp)).
Proof.
  unfold translateTerm. intros Hne.
  destruct (GoString.TrimSpace tmp) as [|c w]; [contradiction|].
  cbv zeta. change (GoString.index (String c w) 0) with (@Ret ascii c).
  cbn [res_bind prefixed].
  destruct (Ascii.eqb c "-" || Ascii.eqb c "+"); [reflexivity|].
  destruct (Ascii.eqb c "~"); [|reflexivity].
  now rewrite sliceFrom_1.
Qed.

(** One turn of the loop on a term that is empty once trimmed. *)
Lemma translateTerm_empty (acc tmp : string) :
  GoString.TrimSpace tmp = EmptyString ->
  translateTerm acc tmp = Panic "index out of range".
Proof. unfold translateTerm. now intros ->. Qed.

Lemma translateTerms_nonempty (terms : list string) : forall acc : string,
  Forall (fun t => GoString.TrimSpace t <> EmptyString) terms ->
  terms <> [] ->
  translateTerms acc terms =
  Ret (acc +:+ " " +:+
       joinWith " " ((fun t => prefixed (GoString.TrimSpace t)) <$> terms)).
Proof.
  induction terms as [|t rest IH]; intros acc Hall Hne; [contradiction|].
  inversion Hall as [|? ? Ht Hrest]; subst.
  simpl translateTerms. rewrite translateTerm_nonempty by assumption.
  simpl res_bind. destruct rest as [|t' rest'].
  - reflexivity.
  - rewrite IH by (assumption || discriminate).
    f_equal. simpl. now rewrite !append_assoc.
Qed.

Lemma translateTerms_panics (terms : list string) : forall acc : string,
  Exists (fun t => GoString.TrimSpace t = EmptyString) terms ->
  translateTerms acc terms = Panic "index out of range".
Proof.
  induction terms as [|t rest IH]; intros acc Hex; [inversion Hex|].
  simpl. destruct (String.string_dec (GoString.TrimSpace t) EmptyString) as [He|Hn].
  - now rewrite translateTerm_empty.
  - rewrite translateTerm_nonempty by assumption. simpl.
    apply IH. inversion Hex; [contradiction | assumption].
Qed.

(** Any query with a term that is empty once trimmed makes the translation
    panic. *)
Lemma translate_empty_term_panics (queryString : string) :
  Exists (fun t => GoString.TrimSpace t = EmptyString) (GoString.Split queryString " ") ->
  translatePlusMinusTildePrefixes queryString = Panic "index out of range".
Proof.
  intros Hex. unfold translatePlusMinusTildePrefixes.
  now rewrite translateTerms_panics.
Qed.

(** C6: the translation is not total on the boundary inputs.  The empty
    query and a query with two consecutive spaces have an empty term, and
    on both [word[0]] panics with an index out of range; the terms that are
    only their leading character go through. *)
Theorem C6_empty_term_panics :
  translatePlusMinusTildePrefixes EmptyString = Panic "index out of range" /\
  translatePlusMinusTildePrefixes "a  b" = Panic "index out of range" /\
  translatePlusMinusTildePrefixes "+" = Ret "+" /\
  translatePlusMinusTildePrefixes "-" = Ret "-" /\
  translatePlusMinusTildePrefixes "~" = Ret EmptyString.
Proof. repeat split; vm_compute; reflexivity. Qed.

(** C7, as stated, fails: the term [+a] followed by a tab begins with [+]
    but does not pass through unchanged, the translation drops the tab. *)
Lemma C7_term_is_trimmed :
  translatePlusMinusTildePrefixes plusATab = Ret "+a" /\
  translatePlusMinusTildePrefixes plusATab <> Ret (translationOfTerms plusATab).
Proof. split; [vm_compute; reflexivity | vm_compute; discriminate]. Qed.

(** C7, amended: every term is first trimmed of surrounding white space;
    when no trimmed term is empty, a trimmed term that begins with [+] or
    [-] passes through, one that begins with [~] loses it, any other gains
    a [+], and the translated terms are joined by single spaces.  In
    particular "alpha -beta ~gamma" becomes "+alpha -beta gamma". *)
Theorem C7_translation_of_trimmed_terms (queryString : string) :
  Forall (fun t => GoString.TrimSpace t <> EmptyString) (GoString.Split queryString " ") ->
  translatePlusMinusTildePrefixes queryString =
    Ret (translationOfTrimmedTerms queryString) /\
  translatePlusMinusTildePrefixes "alpha -beta ~gamma" = Ret "+alpha -beta gamma".
Proof.
  intros Hall. split; [|vm_compute; reflexivity].
  unfold translatePlusMinusTildePrefixes, translationOfTrimmedTerms.
  rewrite translateTerms_nonempty by (assumption || apply Split_not_nil).
  simpl. apply sliceFrom_1.
Qed.

(** The amended C7 on the query of the specification. *)
Lemma C7_translation_witness :
  Forall (fun t => GoString.TrimSpace t <> EmptyString) (GoString.Split "alpha -beta ~gamma" " ") /\
  translatePlusMinusTildePrefixes "alpha -beta ~gamma" =
    Ret (translationOfTrimmedTerms "alpha -beta ~gamma").
Proof.
  assert (H : Forall (fun t => GoString.TrimSpace t <> EmptyString)
                (GoString.Split "alpha -beta ~gamma" " ")).
  { vm_compute. repeat constructor; discriminate. }
  split; [exact H | exact (proj1 (C7_translation_of_trimmed_terms _ H))].
Defined.

End QueryTranslation.

(** ** The render pipeline *)

Section RenderPipeline.
Variable env : Env.

(** C8: when the artifact is up to date, [renderScroll] returns no error and
    leaves the renderer and the whole world, trace included, as they were:
    no stage ran.  So a second run on a fresh artifact does nothing. *)
Theorem C8_up_to_date_is_noop {R : Type} `{latexToPngRenderer R}
    (id : ID) (renderer : R) (w : World) :
  isUpToDate env id w = true ->
  renderScroll env id renderer w = Ret ((None, renderer), w) /\
  eventsOf (renderScroll env id renderer) w = [].
Proof.
  intros Hfresh.
  assert (Hrun : renderScroll env id renderer w = Ret ((None, renderer), w)).
  { unfold renderScroll, bind, getWorld. now rewrite Hfresh. }
  split; [exact Hrun|].
  unfold eventsOf. rewrite Hrun. apply drop_all.
Qed.

(** A stage with a value receiver hands the caller the renderer it got. *)
Lemma byValue_keeps {R : Type} (body : R -> ID -> M R) (x : R) (id : ID) (w : World) :
  match byValue body x id w with
  | Ret (x', _) => x' = x
  | Panic _ => True
  end.
Proof.
  unfold byValue, bind, ret. now destruct (body x id w) as [[? ?]|].
Qed.

(** Whatever the stages store, [renderScroll] with the xelatex renderer
    reports the error slot the renderer came with: with an empty slot it
    never reports an error. *)
Lemma renderScroll_xelatex (id : ID) (x : xelatexImagemagickRenderer) (w : World) :
  x_error x = None ->
  match renderScroll env (H := xelatexImagemagick env) id x w with
  | Ret ((e, x'), _) => e = None /\ x' = x
  | Panic _ => True
  end.
Proof.
  intros Hnil. unfold renderScroll, bind, getWorld.
  destruct (isUpToDate env id w); [now split|].
  cbn [scrollToLatex latexToPdf pdfToPng deleteTemporaryFiles err xelatexImagemagick].
  pose proof (byValue_keeps (scrollToLatex_body env) x id w) as H1.
  destruct (byValue (scrollToLatex_body env) x id w) as [[x1 w1]|]; [subst x1|exact I].
  pose proof (byValue_keeps (latexToPdf_body env) x id w1) as H2.
  destruct (byValue (latexToPdf_body env) x id w1) as [[x2 w2]|]; [subst x2|exact I].
  pose proof (byValue_keeps (pdfToPng_body env) x id w2) as H3.
  destruct (byValue (pdfToPng_body env) x id w2) as [[x3 w3]|]; [subst x3|exact I].
  pose proof (byValue_keeps (deleteTemporaryFiles_body env) x id w3) as H4.
  destruct (byValue (deleteTemporaryFiles_body env) x id w3) as [[x4 w4]|]; [subst x4|exact I].
  unfold ret. now rewrite Hnil.
Qed.

(** With any renderer, what [renderScroll] reports is never the sentinel
    itself: [errors.Wrap] has put a new error around it. *)
Lemma renderScroll_never_sentinel {R : Type} `{latexToPngRenderer R}
    (id : ID) (renderer : R) (w : World) :
  match renderScroll env id renderer w with
  | Ret ((Some e, _), _) => isErrNoSuchScroll e = false
  | _ => True
  end.
Proof.
  unfold renderScroll, bind, getWorld.
  destruct (isUpToDate env id w); [exact I|].
  destruct (scrollToLatex renderer id w) as [[r1 w1]|]; [|exact I].
  destruct (latexToPdf r1 id w1) as [[r2 w2]|]; [|exact I].
  destruct (pdfToPng r2 id w2) as [[r3 w3]|]; [|exact I].
  destruct (deleteTemporaryFiles r3 id w3) as [[r4 w4]|]; [|exact I].
  unfold ret. now destruct (err r4).
Qed.

(** [renderListOfScrolls] with the xelatex renderer counts every
    identifier. *)
Lemma renderLoop_xelatex (ids : list Scroll) :
  forall (numScrolls : nat) (x : xelatexImagemagickRenderer) (w : World),
  x_error x = None ->
  match renderLoop env (H := xelatexImagemagick env) numScrolls ids x w with
  | Ret (n, _) => n = numScrolls + length ids
  | Panic _ => True
  end.
Proof.
  induction ids as [|foo rest IH]; intros k x w Hnil.
  - simpl. unfold ret. lia.
  - cbn [renderLoop]. unfold bind at 1.
    pose proof (renderScroll_xelatex (ID_ foo) x w Hnil) as Hr.
    destruct (renderScroll env (ID_ foo) x w) as [[[e x'] w']|]; [|exact I].
    destruct Hr as [-> ->]. cbn [fst snd].
    specialize (IH (S k) x w' Hnil).
    destruct (renderLoop env (S k) rest x w') as [[n w'']|]; [|exact I].
    cbn [length]. lia.
Qed.

Section Batch.
Context {R : Type} `{latexToPngRenderer R}.

Lemma renderLoop_tally (ids : list Scroll) :
  forall (numScrolls : nat) (renderer : R) (w : World),
  countOf (renderLoop env numScrolls ids renderer w) =
  (fun n => numScrolls + n) <$> tally (renderOutcomes env ids renderer w).
Proof.
  induction ids as [|foo rest IH]; intros k r w.
  - simpl. f_equal. lia.
  - cbn [renderLoop renderOutcomes]. unfold bind at 1.
    destruct (renderScroll env (ID_ foo) r w) as [[[e r'] w']|]; [|reflexivity].
    cbn [fst snd tally]. destruct e as [e|].
    + destruct (isErrNoSuchScroll e); [apply IH | reflexivity].
    + rewrite IH. destruct (tally (renderOutcomes env rest r' w')); simpl; [|reflexivity].
      f_equal. lia.
Qed.

Lemma tally_forallb (outcomes : list (res (option error))) :
  tally outcomes =
  if forallb skippedOrSucceeded outcomes
  then Some (length (filter (fun o => succeeded o = true) outcomes))
  else None.
Proof.
  induction outcomes as [|o rest IH]; [reflexivity|].
  destruct o as [[e|]|msg]; cbn [tally forallb skippedOrSucceeded andb].
  - destruct (isErrNoSuchScroll e) eqn:He; [|reflexivity].
    rewrite IH. destruct (forallb skippedOrSucceeded rest); [|reflexivity].
    rewrite filter_cons_False; [reflexivity | simpl; discriminate].
  - rewrite IH. destruct (forallb skippedOrSucceeded rest); [|reflexivity].
    rewrite filter_cons_True by reflexivity. reflexivity.
  - reflexivity.
Qed.

(** C3: [renderListOfScrolls] goes through the reports of [renderScroll] in
    order: a report of [ErrNoSuchScroll] is passed over, any other error
    ends the run in a panic, and the number returned is the number of
    renders that reported no error. *)
Theorem C3_batch_counts_successes (ids : list Scroll) (renderer : R) (w : World) :
  countOf (renderListOfScrolls env ids renderer w) =
    tally (renderOutcomes env ids renderer w) /\
  tally (renderOutcomes env ids renderer w) =
    if forallb skippedOrSucceeded (renderOutcomes env ids renderer w)
    then Some (length (filter (fun o => succeeded o = true)
                         (renderOutcomes env ids renderer w)))
    else None.
Proof.
  split; [|apply tally_forallb].
  unfold renderListOfScrolls. rewrite renderLoop_tally.
  now destruct (tally (renderOutcomes env ids renderer w)).
Qed.

End Batch.
End RenderPipeline.

(** C8 on the document a of the example installation, whose artifact is
    in the cache. *)
Lemma C8_up_to_date_witness :
  isUpToDate Demo.env "a" Demo.w0 = true /\
  renderScroll Demo.env (H := xelatexImagemagick Demo.env) "a" (mkXelatex None) Demo.w0
    = Ret ((None, mkXelatex None), Demo.w0).
Proof.
  assert (H : isUpToDate Demo.env "a" Demo.w0 = true) by (vm_compute; reflexivity).
  split; [exact H|].
  exact (proj1 (C8_up_to_date_is_noop Demo.env (H := xelatexImagemagick Demo.env)
                  "a" (mkXelatex None) Demo.w0 H)).
Defined.

(** C1: the document d has no source file.  Stage 1 stores
    [ErrNoSuchScroll] in its receiver, which is a copy; the caller's
    renderer keeps an empty slot, so stage 2 runs xelatex and stage 3 runs
    convert before stage 4 cleans up. *)
Theorem C1_stages_run_after_stage1_error :
  resultOf (scrollToLatex_body Demo.env (mkXelatex None) "d" Demo.w0)
    = Ret (mkXelatex (Some ErrNoSuchScroll)) /\
  resultOf (scrollToLatex (latexToPngRenderer := xelatexImagemagick Demo.env)
              (mkXelatex None) "d" Demo.w0)
    = Ret (mkXelatex None) /\
  eventsOf (renderScroll Demo.env (H := xelatexImagemagick Demo.env) "d" (mkXelatex None))
           Demo.w0
    = [EvReadFile (KnowledgePath "d.tex"); EvOpenIndex; EvIndexDelete "d";
       EvExec "xelatex" "d"; EvExec "convert" "d";
       EvGlob "d.*"; EvRemove (TempPath "d.log")].
Proof. repeat split; vm_compute; reflexivity. Qed.

(** C2: the document d has no source file and no artifact.  [renderScroll]
    removes d from the index, and then reports no error at all: the
    sentinel stored by stage 1 never reaches [renderer.err()]. *)
Theorem C2_missing_source_reports_success :
  lookupFile "d.tex" Demo.w0 = None /\
  isUpToDate Demo.env "d" Demo.w0 = false /\
  resultOf (renderScroll Demo.env (H := xelatexImagemagick Demo.env) "d" (mkXelatex None)
              Demo.w0)
    = Ret (None, mkXelatex None) /\
  indexEntry "d" Demo.w0 = Some (Demo.parse "d" "old") /\
  indexEntry "d" <$> worldOf (renderScroll Demo.env (H := xelatexImagemagick Demo.env)
                                "d" (mkXelatex None) Demo.w0)
    = Some None.
Proof. repeat split; vm_compute; reflexivity. Qed.

(** ** Every stage of the xelatex renderer runs *)

Section EveryStageRuns.
Variable env : Env.

Lemma extends_ret {A : Type} (a : A) : extends (ret a).
Proof. intros w. exists a, w, []. now rewrite app_nil_r. Qed.

Lemma extends_bind {A B : Type} (m : M A) (k : A -> M B) :
  extends m -> (forall a : A, extends (k a)) -> extends (bind m k).
Proof.
  intros Hm Hk w. destruct (Hm w) as (a & w1 & e1 & Hrun & Ht).
  destruct (Hk a w1) as (b & w2 & e2 & Hrun2 & Ht2).
  exists b, w2, (e1 ++ e2). unfold bind. rewrite Hrun. split; [exact Hrun2|].
  now rewrite Ht2, Ht, app_assoc.
Qed.

Lemma extends_emit (e : Event) : extends (emit e).
Proof. intros w. now exists tt, (setTrace (trace w ++ [e]) w), [e]. Qed.

Lemma extends_getWorld : extends getWorld.
Proof. intros w. exists w, w, []. now rewrite app_nil_r. Qed.

Lemma extends_modify (f : World -> World) :
  (forall w : World, trace (f w) = trace w) -> extends (modify f).
Proof. intros Hf w. exists tt, (f w), []. now rewrite Hf, app_nil_r. Qed.

Ltac extends_step :=
  first
    [ apply extends_ret
    | apply extends_emit
    | apply extends_getWorld
    | apply extends_modify; intros; reflexivity
    | apply extends_bind; [|intros ?]
    | match goal with
      | |- extends (match ?x with _ => _ end) => destruct x
      end ].

Lemma extends_removeFromIndex (id : ID) : extends (removeFromIndex id).
Proof.
  unfold removeFromIndex, openExistingIndex, indexDelete. repeat extends_step.
Qed.

Lemma extends_readTemplate (e : errTemplateReader) (name : string) :
  extends (errTemplateReader_readTemplate e name).
Proof.
  unfold errTemplateReader_readTemplate, readTemplate. repeat extends_step.
Qed.

Lemma extends_scrollToLatex (x : xelatexImagemagickRenderer) (id : ID) :
  extends (scrollToLatex_body env x id).
Proof.
  unfold scrollToLatex_body, readScroll, readKnowledgeFile, writeTemp, tryLogError,
    logError.
  cbv zeta.
  repeat first [ apply extends_removeFromIndex | apply extends_readTemplate
               | extends_step ].
Qed.

Lemma extends_removeAll (files : list string) : extends (removeAll files).
Proof.
  induction files as [|file rest IH]; cbn [removeAll]; [apply extends_ret|].
  unfold removeTemp, tryLogError, logError.
  repeat first [ apply IH | extends_step ].
Qed.

(** Stage 2 with an empty error slot runs xelatex. *)
Lemma latexToPdf_runs (x : xelatexImagemagickRenderer) (id : ID) (w : World) :
  x_error x = None ->
  exists (x' : xelatexImagemagickRenderer) (w' : World),
    latexToPdf_body env x id w = Ret (x', w') /\
    trace w' = trace w ++ [EvExec "xelatex" id] /\
    index w' = index w.
Proof.
  intros Hnil. unfold latexToPdf_body. rewrite Hnil.
  unfold runXelatex, bind, emit, getWorld, ret, modify.
  destruct w as [kl k tpl tw tmp ch ix iw iu ck tr].
  cbn [temp tempWritable setTrace trace knowledgeListable knowledge templates cache index
       indexWritable indexUpdated clock].
  destruct (xelatex env (tmp !! (id +:+ ".tex"))) as [out [pdf|]]; cbn [fst snd];
    destruct tw; eexists _, _; repeat split; reflexivity.
Qed.

(** Stage 3 with an empty error slot runs convert. *)
Lemma pdfToPng_runs (x : xelatexImagemagickRenderer) (id : ID) (w : World) :
  x_error x = None ->
  exists (x' : xelatexImagemagickRenderer) (w' : World),
    pdfToPng_body env x id w = Ret (x', w') /\
    trace w' = trace w ++ [EvExec "convert" id] /\
    index w' = index w.
Proof.
  intros Hnil. unfold pdfToPng_body. rewrite Hnil.
  unfold runConvert, bind, emit, getWorld, ret, modify.
  destruct w as [kl k tpl tw tmp ch ix iw iu ck tr].
  cbn [temp tempWritable setTrace trace knowledgeListable knowledge templates cache index
       indexWritable indexUpdated clock].
  destruct (tmp !! (id +:+ ".pdf")) as [pdf|]; [destruct (convert env pdf)|];
    eexists _, _; repeat split; reflexivity.
Qed.

(** Removing temp files leaves the index alone. *)
Lemma removeAll_index (files : list string) :
  forall (w w' : World) (u : unit),
  removeAll files w = Ret (u, w') -> index w' = index w.
Proof.
  induction files as [|file rest IH]; intros w w' u.
  - cbn [removeAll]. unfold ret. now intros [= _ <-].
  - cbn [removeAll]. unfold removeTemp, bind, emit, getWorld, modify, ret.
    destruct w as [kl k tpl tw tmp ch ix iw iu ck tr].
    cbn [temp trace setTrace setTemp knowledgeListable knowledge templates tempWritable
         cache index indexWritable indexUpdated clock].
    destruct (tmp !! file); cbn [tryLogError]; unfold logError, emit, ret;
      intros Hrest; apply IH in Hrest; exact Hrest.
Qed.

(** Stage 4 globs the temp directory, whatever the error slot holds. *)
Lemma deleteTemporaryFiles_runs (x : xelatexImagemagickRenderer) (id : ID) (w : World) :
  exists (w' : World) (evs : list Event),
    deleteTemporaryFiles_body env x id w = Ret (x, w') /\
    trace w' = trace w ++ EvGlob (id +:+ ".*") :: evs /\
    index w' = index w.
Proof.
  unfold deleteTemporaryFiles_body.
  unfold bind at 1, emit at 1. unfold bind at 1, getWorld at 1.
  set (w1 := setTrace (trace w ++ [EvGlob (id +:+ ".*")]) w).
  destruct (Glob env (id +:+ ".*") (map_to_list (temp w1)).*1) as [files|e].
  - destruct (extends_removeAll files w1) as ([] & w2 & evs & Hrun & Ht).
    exists w2, evs. unfold bind, ret. rewrite Hrun. split; [reflexivity|]. split.
    + rewrite Ht. subst w1. cbn [trace setTrace]. now rewrite <- app_assoc.
    + now rewrite (removeAll_index _ _ _ _ Hrun).
  - exists (addEvents [EvLog (Error e)] w1), [EvLog (Error e)]. split; [reflexivity|].
    split; [|reflexivity].
    subst w1. unfold addEvents. cbn [trace setTrace]. now rewrite <- app_assoc.
Qed.

(** Stage 1 on a document whose source file is not there stores the
    sentinel in its copy of the receiver. *)
Lemma scrollToLatex_missing (x : xelatexImagemagickRenderer) (id : ID) (w : World) :
  lookupFile (id +:+ ".tex") w = None ->
  exists w' : World,
    scrollToLatex_body env x id w = Ret (mkXelatex (Some ErrNoSuchScroll), w').
Proof.
  intros Hgone. unfold scrollToLatex_body, readScroll, readKnowledgeFile. cbv zeta.
  unfold bind at 1. unfold bind at 1, emit at 1. unfold bind at 1, getWorld at 1, ret at 1.
  change (lookupFile (id +:+ ".tex") (setTrace (trace w ++ [EvReadFile (KnowledgePath (id +:+ ".tex"))]) w))
    with (lookupFile (id +:+ ".tex") w).
  rewrite Hgone. cbn [fst snd notExist os.IsNotExist].
  set (w1 := setTrace _ w).
  destruct (extends_removeFromIndex id w1) as (e & w2 & evs & Hrun & _).
  unfold bind at 1. rewrite Hrun.
  destruct e as [e|]; cbn [tryLogError]; unfold bind, logError, emit, ret; eexists; reflexivity.
Qed.

Lemma removeFromIndex_run (id : ID) (w : World) (m : gmap string Scroll) :
  id <> EmptyString ->
  index w = Some m ->
  indexWritable w = true ->
  exists w' : World,
    removeFromIndex id w = Ret (None, w') /\ index w' = Some (delete id m).
Proof.
  intros Hid Hindex Hwritable. apply String.eqb_neq in Hid.
  destruct w as [kl k tpl tw tmp ch ix iw iu ck tr].
  cbn [index indexWritable] in Hindex, Hwritable. subst ix iw.
  unfold removeFromIndex, openExistingIndex, indexDelete, bind, emit, getWorld, ret, modify.
  cbn [trace setTrace knowledgeListable knowledge templates tempWritable temp cache index
       indexWritable indexUpdated clock].
  rewrite Hid.
  cbn [trace setTrace knowledgeListable knowledge templates tempWritable temp cache index
       indexWritable indexUpdated clock].
  eexists. split; reflexivity.
Qed.

(** With an index that can be written, it also takes the document out of
    the index. *)
Lemma scrollToLatex_missing_index (x : xelatexImagemagickRenderer) (id : ID) (w : World)
    (m : gmap string Scroll) :
  id <> EmptyString ->
  lookupFile (id +:+ ".tex") w = None ->
  index w = Some m ->
  indexWritable w = true ->
  exists w' : World,
    scrollToLatex_body env x id w = Ret (mkXelatex (Some ErrNoSuchScroll), w') /\
    index w' = Some (delete id m).
Proof.
  intros Hid Hgone Hindex Hwritable.
  unfold scrollToLatex_body, readScroll, readKnowledgeFile. cbv zeta.
  unfold bind at 1. unfold bind at 1, emit at 1. unfold bind at 1, getWorld at 1, ret at 1.
  change (lookupFile (id +:+ ".tex") (setTrace (trace w ++ [EvReadFile (KnowledgePath (id +:+ ".tex"))]) w))
    with (lookupFile (id +:+ ".tex") w).
  rewrite Hgone. cbn [fst snd notExist os.IsNotExist].
  set (w1 := setTrace _ w).
  destruct (removeFromIndex_run id w1 m Hid Hindex Hwritable) as (w2 & Hrun & Hi).
  unfold bind at 1. rewrite Hrun. cbn [tryLogError].
  unfold bind, ret. eexists. split; [reflexivity | exact Hi].
Qed.

(** For every identifier whose artifact is not up to date, [renderScroll]
    with the xelatex renderer returns without an error after it has run
    xelatex, convert and the cleanup, whatever stage 1 did. *)
Lemma renderScroll_xelatex_runs_every_stage (id : ID) (w : World) :
  isUpToDate env id w = false ->
  exists (w' : World) (ev1 ev4 : list Event),
    renderScroll env (H := xelatexImagemagick env) id (mkXelatex None) w
      = Ret ((None, mkXelatex None), w') /\
    trace w' = trace w ++ ev1 ++
               EvExec "xelatex" id :: EvExec "convert" id :: EvGlob (id +:+ ".*") :: ev4.
Proof.
  intros Hstale. unfold renderScroll. unfold bind at 1, getWorld at 1. rewrite Hstale.
  cbn [scrollToLatex latexToPdf pdfToPng deleteTemporaryFiles err xelatexImagemagick].
  unfold byValue.
  destruct (extends_scrollToLatex (mkXelatex None) id w) as (x1 & w1 & ev1 & Hrun1 & Ht1).
  destruct (latexToPdf_runs (mkXelatex None) id w1 eq_refl) as (x2 & w2 & Hrun2 & Ht2 & _).
  destruct (pdfToPng_runs (mkXelatex None) id w2 eq_refl) as (x3 & w3 & Hrun3 & Ht3 & _).
  destruct (deleteTemporaryFiles_runs (mkXelatex None) id w3) as (w4 & ev4 & Hrun4 & Ht4 & _).
  exists w4, ev1, ev4. unfold bind, ret.
  rewrite Hrun1, Hrun2, Hrun3, Hrun4. split; [reflexivity|].
  rewrite Ht4, Ht3, Ht2, Ht1. now rewrite <- !app_assoc.
Qed.

(** For every document whose source file is gone and whose artifact is not
    up to date, [renderScroll] with the xelatex renderer takes the document
    out of a writable index, and reports no error. *)
Lemma renderScroll_missing_source (id : ID) (w : World) (m : gmap string Scroll) :
  id <> EmptyString ->
  lookupFile (id +:+ ".tex") w = None ->
  isUpToDate env id w = false ->
  index w = Some m ->
  indexWritable w = true ->
  exists w' : World,
    renderScroll env (H := xelatexImagemagick env) id (mkXelatex None) w
      = Ret ((None, mkXelatex None), w') /\
    index w' = Some (delete id m) /\
    indexEntry id w' = None.
Proof.
  intros Hid Hgone Hstale Hindex Hwritable.
  unfold renderScroll. unfold bind at 1, getWorld at 1. rewrite Hstale.
  cbn [scrollToLatex latexToPdf pdfToPng deleteTemporaryFiles err xelatexImagemagick].
  unfold byValue.
  destruct (scrollToLatex_missing_index (mkXelatex None) id w m Hid Hgone Hindex Hwritable)
    as (w1 & Hrun1 & Hi1).
  destruct (latexToPdf_runs (mkXelatex None) id w1 eq_refl) as (x2 & w2 & Hrun2 & _ & Hi2).
  destruct (pdfToPng_runs (mkXelatex None) id w2 eq_refl) as (x3 & w3 & Hrun3 & _ & Hi3).
  destruct (deleteTemporaryFiles_runs (mkXelatex None) id w3) as (w4 & ev4 & Hrun4 & _ & Hi4).
  exists w4. unfold bind, ret. rewrite Hrun1, Hrun2, Hrun3, Hrun4.
  assert (Hfinal : index w4 = Some (delete id m)) by now rewrite Hi4, Hi3, Hi2.
  repeat split; [exact Hfinal|].
  unfold indexEntry. rewrite Hfinal. apply lookup_delete_eq.
Qed.

End EveryStageRuns.

(** ** The incremental index *)

Section IncrementalIndex.
Variable env : Env.

Lemma addEvents_app (e1 e2 : list Event) (w : World) :
  addEvents e2 (addEvents e1 w) = addEvents (e1 ++ e2) w.
Proof. unfold addEvents, setTrace. simpl. now rewrite app_assoc. Qed.

Lemma bind_run {A B} (m : M A) (k : A -> M B) (w w' : World) (a : A) :
  m w = Ret (a, w') -> bind m k w = k a w'.
Proof. unfold bind. now intros ->. Qed.

Lemma logError_run (e : error) (w : World) :
  logError e w = Ret (tt, addEvents [EvLog (Error e)] w).
Proof. reflexivity. Qed.

Lemma isOlderThan_run (name : string) (t : Z) (w : World) :
  isOlderThan name t w =
  Ret (match statOf name w with
       | inl m => (m <? t)%Z
       | inr _ => true
       end,
       addEvents (EvStat (KnowledgePath name) ::
                  match statOf name w with
                  | inl _ => []
                  | inr e => [EvLog (Error e)]
                  end) w).
Proof.
  unfold isOlderThan, getModTime, statOf, bind, emit, getWorld, ret, logError, addEvents.
  destruct w; unfold lookupFile; simpl.
  match goal with |- context [head ?l] => destruct (head l) as [[n f]|] end; simpl.
  - destruct (fileStat f); simpl; [reflexivity|].
    unfold setTrace; simpl. now rewrite <- app_assoc.
  - unfold setTrace; simpl. now rewrite <- app_assoc.
Qed.

Lemma loadAndParseScrollContent_run (id : ID) (name : string) (w : World) :
  loadAndParseScrollContent env id name w =
  Ret (match contentOf name w with
       | inl content => (parse env id content, None)
       | inr e => (parse env id EmptyString, Some e)
       end,
       addEvents (EvReadFile (KnowledgePath name) ::
                  match contentOf name w with
                  | inl _ => []
                  | inr e => [EvLog (Error e)]
                  end) w).
Proof.
  unfold loadAndParseScrollContent, readKnowledgeFile, contentOf, bind, emit, getWorld,
    ret, tryLogError, logError, addEvents.
  destruct w; unfold lookupFile; simpl.
  match goal with |- context [head ?l] => destruct (head l) as [[n f]|] end; simpl.
  - destruct (fileRead f); simpl; [reflexivity|].
    unfold setTrace; simpl. now rewrite <- app_assoc.
  - unfold setTrace; simpl. now rewrite <- app_assoc.
Qed.

Lemma verdicts_addEvents (isNewIndex : bool) (marker : Z) (evs : list Event)
    (w : World) (names : list string) :
  verdict env isNewIndex marker (addEvents evs w) <$> names =
  verdict env isNewIndex marker w <$> names.
Proof. reflexivity. Qed.

(** A document that is considered: read, parse, stage, then on with the
    rest of the loop, for which [Hrest] says what it does. *)
Lemma consider_run (isNewIndex : bool) (marker : Z) (name : string) (rest : list string)
    (batch : Batch) (w : World) :
  (forall (batch : Batch) (w : World),
     indexFiles env isNewIndex marker rest batch w =
     Ret (batch ++ staged (verdict env isNewIndex marker w <$> rest),
          addEvents (fileEvents isNewIndex rest (verdict env isNewIndex marker w <$> rest)) w)) ->
  (p <- loadAndParseScrollContent env (TrimSuffix name ".tex") name;
   match snd p with
   | Some e => logError e;; indexFiles env isNewIndex marker rest batch
   | None =>
       tryLogError (snd (batchIndex (TrimSuffix name ".tex") (fst p) batch));;
       indexFiles env isNewIndex marker rest
         (fst (batchIndex (TrimSuffix name ".tex") (fst p) batch))
   end) w =
  Ret (batch ++ staged (consider env w name :: (verdict env isNewIndex marker w <$> rest)),
       addEvents
         (match consider env w name with
          | Skipped => []
          | StatFailed e => [EvLog (Error e)]
          | ReadFailed e =>
              [EvReadFile (KnowledgePath name); EvLog (Error e); EvLog (Error e)]
          | Refused _ e => [EvReadFile (KnowledgePath name); EvLog (Error e)]
          | Staged _ _ => [EvReadFile (KnowledgePath name)]
          end ++ fileEvents isNewIndex rest (verdict env isNewIndex marker w <$> rest))
         w).
Proof.
  intros Hrest.
  rewrite (bind_run _ _ _ _ _ (loadAndParseScrollContent_run _ name w)).
  unfold consider. destruct (contentOf name w) as [content|e]; cbn [fst snd].
  - unfold batchIndex.
    destruct (String.eqb (TrimSuffix name ".tex") EmptyString); cbn [fst snd tryLogError].
    + rewrite (bind_run _ _ _ _ _ (logError_run _ _)).
      rewrite Hrest, verdicts_addEvents, !addEvents_app. reflexivity.
    + unfold bind at 1, ret at 1.
      rewrite Hrest, verdicts_addEvents, !addEvents_app.
      unfold staged. cbn [omap list_omap stagedOf]. now rewrite <- app_assoc.
  - rewrite (bind_run _ _ _ _ _ (logError_run _ _)).
    rewrite Hrest, verdicts_addEvents, !addEvents_app. reflexivity.
Qed.

(** The loop of [updateIndex] follows the verdicts: it never panics, it
    stages the documents whose verdict is [Staged], in order, and it does
    and logs what goes with each verdict. *)
Lemma indexFiles_run (isNewIndex : bool) (marker : Z) (names : list string) :
  forall (batch : Batch) (w : World),
  indexFiles env isNewIndex marker names batch w =
  Ret (batch ++ staged (verdict env isNewIndex marker w <$> names),
       addEvents (fileEvents isNewIndex names (verdict env isNewIndex marker w <$> names)) w).
Proof.
  induction names as [|name rest IH]; intros batch w.
  - simpl. unfold ret, staged, fileEvents, addEvents. simpl.
    rewrite !app_nil_r. now destruct w.
  - cbn [indexFiles fmap list_fmap].
    unfold fileEvents. cbn [zip_with concat]. fold (fileEvents isNewIndex rest).
    unfold verdict at 1 3, verdictEvents at 1.
    destruct isNewIndex; cbn [negb].
    + unfold bind at 1, ret at 1.
      rewrite (consider_run true marker name rest batch w IH). reflexivity.
    + rewrite (bind_run _ _ _ _ _ (isOlderThan_run name marker w)).
      destruct (statOf name w) as [t|e].
      * destruct (t <? marker)%Z.
        -- rewrite IH, verdicts_addEvents, !addEvents_app. reflexivity.
        -- rewrite (consider_run false marker name rest batch _ IH).
           rewrite !addEvents_app. reflexivity.
      * rewrite IH, verdicts_addEvents, !addEvents_app. reflexivity.
Qed.

(** An update that can neither open nor create the index stops there. *)
Lemma updateIndex_unusable (w : World) :
  indexUsable w = false ->
  updateIndex env w =
  Ret (Some (withMessage (PathError "mkdir" "bleve" false) "open or create index"),
       addEvents [EvOpenIndex; EvCreateIndex] w).
Proof.
  destruct w as [kl k tpl tw tmp ch ix iw iu ck tr].
  unfold indexUsable, isNewIndexOf. cbn [index indexWritable].
  destruct ix as [m|]; [discriminate|]. destruct iw; [discriminate|]. intros _.
  unfold updateIndex, openOrCreateIndex, openExistingIndex, createNewIndex, bind, emit,
    getWorld, ret, addEvents, setTrace. cbn.
  now rewrite <- app_assoc.
Qed.

Lemma openOrCreateIndex_run (w : World) :
  indexUsable w = true ->
  openOrCreateIndex w =
  Ret ((isNewIndexOf w, None),
       setIndex (Some (default ∅ (index w))) (addEvents (openEvents w) w)).
Proof.
  destruct w as [kl k tpl tw tmp ch ix iw iu ck tr].
  unfold indexUsable, isNewIndexOf, openEvents. cbn [index indexWritable isNewIndexOf].
  unfold openOrCreateIndex, openExistingIndex, createNewIndex, bind, emit, getWorld, ret,
    modify, addEvents, setIndex, setTrace.
  destruct ix as [m|]; cbn [index indexWritable trace negb orb].
  - reflexivity.
  - intros ->. cbn [index indexWritable trace]. now rewrite <- app_assoc.
Qed.

Lemma getModTime_marker_run (w : World) :
  getModTime indexUpdateFile w =
  Ret ((cutoffOf w,
        match indexUpdated w with
        | Some _ => None
        | None => Some (notExist "stat" "index_updated")
        end),
       addEvents [EvStat indexUpdateFile] w).
Proof.
  unfold getModTime, indexUpdateFile, bind, emit, getWorld, ret, cutoffOf.
  change (sentinelTime "index_updated" (setTrace (trace w ++ [EvStat (AlexandriaPath "index_updated")]) w))
    with (indexUpdated w).
  now destruct (indexUpdated w).
Qed.

Lemma recordIndexUpdateStart_run (w : World) :
  recordIndexUpdateStart indexUpdateFile w =
  Ret (tt,
       setIndexUpdated (touched w)
         (addEvents (EvChtimes indexUpdateFile (clock w) ::
                     match indexUpdated w with
                     | Some _ => []
                     | None => [EvLog (Error (notExist "chtimes" "index_updated"))]
                     end) w)).
Proof.
  destruct w as [kl k tpl tw tmp ch ix iw iu ck tr].
  unfold recordIndexUpdateStart, touch, indexUpdateFile, touched, bind, emit, getWorld, ret.
  cbn [clock trace setTrace].
  change (sentinelTime "index_updated" ?w) with (indexUpdated w).
  cbn [indexUpdated].
  destruct iu as [t|]; unfold modify, tryLogError, logError, emit, addEvents,
    setIndexUpdated, setTrace; cbn [trace indexUpdated index indexWritable clock
    knowledgeListable knowledge templates tempWritable temp cache].
  - reflexivity.
  - now rewrite <- app_assoc.
Qed.

Lemma ReadDir_run (w : World) :
  ReadDir w =
  Ret (if knowledgeListable w then (fst <$> knowledge w, None)
       else ([], Some (notExist "open" "KnowledgeDirectory")),
       addEvents [EvReadDir] w).
Proof.
  unfold ReadDir, bind, emit, getWorld, ret.
  change (knowledgeListable (setTrace (trace w ++ [EvReadDir]) w)) with (knowledgeListable w).
  now destruct (knowledgeListable w).
Qed.

Lemma indexBatch_run (batch : Batch) (m : gmap string Scroll) (w : World) :
  index w = Some m ->
  indexBatch batch w =
  Ret (if indexWritable w then None else Some (PathError "write" "bleve" false),
       setIndex (Some (if indexWritable w then applyBatch batch m else m))
         (addEvents [EvIndexBatch (fst <$> batch)] w)).
Proof.
  destruct w as [kl k tpl tw tmp ch ix iw iu ck tr]. cbn [index indexWritable].
  intros ->.
  unfold indexBatch, bind, emit, getWorld, ret, modify, addEvents, setIndex, setTrace.
  cbn [index indexWritable trace].
  now destruct iw.
Qed.

Lemma world_eq (w : World) :
  mkWorld (knowledgeListable w) (knowledge w) (templates w) (tempWritable w) (temp w)
    (cache w) (index w) (indexWritable w) (indexUpdated w) (clock w) (trace w) = w.
Proof. now destruct w. Qed.

(** Two worlds are the same when their eleven components are. *)
Lemma world_ext (w w' : World) :
  knowledgeListable w = knowledgeListable w' ->
  knowledge w = knowledge w' ->
  templates w = templates w' ->
  tempWritable w = tempWritable w' ->
  temp w = temp w' ->
  cache w = cache w' ->
  index w = index w' ->
  indexWritable w = indexWritable w' ->
  indexUpdated w = indexUpdated w' ->
  clock w = clock w' ->
  trace w = trace w' ->
  w = w'.
Proof. destruct w, w'; simpl; intros; now subst. Qed.

(** Components of a world under the setters, one layer at a time. *)
Ltac fields :=
  lazy beta iota zeta delta
    [knowledgeListable knowledge templates tempWritable temp cache index indexWritable
     indexUpdated clock trace setTrace setTemp setCache setIndex setIndexUpdated addEvents].

(** An update that has its index: what it returns and the world it
    leaves. *)
Lemma updateIndex_run (w : World) :
  indexUsable w = true ->
  updateIndex env w =
  Ret (updateError w,
       setIndex (Some (indexAfterUpdate env w))
         (setIndexUpdated (touched w)
            (addEvents (updateEvents env (cutoffOf w) w) w))).
Proof.
  intros Husable. unfold updateIndex.
  rewrite (bind_run _ _ _ _ _ (openOrCreateIndex_run w Husable)). cbn [fst snd].
  rewrite (bind_run _ _ _ _ _ (getModTime_marker_run _)). cbn [fst snd].
  clear Husable.
  destruct w as [kl k tpl tw tmp ch ix iw iu ck tr].
  match goal with |- context [cutoffOf ?w1] => change (cutoffOf w1) with (default 0%Z iu) end.
  match goal with
  | |- context [tryLogError ?e] =>
      change e with (match iu with
                     | Some _ => None
                     | None => Some (notExist "stat" "index_updated")
                     end)
  end.
  assert (Hlog : forall w0 : World,
            tryLogError
              (match iu with
               | Some _ => None
               | None => Some (notExist "stat" "index_updated")
               end) w0 =
            Ret (tt, addEvents (match iu with
                                | Some _ => []
                                | None => [EvLog (Error (notExist "stat" "index_updated"))]
                                end) w0)).
  { intros w0. destruct iu; [|reflexivity].
    unfold tryLogError, ret, addEvents. rewrite app_nil_r.
    unfold setTrace. now rewrite world_eq. }
  rewrite (bind_run _ _ _ _ _ (Hlog _)).
  rewrite (bind_run _ _ _ _ _ (recordIndexUpdateStart_run _)).
  rewrite (bind_run _ _ _ _ _ (ReadDir_run _)).
  match goal with
  | |- context [knowledgeListable ?w2] =>
      change (knowledgeListable w2) with kl; change (knowledge w2) with k
  end.
  unfold updateError, indexAfterUpdate, updateEvents, documentEvents, verdictsOf, cutoffOf.
  cbn [knowledgeListable knowledge indexWritable indexUpdated index].
  destruct kl; cbn [fst snd andb].
  - rewrite (bind_run _ _ _ _ _ (indexFiles_run _ _ _ _ _)).
    rewrite (indexBatch_run _ (default ∅ ix)) by reflexivity.
    match goal with
    | |- context [indexWritable ?w3] => change (indexWritable w3) with iw
    end.
    f_equal. f_equal.
    apply world_ext; try reflexivity.
    fields. unfold markerEvents, openEvents, isNewIndexOf.
    cbn [indexUpdated index clock].
    destruct iu; rewrite <- ?app_assoc; reflexivity.
  - unfold ret. f_equal. f_equal.
    apply world_ext; try reflexivity.
    fields. unfold markerEvents, openEvents, isNewIndexOf.
    cbn [indexUpdated index clock].
    destruct iu; rewrite <- ?app_assoc; reflexivity.
Qed.

Lemma eventsOf_updateIndex (w : World) :
  indexUsable w = true ->
  eventsOf (updateIndex env) w = updateEvents env (cutoffOf w) w.
Proof.
  intros Husable. unfold eventsOf. rewrite updateIndex_run by assumption.
  cbn [trace setIndex setIndexUpdated addEvents setTrace].
  now rewrite drop_app_length.
Qed.

Lemma afterUpdate_usable (w : World) :
  indexUsable w = true ->
  updateIndex env w = Ret (updateError w, afterUpdate env w) /\
  index (afterUpdate env w) = Some (indexAfterUpdate env w) /\
  indexUpdated (afterUpdate env w) = touched w.
Proof.
  intros Husable. unfold afterUpdate. rewrite updateIndex_run by assumption.
  repeat split.
Qed.

(** No update brings the sentinel into being. *)
Lemma afterUpdate_no_sentinel (w : World) :
  indexUpdated w = None -> indexUpdated (afterUpdate env w) = None.
Proof.
  intros Habsent. destruct (indexUsable w) eqn:Husable.
  - rewrite (proj2 (proj2 (afterUpdate_usable w Husable))).
    unfold touched. now rewrite Habsent.
  - unfold afterUpdate. now rewrite updateIndex_unusable.
Qed.

Lemma afterUpdates_no_sentinel (n : nat) : forall w : World,
  indexUpdated w = None -> indexUpdated (afterUpdates env n w) = None.
Proof.
  induction n as [|n IH]; intros w Habsent; [exact Habsent|].
  simpl. apply IH. now apply afterUpdate_no_sentinel.
Qed.

Lemma fileEvents_no_commit (isNewIndex : bool) (names : list string) :
  forall vs : list Verdict,
  forallb (fun e => negb (isCommit e)) (fileEvents isNewIndex names vs) = true.
Proof.
  induction names as [|name rest IH]; intros [|v vs]; try reflexivity.
  unfold fileEvents. cbn [zip_with concat]. rewrite forallb_app.
  fold (fileEvents isNewIndex rest vs). rewrite IH, andb_true_r.
  unfold verdictEvents. now destruct isNewIndex, v.
Qed.

(** C5: an update that has its index and can list the store goes through
    the documents by their verdicts.  With an index that was there, a
    document is skipped exactly when its modification time is before the
    marker; with a new index every document is considered.  A document
    that cannot be examined, read or staged is logged and left out, and the
    loop goes on.  The staged documents enter the index in one commit, the
    last thing the update does. *)
Theorem C5_update_follows_verdicts (w : World) :
  indexUsable w = true ->
  knowledgeListable w = true ->
  let names := fst <$> knowledge w in
  let vs := verdict env (isNewIndexOf w) (cutoffOf w) w <$> names in
  let before := openEvents w ++ markerEvents w ++
                EvReadDir :: fileEvents (isNewIndexOf w) names vs in
  updateIndex env w =
    Ret (if indexWritable w then None else Some (PathError "write" "bleve" false),
         afterUpdate env w) /\
  index (afterUpdate env w) =
    Some (if indexWritable w then applyBatch (staged vs) (default ∅ (index w))
          else default ∅ (index w)) /\
  eventsOf (updateIndex env) w = before ++ [EvIndexBatch (fst <$> staged vs)] /\
  forallb (fun e => negb (isCommit e)) before = true /\
  (forall name : string,
     verdict env false (cutoffOf w) w name = Skipped <->
     exists t : Z, statOf name w = inl t /\ (t < cutoffOf w)%Z) /\
  (forall name : string,
     verdict env true (cutoffOf w) w name = consider env w name).
Proof.
  intros Husable Hlist names vs before.
  destruct (afterUpdate_usable w Husable) as (Hrun & Hindex & _).
  repeat split.
  - rewrite Hrun. unfold updateError. now rewrite Hlist.
  - rewrite Hindex. unfold indexAfterUpdate. now rewrite Hlist.
  - rewrite eventsOf_updateIndex by assumption.
    unfold updateEvents, documentEvents. rewrite Hlist. subst before.
    now rewrite <- !app_assoc.
  - subst before. rewrite !forallb_app. cbn [forallb].
    rewrite fileEvents_no_commit.
    unfold openEvents, markerEvents.
    now destruct (isNewIndexOf w), (indexUpdated w).
  - unfold verdict. destruct (statOf name w) as [t|e]; [|discriminate].
    destruct (Z.ltb_spec t (cutoffOf w)).
    + intros _. now exists t.
    + unfold consider. destruct (contentOf name w); [|discriminate].
      now destruct (String.eqb _ _).
  - unfold verdict. intros (t & Ht & Hlt). rewrite Ht.
    destruct (Z.ltb_spec t (cutoffOf w)); [reflexivity | lia].
Qed.

(** C9: every update returns.  One that can neither open nor create the
    index stops before anything else; every other one first reads the
    marker, then touches it with the current time, and only then lists the
    store and goes through the documents.  The verdicts on the documents
    are those for the marker as it was read, 0 if it could not be read.  If
    the sentinel is there, its time after the update is the current
    time. *)
Theorem C9_marker_read_then_touched_then_scan (w : World) :
  (exists e : option error, updateIndex env w = Ret (e, afterUpdate env w)) /\
  eventsOf (updateIndex env) w =
    (if indexUsable w
     then openEvents w ++ markerEvents w ++
          EvReadDir :: documentEvents env (cutoffOf w) w
     else [EvOpenIndex; EvCreateIndex]) /\
  cutoffOf w = match indexUpdated w with Some t => t | None => 0%Z end /\
  indexUpdated (afterUpdate env w) =
    (if indexUsable w
     then match indexUpdated w with Some _ => Some (clock w) | None => None end
     else indexUpdated w).
Proof.
  destruct (indexUsable w) eqn:Husable.
  - destruct (afterUpdate_usable w Husable) as (Hrun & _ & Htouched).
    repeat split.
    + eexists. exact Hrun.
    + now apply eventsOf_updateIndex.
    + exact Htouched.
  - pose proof (updateIndex_unusable w Husable) as Hrun.
    unfold afterUpdate, eventsOf. rewrite Hrun. repeat split.
    + eexists. reflexivity.
    + unfold addEvents. cbn [trace setTrace]. now rewrite drop_app_length.
Qed.

(** C10: when the sentinel is not there, it is still not there after any
    number of updates.  Each of these updates returns; if it has its index
    it reads the marker as 0, logs the failure of the touch and goes on to
    list the store and to go through the documents with the marker 0. *)
Theorem C10_touch_never_creates_sentinel (w : World) (n : nat) :
  indexUpdated w = None ->
  let wn := afterUpdates env n w in
  indexUpdated wn = None /\
  indexUpdated (afterUpdate env wn) = None /\
  cutoffOf wn = 0%Z /\
  (indexUsable wn = true ->
   (exists e : option error, updateIndex env wn = Ret (e, afterUpdate env wn)) /\
   eventsOf (updateIndex env) wn =
     openEvents wn ++
     [EvStat indexUpdateFile;
      EvLog (Error (notExist "stat" "index_updated"));
      EvChtimes indexUpdateFile (clock wn);
      EvLog (Error (notExist "chtimes" "index_updated"))] ++
     EvReadDir :: documentEvents env 0%Z wn).
Proof.
  intros Habsent wn.
  assert (Hn : indexUpdated wn = None) by now apply afterUpdates_no_sentinel.
  assert (Hcut : cutoffOf wn = 0%Z) by (unfold cutoffOf; now rewrite Hn).
  repeat split; try assumption.
  - now apply afterUpdate_no_sentinel.
  - destruct (afterUpdate_usable wn H) as (Hrun & _). eexists. exact Hrun.
  - rewrite eventsOf_updateIndex by assumption.
    unfold updateEvents, markerEvents. now rewrite Hcut, Hn.
Qed.

End IncrementalIndex.

(** ** The query engine *)

Section QueryEngine.
Variable env : Env.

(** What [findScrolls] reports as the total is the length of the list it
    returns: [renderListOfScrolls] has counted every document of the
    list. *)
Lemma findScrolls_total_is_length (query : string) (w w' : World) (results : Results) :
  findScrolls env query w = Ret ((results, None), w') ->
  Total results = length (IDs results).
Proof.
  unfold findScrolls. unfold bind at 1.
  destruct (searchBleve env query w) as [[[found e] w1]|]; [|discriminate].
  cbn [fst snd]. destruct e as [e|]; [discriminate|].
  unfold bind at 1. unfold renderListOfScrolls.
  pose proof (renderLoop_xelatex env (IDs found) 0 (mkXelatex None) w1 eq_refl) as Hn.
  destruct (renderLoop env 0 (IDs found) (mkXelatex None) w1) as [[n w2]|]; [|discriminate].
  unfold bind at 1.
  destruct (fillExisting (IDs found) (replicate n zeroScroll) 0 w2) as [[ids w3]|];
    [|discriminate].
  unfold ret. intros [= <- _]. cbn [Total IDs]. lia.
Qed.

(** The list [searchBleve] returns has as many documents as the index gave
    hits, whether or not their source files are there. *)
Lemma searchBleve_hits (query newQuery : string) (w w' : World) (results : Results)
    (m : gmap string Scroll) (sr : SearchResult) :
  index w = Some m ->
  translatePlusMinusTildePrefixes query = Ret newQuery ->
  bleveSearch env m newQuery (MaxResults env) = inl sr ->
  searchBleve env query w = Ret ((results, None), w') ->
  length (IDs results) = length (Hits sr).
Proof.
  intros Hindex Htr Hsearch. unfold searchBleve.
  assert (Hopen : openExistingIndex w = Ret (None, addEvents [EvOpenIndex] w)).
  { unfold openExistingIndex, bind, emit, getWorld, ret.
    change (index (setTrace (trace w ++ [EvOpenIndex]) w)) with (index w).
    now rewrite Hindex. }
  rewrite (bind_run _ _ _ _ _ Hopen). rewrite Htr.
  rewrite (bind_run _ _ _ _ _ (eq_refl : lift (Ret newQuery) _ = Ret (newQuery, _))).
  assert (Hquery : forall w0 : World, index w0 = Some m ->
            performQuery env newQuery w0 =
            Ret (inl sr, addEvents [EvSearch newQuery] w0)).
  { intros w0 H0. unfold performQuery, bind, emit, getWorld, ret.
    change (index (setTrace (trace w0 ++ [EvSearch newQuery]) w0)) with (index w0).
    now rewrite H0, Hsearch. }
  rewrite (bind_run _ _ _ _ _ (Hquery (addEvents [EvOpenIndex] w) Hindex)).
  unfold bind at 1.
  destruct (loadMatchingScrolls env sr _) as [[scrolls w1]|]; [|discriminate].
  unfold bind at 1, lift at 1, GoSlice.upTo.
  destruct (Nat.leb_spec (length (Hits sr)) (GoSlice.cap scrolls)) as [Hcap|];
    [|discriminate].
  unfold bind, ret. intros [= <- _]. cbn [IDs].
  unfold GoSlice.elems. cbn [GoSlice.len GoSlice.array].
  rewrite length_take. unfold GoSlice.cap in Hcap. lia.
Qed.

(** Whenever [findScrolls] returns the hits of a query, the total it
    reports is the number of hits the index gave, never less. *)
Lemma findScrolls_reports_every_hit (query newQuery : string) (w w' : World)
    (results : Results) (m : gmap string Scroll) (sr : SearchResult) :
  index w = Some m ->
  translatePlusMinusTildePrefixes query = Ret newQuery ->
  bleveSearch env m newQuery (MaxResults env) = inl sr ->
  findScrolls env query w = Ret ((results, None), w') ->
  length (IDs results) = length (Hits sr) /\ Total results = length (Hits sr).
Proof.
  intros Hindex Htr Hsearch Hfind.
  pose proof (findScrolls_total_is_length _ _ _ _ Hfind) as Htotal.
  revert Hfind. unfold findScrolls. unfold bind at 1.
  destruct (searchBleve env query w) as [[[found e] w1]|] eqn:Hs; [|discriminate].
  cbn [fst snd]. destruct e as [e|]; [discriminate|].
  pose proof (searchBleve_hits _ _ _ _ _ _ _ Hindex Htr Hsearch Hs) as Hlen.
  unfold bind at 1.
  destruct (renderListOfScrolls env (IDs found) (mkXelatex None) w1) as [[n w2]|];
    [|discriminate].
  unfold bind at 1.
  destruct (fillExisting (IDs found) (replicate n zeroScroll) 0 w2) as [[ids w3]|];
    [|discriminate].
  unfold ret. intros [= <- _]. cbn [IDs Total] in *. lia.
Qed.

End QueryEngine.

(** C4: the index has the four hits c, a, b and d, and d.tex has been
    deleted.  [findScrolls] returns four documents, the last of them the
    zero [Scroll], whose identifier has no source file either, and reports
    the total 4, while three of the hits have a source file.  With the two
    hits a and d the run panics in [searchBleve]. *)
Theorem C4_deleted_hit_is_counted :
  resultOf (performQuery Demo.env "+x" Demo.w0)
    = Ret (inl (mkSearchResult ["c"; "a"; "b"; "d"] 4)) /\
  lookupFile "d.tex" Demo.w0 = None /\
  length (filter (fun id => is_Some (lookupFile (id +:+ ".tex") Demo.w0))
            ["c"; "a"; "b"; "d"]) = 3 /\
  resultOf (findScrolls Demo.env "x" Demo.w0)
    = Ret (mkResults [Demo.parse "c" "gamma"; Demo.parse "a" "alpha";
                      Demo.parse "b" "beta"; zeroScroll] 4, None) /\
  lookupFile (ID_ zeroScroll +:+ ".tex") Demo.w0 = None /\
  resultOf (findScrolls Demo.env "x" Demo.wTwoHits) = Panic "slice bounds out of range".
Proof. repeat split; vm_compute; reflexivity. Qed.

(** ** The updates of the example installation *)

(** With the marker at 150 and the clock at 1000, an update of the index
    that is there skips a (modified at 100) and stages b and c (modified at
    200 and 300): the decisions follow the marker as it was read, not the
    time it is touched with. *)
Example update_uses_the_marker_read :
  eventsOf (updateIndex Demo.env) Demo.w0 =
    [EvOpenIndex; EvStat indexUpdateFile; EvChtimes indexUpdateFile 1000; EvReadDir;
     EvStat (KnowledgePath "a.tex");
     EvStat (KnowledgePath "b.tex"); EvReadFile (KnowledgePath "b.tex");
     EvStat (KnowledgePath "c.tex"); EvReadFile (KnowledgePath "c.tex");
     EvIndexBatch ["b"; "c"]] /\
  indexUpdated (afterUpdate Demo.env Demo.w0) = Some 1000%Z.
Proof. split; vm_compute; reflexivity. Qed.

(** A new index takes every document, whatever its modification time. *)
Example update_of_a_new_index :
  eventsOf (updateIndex Demo.env) Demo.wNoIndex =
    [EvOpenIndex; EvCreateIndex; EvStat indexUpdateFile; EvChtimes indexUpdateFile 1000;
     EvReadDir; EvReadFile (KnowledgePath "a.tex"); EvReadFile (KnowledgePath "b.tex");
     EvReadFile (KnowledgePath "c.tex"); EvIndexBatch ["a"; "b"; "c"]].
Proof. vm_compute; reflexivity. Qed.

(** C5 on the example installation. *)
Lemma C5_update_witness :
  indexUsable Demo.w0 = true /\
  knowledgeListable Demo.w0 = true /\
  updateIndex Demo.env Demo.w0 = Ret (None, afterUpdate Demo.env Demo.w0).
Proof.
  split; [reflexivity|]. split; [reflexivity|].
  exact (proj1 (C5_update_follows_verdicts Demo.env Demo.w0 eq_refl eq_refl)).
Defined.

(** C10 on the example installation without its sentinel, for two
    updates. *)
Lemma C10_sentinel_witness :
  indexUpdated Demo.wNoSentinel = None /\
  indexUpdated (afterUpdates Demo.env 2 Demo.wNoSentinel) = None.
Proof.
  split; [reflexivity|].
  exact (proj1 (C10_touch_never_creates_sentinel Demo.env Demo.wNoSentinel 2 eq_refl)).
Defined.

(** * Further properties of the code *)

(** ** What an update does to the index *)

Section UpdateAndIndex.
Variable env : Env.

Lemma applyBatch_app (b1 b2 : Batch) (m : gmap string Scroll) :
  applyBatch (b1 ++ b2) m = applyBatch b2 (applyBatch b1 m).
Proof. unfold applyBatch. apply foldl_app. Qed.

Lemma applyBatch_snoc (b : Batch) (e : ID * Scroll) (m : gmap string Scroll) :
  applyBatch (b ++ [e]) m = <[fst e := snd e]> (applyBatch b m).
Proof. now rewrite applyBatch_app. Qed.

(** A commit only adds or replaces entries. *)
Lemma applyBatch_keeps (b : Batch) (m : gmap string Scroll) (id : ID) :
  is_Some (m !! id) -> is_Some (applyBatch b m !! id).
Proof.
  induction b as [|e b IH] using rev_ind; intros Hin; [exact Hin|].
  rewrite applyBatch_snoc. destruct (decide (fst e = id)) as [<-|Hne].
  - rewrite lookup_insert_eq. eauto.
  - rewrite lookup_insert_ne by exact Hne. now apply IH.
Qed.

(** An identifier that is not staged keeps its entry. *)
Lemma applyBatch_other (b : Batch) (m : gmap string Scroll) (id : ID) :
  id ∉ (fst <$> b) -> applyBatch b m !! id = m !! id.
Proof.
  induction b as [|e b IH] using rev_ind; intros Hnot; [reflexivity|].
  rewrite fmap_app, not_elem_of_app in Hnot. destruct Hnot as [Hb He].
  rewrite applyBatch_snoc, lookup_insert_ne; [now apply IH|].
  intros Heq. apply He. rewrite <- Heq. cbn. apply list_elem_of_here.
Qed.

(** An identifier that is staged, every time with the same document, has
    that document as its entry. *)
Lemma applyBatch_staged (b : Batch) (m : gmap string Scroll) (id : ID) (s : Scroll) :
  id ∈ (fst <$> b) ->
  (forall s' : Scroll, (id, s') ∈ b -> s' = s) ->
  applyBatch b m !! id = Some s.
Proof.
  induction b as [|e b IH] using rev_ind; intros Hin Hsame.
  - cbn in Hin. now apply elem_of_nil in Hin.
  - rewrite applyBatch_snoc. destruct e as [id' s']. cbn [fst snd].
    destruct (decide (id' = id)) as [->|Hne].
    + rewrite lookup_insert_eq. f_equal. apply Hsame.
      apply elem_of_app. right. apply list_elem_of_here.
    + rewrite lookup_insert_ne by exact Hne. apply IH.
      * rewrite fmap_app, elem_of_app in Hin. destruct Hin as [Hin|Hin]; [exact Hin|].
        cbn in Hin. apply list_elem_of_singleton in Hin. congruence.
      * intros s0 H0. apply Hsame. apply elem_of_app. now left.
Qed.

Lemma afterUpdate_world (w : World) :
  indexUsable w = true ->
  afterUpdate env w =
  setIndex (Some (indexAfterUpdate env w))
    (setIndexUpdated (touched w) (addEvents (updateEvents env (cutoffOf w) w) w)).
Proof. intros Husable. unfold afterUpdate. now rewrite updateIndex_run. Qed.

(** The identifiers of the staged documents come from the names of the
    store. *)
Lemma staged_elem (isNewIndex : bool) (marker : Z) (w : World) (names : list string)
    (id : ID) (s : Scroll) :
  (id, s) ∈ staged (verdict env isNewIndex marker w <$> names) <->
  exists name : string,
    name ∈ names /\ verdict env isNewIndex marker w name = Staged id s.
Proof.
  unfold staged. rewrite list_elem_of_omap. split.
  - intros (v & Hv & Hs). apply list_elem_of_fmap in Hv. destruct Hv as (name & -> & Hname).
    exists name. split; [exact Hname|].
    destruct (verdict env isNewIndex marker w name); try discriminate.
    cbn in Hs. now injection Hs as -> ->.
  - intros (name & Hname & Hv). exists (Staged id s). split; [|reflexivity].
    rewrite <- Hv. now apply list_elem_of_fmap_2.
Qed.

(** A staged document stands for a file whose name without [.tex] is the
    identifier and whose content was read and parsed. *)
Lemma verdict_Staged (isNewIndex : bool) (marker : Z) (w : World) (name : string)
    (id : ID) (s : Scroll) :
  verdict env isNewIndex marker w name = Staged id s ->
  id = TrimSuffix name ".tex" /\ id <> EmptyString /\
  (exists content : string, contentOf name w = inl content /\ s = parse env id content) /\
  (isNewIndex = true \/
   exists t : Z, statOf name w = inl t /\ (marker <= t)%Z).
Proof.
  unfold verdict, consider. intros Hv.
  assert (Hc : match contentOf name w with
               | inl content =>
                   if String.eqb (TrimSuffix name ".tex") EmptyString
                   then Refused (TrimSuffix name ".tex") ErrorEmptyID
                   else Staged (TrimSuffix name ".tex")
                          (parse env (TrimSuffix name ".tex") content)
               | inr e => ReadFailed e
               end = Staged id s ->
               id = TrimSuffix name ".tex" /\ id <> EmptyString /\
               exists content : string,
                 contentOf name w = inl content /\ s = parse env id content).
  { destruct (contentOf name w) as [content|e]; [|discriminate].
    destruct (String.eqb_spec (TrimSuffix name ".tex") EmptyString) as [|Hne]; [discriminate|].
    intros [= <- <-]. repeat split; [exact Hne|]. now exists content. }
  destruct isNewIndex.
  - destruct (Hc Hv) as (? & ? & ?). repeat split; try assumption. now left.
  - destruct (statOf name w) as [t|e]; [|discriminate].
    destruct (Z.ltb_spec t marker); [discriminate|].
    destruct (Hc Hv) as (? & ? & ?). repeat split; try assumption.
    right. exists t. now split.
Qed.

(** X1: an update never takes a document out of the index: whatever
    identifier had an entry before still has one afterwards, whether the
    update succeeds or fails. *)
Theorem X1_update_never_removes (w : World) (id : ID) :
  is_Some (indexEntry id w) -> is_Some (indexEntry id (afterUpdate env w)).
Proof.
  unfold indexEntry at 1. destruct (index w) as [m|] eqn:Hindex; [|intros [? [=]]].
  intros Hin.
  assert (Husable : indexUsable w = true).
  { unfold indexUsable, isNewIndexOf. now rewrite Hindex. }
  rewrite afterUpdate_world by exact Husable.
  unfold indexEntry. cbn [index setIndex]. unfold indexAfterUpdate. rewrite Hindex.
  cbn [default from_option].
  destruct (knowledgeListable w && indexWritable w); [|exact Hin].
  now apply applyBatch_keeps.
Qed.

Lemma elem_of_staged_ids (vs : list Verdict) (id : ID) :
  id ∈ (fst <$> staged vs) -> exists s : Scroll, (id, s) ∈ staged vs.
Proof.
  intros Hin. apply list_elem_of_fmap in Hin. destruct Hin as ([id' s] & -> & Hin).
  now exists s.
Qed.

(** X2: with an index that was there, an update leaves the entry of an
    identifier as it is when every file of the store that stands for this
    identifier was last modified before the marker. *)
Theorem X2_update_leaves_older_entries (w : World) (m : gmap string Scroll) (id : ID) :
  index w = Some m ->
  (forall name : string,
     name ∈ (fst <$> knowledge w) -> TrimSuffix name ".tex" = id ->
     exists t : Z, statOf name w = inl t /\ (t < cutoffOf w)%Z) ->
  indexEntry id (afterUpdate env w) = indexEntry id w.
Proof.
  intros Hindex Holder.
  assert (Hold : isNewIndexOf w = false) by (unfold isNewIndexOf; now rewrite Hindex).
  assert (Husable : indexUsable w = true) by (unfold indexUsable; now rewrite Hold).
  rewrite afterUpdate_world by exact Husable.
  unfold indexEntry. cbn [index setIndex]. unfold indexAfterUpdate. rewrite Hindex.
  cbn [default from_option].
  destruct (knowledgeListable w && indexWritable w); [|reflexivity].
  apply applyBatch_other. intros Hin.
  apply elem_of_staged_ids in Hin. destruct Hin as (s & Hin).
  unfold verdictsOf in Hin. apply staged_elem in Hin. destruct Hin as (name & Hname & Hv).
  apply verdict_Staged in Hv. destruct Hv as (Hid & _ & _ & [Hnew | (t & Ht & Hle)]).
  - congruence.
  - destruct (Holder name Hname (eq_sym Hid)) as (t' & Ht' & Hlt). 
    rewrite Ht in Ht'. injection Ht' as ->. lia.
Qed.

(** X3: after an update that can write the index, a document that was
    considered (the index is new, or the file was not modified before the
    marker), could be read and has an identifier of its own, not empty, is
    in the index under that identifier with the content just parsed from
    the file. *)
Theorem X3_update_indexes_considered (w : World) (name content : string) :
  indexUsable w = true ->
  knowledgeListable w = true ->
  indexWritable w = true ->
  name ∈ (fst <$> knowledge w) ->
  contentOf name w = inl content ->
  TrimSuffix name ".tex" <> EmptyString ->
  (isNewIndexOf w = true \/
   exists t : Z, statOf name w = inl t /\ (cutoffOf w <= t)%Z) ->
  (forall name' : string,
     name' ∈ (fst <$> knowledge w) ->
     TrimSuffix name' ".tex" = TrimSuffix name ".tex" -> name' = name) ->
  indexEntry (TrimSuffix name ".tex") (afterUpdate env w)
    = Some (parse env (TrimSuffix name ".tex") content).
Proof.
  intros Husable Hlist Hwritable Hname Hcontent Hid Hconsidered Hown.
  rewrite afterUpdate_world by exact Husable.
  unfold indexEntry. cbn [index setIndex]. unfold indexAfterUpdate.
  rewrite Hlist, Hwritable. cbn [andb].
  assert (Hv : verdict env (isNewIndexOf w) (cutoffOf w) w name =
               Staged (TrimSuffix name ".tex") (parse env (TrimSuffix name ".tex") content)).
  { assert (Hc : consider env w name =
                 Staged (TrimSuffix name ".tex")
                   (parse env (TrimSuffix name ".tex") content)).
    { unfold consider. rewrite Hcontent. apply String.eqb_neq in Hid. now rewrite Hid. }
    unfold verdict. destruct Hconsidered as [-> | (t & Ht & Hle)]; [exact Hc|].
    destruct (isNewIndexOf w); [exact Hc|]. rewrite Ht.
    destruct (Z.ltb_spec t (cutoffOf w)); [lia | exact Hc]. }
  apply applyBatch_staged.
  - apply (list_elem_of_fmap_2 fst _
             (TrimSuffix name ".tex", parse env (TrimSuffix name ".tex") content)).
    unfold verdictsOf. apply staged_elem. exists name. split; [exact Hname | exact Hv].
  - intros s' Hin. unfold verdictsOf in Hin. apply staged_elem in Hin.
    destruct Hin as (name' & Hname' & Hv').
    apply verdict_Staged in Hv'. destruct Hv' as (Hid' & _ & (content' & Hc' & ->) & _).
    assert (name' = name) as -> by (apply Hown; [exact Hname' | now symmetry]).
    rewrite Hcontent in Hc'. now injection Hc' as ->.
Qed.

Lemma staged_all_skipped (names : list string) :
  omap stagedOf ((fun _ : string => Skipped) <$> names) = [].
Proof. induction names as [|n l IH]; [reflexivity | exact IH]. Qed.

Lemma fileEvents_all_skipped (marker : Z) (w : World) (names : list string) :
  (forall name : string, name ∈ names ->
     exists t : Z, statOf name w = inl t /\ (t < marker)%Z) ->
  verdict env false marker w <$> names = (fun _ => Skipped) <$> names /\
  fileEvents false names (verdict env false marker w <$> names)
    = (fun name => EvStat (KnowledgePath name)) <$> names.
Proof.
  induction names as [|name rest IH]; intros Hall; [split; reflexivity|].
  destruct IH as [IHv IHe].
  { intros n Hn. apply Hall. now apply list_elem_of_further. }
  destruct (Hall name (list_elem_of_here _ _)) as (t & Ht & Hlt).
  assert (Hv : verdict env false marker w name = Skipped).
  { unfold verdict. rewrite Ht. now destruct (Z.ltb_spec t marker); [|lia]. }
  cbn [fmap list_fmap]. rewrite Hv. split.
  - f_equal. exact IHv.
  - unfold fileEvents. cbn [zip_with concat verdictEvents app]. f_equal. exact IHe.
Qed.

(** X4: when the sentinel is there and every document of the store was last
    modified before the current time, the update that follows an update
    reads no document and stages none: it examines each file, commits an
    empty batch and leaves the index as the first update left it. *)
Theorem X4_next_update_stages_nothing (w : World) (c : Z) :
  indexUsable w = true ->
  knowledgeListable w = true ->
  indexUpdated w = Some c ->
  (forall name : string, name ∈ (fst <$> knowledge w) ->
     exists t : Z, statOf name w = inl t /\ (t < clock w)%Z) ->
  let w1 := afterUpdate env w in
  eventsOf (updateIndex env) w1 =
    [EvOpenIndex; EvStat indexUpdateFile; EvChtimes indexUpdateFile (clock w); EvReadDir]
    ++ ((fun name => EvStat (KnowledgePath name)) <$> (fst <$> knowledge w))
    ++ [EvIndexBatch []] /\
  index (afterUpdate env w1) = index w1.
Proof.
  intros Husable Hlist Hsentinel Hold w1.
  assert (Hw1 : w1 = setIndex (Some (indexAfterUpdate env w))
                       (setIndexUpdated (touched w)
                          (addEvents (updateEvents env (cutoffOf w) w) w)))
    by now apply afterUpdate_world.
  assert (Hk : knowledge w1 = knowledge w) by now rewrite Hw1.
  assert (Hl : knowledgeListable w1 = true) by now rewrite Hw1.
  assert (Hc : clock w1 = clock w) by now rewrite Hw1.
  assert (Hi : index w1 = Some (indexAfterUpdate env w)) by now rewrite Hw1.
  assert (Hu : indexUpdated w1 = Some (clock w)).
  { rewrite Hw1. cbn [indexUpdated setIndex setIndexUpdated]. unfold touched.
    now rewrite Hsentinel. }
  assert (Hiw : indexWritable w1 = indexWritable w) by now rewrite Hw1.
  assert (Hnew : isNewIndexOf w1 = false) by (unfold isNewIndexOf; now rewrite Hi).
  assert (Husable1 : indexUsable w1 = true) by (unfold indexUsable; now rewrite Hnew).
  assert (Hcut : cutoffOf w1 = clock w) by (unfold cutoffOf; now rewrite Hu).
  assert (Hold1 : forall name : string, name ∈ (fst <$> knowledge w1) ->
            exists t : Z, statOf name w1 = inl t /\ (t < clock w)%Z).
  { intros name Hname. rewrite Hk in Hname. destruct (Hold name Hname) as (t & Ht & Hlt).
    exists t. split; [|exact Hlt]. unfold statOf, lookupFile in *. now rewrite Hk. }
  destruct (fileEvents_all_skipped (clock w) w1 (fst <$> knowledge w1) Hold1) as [Hvs Hev].
  assert (Hstaged : staged (verdictsOf env (cutoffOf w1) w1) = []).
  { unfold verdictsOf. rewrite Hnew, Hcut, Hvs. unfold staged.
    apply staged_all_skipped. }
  split.
  - rewrite eventsOf_updateIndex by exact Husable1.
    unfold updateEvents, documentEvents, openEvents, markerEvents.
    rewrite Hl, Hnew, Hu, Hc, Hstaged.
    unfold verdictsOf. rewrite Hnew, Hcut, Hev, Hk. reflexivity.
  - rewrite (afterUpdate_world w1 Husable1). cbn [index setIndex].
    unfold indexAfterUpdate at 1. rewrite Hstaged, Hi. cbn [default from_option applyBatch foldl].
    now destruct (knowledgeListable w1 && indexWritable w1).
Qed.

(** X5: when the index is there or can be created but the store cannot be
    listed, the update returns the error of the listing, wrapped, and
    commits nothing; yet the marker has already been touched, so a sentinel
    that is there now carries the current time. *)
Theorem X5_unlistable_store_still_moves_marker (w : World) :
  indexUsable w = true ->
  knowledgeListable w = false ->
  updateIndex env w =
    Ret (Some (withMessage (notExist "open" "KnowledgeDirectory") "read knowledge directory"),
         afterUpdate env w) /\
  (forall id : ID, indexEntry id (afterUpdate env w) = indexEntry id w) /\
  forallb (fun e => negb (isCommit e)) (eventsOf (updateIndex env) w) = true /\
  indexUpdated (afterUpdate env w) =
    match indexUpdated w with Some _ => Some (clock w) | None => None end.
Proof.
  intros Husable Hlist.
  destruct (afterUpdate_usable env w Husable) as (Hrun & Hindex & Htouched).
  repeat split.
  - rewrite Hrun. unfold updateError. now rewrite Hlist.
  - intros id. unfold indexEntry. rewrite Hindex. unfold indexAfterUpdate.
    rewrite Hlist. cbn [andb]. destruct (index w); [reflexivity|].
    cbn [default from_option]. apply lookup_empty.
  - rewrite eventsOf_updateIndex by exact Husable.
    unfold updateEvents, documentEvents, openEvents, markerEvents. rewrite Hlist.
    now destruct (isNewIndexOf w), (indexUpdated w).
  - exact Htouched.
Qed.

(** X22: when the index can neither be opened nor created, the update stops
    there: it returns that error under the message "open or create index"
    and has done nothing but the two attempts, so the marker is neither
    read nor touched and the store is not listed. *)
Theorem X22_update_without_index_stops (w : World) :
  indexUsable w = false ->
  exists e : error,
    updateIndex env w =
    Ret (Some (withMessage e "open or create index"),
         addEvents [EvOpenIndex; EvCreateIndex] w).
Proof.
  intros Hunusable. eexists. now apply updateIndex_unusable.
Qed.

End UpdateAndIndex.

(** ** Removing a document from the index *)

(** X6: [removeFromIndex] returns; when it returns no error the identifier
    has no entry any more; the entries of the other identifiers are never
    changed; when it returns an error the index is as it was, and an index
    that is not there is not created. *)
Theorem X6_removeFromIndex_removes_only_that (id : ID) (w : World) :
  exists (e : option error) (w' : World),
    removeFromIndex id w = Ret (e, w') /\
    (e = None -> indexEntry id w' = None) /\
    (forall id' : ID, id' <> id -> indexEntry id' w' = indexEntry id' w) /\
    (e <> None -> index w' = index w) /\
    (index w = None -> e <> None).
Proof.
  destruct w as [kl k tpl tw tmp ch ix iw iu ck tr].
  unfold removeFromIndex, openExistingIndex, indexDelete, bind, emit, getWorld, ret, modify,
    indexEntry.
  cbn [trace setTrace knowledgeListable knowledge templates tempWritable temp cache index
       indexWritable indexUpdated clock].
  destruct ix as [m|].
  - cbn [trace setTrace knowledgeListable knowledge templates tempWritable temp cache index
         indexWritable indexUpdated clock].
    destruct (String.eqb id EmptyString).
    + eexists _, _. split; [reflexivity|]. repeat split; try discriminate; reflexivity.
    + cbn [index indexWritable]. destruct iw.
      * eexists _, _. split; [reflexivity|].
        cbn [index setIndex]. repeat split; try discriminate; try congruence.
        -- intros _. apply lookup_delete_eq.
        -- intros id' Hne. apply lookup_delete_ne. congruence.
      * eexists _, _. split; [reflexivity|]. repeat split; try discriminate; reflexivity.
  - eexists _, _. split; [reflexivity|]. repeat split; try discriminate; reflexivity.
Qed.

(** ** Loading the hits and answering a query *)

Section LoadingHits.
Variable env : Env.

Lemma sliceOk_nil {A : Type} : sliceOk (@GoSlice.nil A).
Proof. unfold sliceOk. cbn. lia. Qed.

(** [append] adds the element at the end and keeps the slice within its
    capacity, whatever the growth policy. *)
Lemma append_elems {A : Type} (grow : nat -> nat -> nat) (zero : A)
    (s : GoSlice.slice A) (x : A) :
  sliceOk s ->
  GoSlice.elems (GoSlice.append grow zero s x) = GoSlice.elems s ++ [x] /\
  GoSlice.len (GoSlice.append grow zero s x) = S (GoSlice.len s) /\
  sliceOk (GoSlice.append grow zero s x).
Proof.
  destruct s as [arr n]. unfold sliceOk, GoSlice.append, GoSlice.elems, GoSlice.cap.
  cbn [GoSlice.len GoSlice.array]. intros Hok.
  destruct (Nat.ltb_spec n (length arr)) as [Hlt|Hge]; cbn [GoSlice.len GoSlice.array].
  - repeat split.
    + rewrite (take_S_r _ n x) by now apply list_lookup_insert_eq.
      now rewrite take_insert_ge by lia.
    + rewrite length_insert. lia.
  - assert (Hlen : length (take n arr) = n) by (rewrite length_take; lia).
    repeat split.
    + rewrite take_app, Hlen. rewrite (take_ge (take n arr)) by lia.
      replace (S n - n) with 1 by lia. reflexivity.
    + rewrite length_app, Hlen. cbn [length]. lia.
Qed.

Lemma loadAndParseScrollContentByID_run (id : ID) (w : World) :
  loadAndParseScrollContentByID env id w =
  Ret (match contentOf (id +:+ ".tex") w with
       | inl content => (parse env id content, None)
       | inr e => (zeroScroll, Some e)
       end,
       addEvents [EvReadFile (KnowledgePath (id +:+ ".tex"))] w).
Proof.
  unfold loadAndParseScrollContentByID, readScroll, readKnowledgeFile, contentOf, bind, emit,
    getWorld, ret, addEvents.
  change (lookupFile (id +:+ ".tex")
            (setTrace (trace w ++ [EvReadFile (KnowledgePath (id +:+ ".tex"))]) w))
    with (lookupFile (id +:+ ".tex") w).
  destruct (lookupFile (id +:+ ".tex") w) as [f|]; [|reflexivity].
  now destruct (fileRead f).
Qed.

(** The loop of [loadMatchingScrolls] appends the live documents of the
    hits, in order, and logs the hits it cannot read. *)
Lemma loadMatching_run (hits : list ID) :
  forall (scrolls : GoSlice.slice Scroll) (w : World),
  sliceOk scrolls ->
  exists s : GoSlice.slice Scroll,
    loadMatching env hits scrolls w = Ret (s, addEvents (loadEvents w hits) w) /\
    GoSlice.elems s = GoSlice.elems scrolls ++ liveScrolls env w hits /\
    sliceOk s /\
    (liveScrolls env w hits = [] -> s = scrolls).
Proof.
  induction hits as [|id rest IH]; intros scrolls w Hok.
  - exists scrolls. unfold loadEvents, addEvents, liveScrolls. cbn.
    rewrite !app_nil_r. unfold ret, setTrace. rewrite world_eq. repeat split; assumption.
  - cbn [loadMatching].
    rewrite (bind_run _ _ _ _ _ (loadAndParseScrollContentByID_run id w)).
    unfold liveScrolls, loadEvents. cbn [omap list_omap fmap list_fmap concat].
    fold (liveScrolls env w rest). fold (loadEvents w rest). unfold liveScroll.
    destruct (contentOf (id +:+ ".tex") w) as [content|e]; cbn [fst snd].
    + destruct (append_elems (growslice env) zeroScroll scrolls (parse env id content) Hok)
        as (Helems & _ & Hok').
      destruct (IH (GoSlice.append (growslice env) zeroScroll scrolls (parse env id content))
                  (addEvents [EvReadFile (KnowledgePath (id +:+ ".tex"))] w) Hok')
        as (s & Hrun & Hs & Hoks & _).
      exists s. rewrite Hrun. repeat split.
      * now rewrite addEvents_app.
      * rewrite Hs, Helems. now rewrite <- app_assoc.
      * exact Hoks.
      * discriminate.
    + rewrite (bind_run _ _ _ _ _ (logError_run e _)).
      destruct (IH scrolls
                  (addEvents [EvLog (Error e)]
                     (addEvents [EvReadFile (KnowledgePath (id +:+ ".tex"))] w)) Hok)
        as (s & Hrun & Hs & Hoks & Hsame).
      exists s. rewrite Hrun. repeat split.
      * now rewrite !addEvents_app.
      * exact Hs.
      * exact Hoks.
      * exact Hsame.
Qed.

(** X7: [loadMatchingScrolls] returns; the documents it returns are those of
    the hits whose source can be read, in the order of the hits, each with
    the content that is on disk now, not the indexed one; every hit is read
    once and each one that cannot be read leaves a line in the log. *)
Theorem X7_loadMatchingScrolls_keeps_live_hits (searchResults : SearchResult) (w : World) :
  exists s : GoSlice.slice Scroll,
    loadMatchingScrolls env searchResults w
      = Ret (s, addEvents (loadEvents w (Hits searchResults)) w) /\
    GoSlice.elems s = liveScrolls env w (Hits searchResults).
Proof.
  destruct (loadMatching_run (Hits searchResults) GoSlice.nil w sliceOk_nil)
    as (s & Hrun & Hs & _).
  exists s. split; [exact Hrun | exact Hs].
Qed.

Lemma liveScrolls_all (w : World) (hits : list ID) :
  Forall (fun id => is_Some (liveScroll env w id)) hits ->
  length (liveScrolls env w hits) = length hits.
Proof.
  induction 1 as [|id rest [s Hs] _ IH]; [reflexivity|].
  unfold liveScrolls. cbn [omap list_omap]. rewrite Hs. cbn [length]. f_equal. exact IH.
Qed.

Lemma liveScrolls_none (w : World) (hits : list ID) :
  Forall (fun id => liveScroll env w id = None) hits ->
  liveScrolls env w hits = [].
Proof.
  induction 1 as [|id rest Hs _ IH]; [reflexivity|].
  unfold liveScrolls. cbn [omap list_omap]. rewrite Hs. exact IH.
Qed.

Lemma openExistingIndex_run (w : World) (m : gmap string Scroll) :
  index w = Some m ->
  openExistingIndex w = Ret (None, addEvents [EvOpenIndex] w).
Proof.
  intros Hindex. unfold openExistingIndex, bind, emit, getWorld, ret.
  change (index (setTrace (trace w ++ [EvOpenIndex]) w)) with (index w).
  now rewrite Hindex.
Qed.

Lemma performQuery_run (newQuery : string) (w : World) (m : gmap string Scroll) :
  index w = Some m ->
  performQuery env newQuery w =
  Ret (bleveSearch env m newQuery (MaxResults env), addEvents [EvSearch newQuery] w).
Proof.
  intros Hindex. unfold performQuery, bind, emit, getWorld, ret.
  change (index (setTrace (trace w ++ [EvSearch newQuery]) w)) with (index w).
  now rewrite Hindex.
Qed.

(** [searchBleve] on a query that the index answers with hits: the hits
    are loaded, and the slice of the loaded documents is then cut to the
    number of hits. *)
Lemma searchBleve_loaded (query newQuery : string) (w : World) (m : gmap string Scroll)
    (sr : SearchResult) :
  index w = Some m ->
  translatePlusMinusTildePrefixes query = Ret newQuery ->
  bleveSearch env m newQuery (MaxResults env) = inl sr ->
  exists s : GoSlice.slice Scroll,
    GoSlice.elems s = liveScrolls env w (Hits sr) /\
    sliceOk s /\
    (liveScrolls env w (Hits sr) = [] -> s = GoSlice.nil) /\
    searchBleve env query w =
      (cut <- lift (GoSlice.upTo s (length (Hits sr)));
       ret (mkResults (GoSlice.elems cut) (SearchTotal sr), None))
        (addEvents (EvOpenIndex :: EvSearch newQuery :: loadEvents w (Hits sr)) w).
Proof.
  intros Hindex Htr Hsearch. unfold searchBleve.
  rewrite (bind_run _ _ _ _ _ (openExistingIndex_run w m Hindex)). rewrite Htr.
  rewrite (bind_run _ _ _ _ _ (eq_refl : lift (Ret newQuery) _ = Ret (newQuery, _))).
  rewrite (bind_run _ _ _ _ _
             (performQuery_run newQuery (addEvents [EvOpenIndex] w) m Hindex)).
  rewrite Hsearch. unfold loadMatchingScrolls.
  destruct (loadMatching_run (Hits sr) GoSlice.nil
              (addEvents [EvSearch newQuery] (addEvents [EvOpenIndex] w)) sliceOk_nil)
    as (s & Hrun & Hs & Hok & Hnil).
  exists s. repeat split; [exact Hs | exact Hok | exact Hnil |].
  rewrite (bind_run _ _ _ _ _ Hrun). now rewrite !addEvents_app.
Qed.

Lemma elems_length {A : Type} (s : GoSlice.slice A) :
  sliceOk s -> length (GoSlice.elems s) = GoSlice.len s.
Proof.
  unfold sliceOk, GoSlice.elems, GoSlice.cap. intros Hok. rewrite length_take. lia.
Qed.

Lemma renderScroll_xelatex_returns (id : ID) (w : World) :
  exists w' : World,
    renderScroll env (H := xelatexImagemagick env) id (mkXelatex None) w
      = Ret ((None, mkXelatex None), w').
Proof.
  destruct (isUpToDate env id w) eqn:Hfresh.
  - exists w. unfold renderScroll, bind, getWorld. now rewrite Hfresh.
  - destruct (renderScroll_xelatex_runs_every_stage env id w Hfresh)
      as (w' & _ & _ & Hrun & _).
    now exists w'.
Qed.

Lemma renderLoop_xelatex_returns (ids : list Scroll) :
  forall (numScrolls : nat) (w : World),
  exists w' : World,
    renderLoop env (H := xelatexImagemagick env) numScrolls ids (mkXelatex None) w
      = Ret (numScrolls + length ids, w').
Proof.
  induction ids as [|foo rest IH]; intros k w.
  - exists w. cbn. unfold ret. do 2 f_equal. lia.
  - cbn [renderLoop].
    destruct (renderScroll_xelatex_returns (ID_ foo) w) as (w1 & Hrun).
    rewrite (bind_run _ _ _ _ _ Hrun). cbn [fst snd].
    destruct (IH (S k) w1) as (w2 & Hrest). exists w2. rewrite Hrest.
    do 2 f_equal. cbn [length]. lia.
Qed.

Lemma statKnowledge_run (name : string) (w : World) :
  statKnowledge name w =
  Ret (match statOf name w with
       | inl _ => None
       | inr e => Some e
       end,
       addEvents [EvStat (KnowledgePath name)] w).
Proof.
  unfold statKnowledge, statOf, bind, emit, getWorld, ret, addEvents.
  change (lookupFile name (setTrace (trace w ++ [EvStat (KnowledgePath name)]) w))
    with (lookupFile name w).
  destruct (lookupFile name w) as [f|]; [|reflexivity].
  now destruct (fileStat f).
Qed.

(** The second loop of [findScrolls] stays inside [ids] when [ids] has room
    for every document that is still to come. *)
Lemma fillExisting_returns (results : list Scroll) :
  forall (ids : list Scroll) (i : nat) (w : World),
  i + length results <= length ids ->
  exists (ids' : list Scroll) (w' : World),
    fillExisting results ids i w = Ret (ids', w').
Proof.
  induction results as [|r rest IH]; intros ids i w Hroom.
  - exists ids, w. reflexivity.
  - cbn [fillExisting length] in *.
    rewrite (bind_run _ _ _ _ _ (statKnowledge_run _ w)).
    destruct (from_option os.IsNotExist false _).
    + apply IH. lia.
    + destruct (Nat.ltb_spec i (length ids)); [|lia].
      apply IH. rewrite length_insert. lia.
Qed.

(** X8: when the index answers a query with hits and the source of every
    hit can be read, [findScrolls] returns without an error the documents of
    the hits, in the order of the hits and with the content that is on disk
    now, and the total is the number of hits. *)
Theorem X8_findScrolls_returns_live_hits (query newQuery : string) (w : World)
    (m : gmap string Scroll) (sr : SearchResult) :
  index w = Some m ->
  translatePlusMinusTildePrefixes query = Ret newQuery ->
  bleveSearch env m newQuery (MaxResults env) = inl sr ->
  Forall (fun id => is_Some (liveScroll env w id)) (Hits sr) ->
  exists w' : World,
    findScrolls env query w =
    Ret ((mkResults (liveScrolls env w (Hits sr)) (length (Hits sr)), None), w').
Proof.
  intros Hindex Htr Hsearch Hlive.
  destruct (searchBleve_loaded query newQuery w m sr Hindex Htr Hsearch)
    as (s & Hs & Hok & _ & Hrun).
  pose proof (liveScrolls_all w (Hits sr) Hlive) as Hlen.
  assert (Hfull : GoSlice.len s = length (Hits sr)).
  { rewrite <- (elems_length s Hok), Hs. exact Hlen. }
  assert (Hcut : GoSlice.upTo s (length (Hits sr)) = Ret (GoSlice.mkSlice (GoSlice.array s) (GoSlice.len s))).
  { unfold GoSlice.upTo. rewrite <- Hfull.
    destruct (Nat.leb_spec (GoSlice.len s) (GoSlice.cap s)) as [_|Hbad]; [reflexivity|].
    unfold sliceOk in Hok. lia. }
  unfold findScrolls. unfold bind at 1. rewrite Hrun, Hcut.
  unfold bind at 1, lift at 1, ret at 1. cbn [fst snd IDs].
  change (GoSlice.elems (GoSlice.mkSlice (GoSlice.array s) (GoSlice.len s)))
    with (GoSlice.elems s).
  rewrite Hs. unfold renderListOfScrolls.
  destruct (renderLoop_xelatex_returns (liveScrolls env w (Hits sr)) 0
              (addEvents (EvOpenIndex :: EvSearch newQuery :: loadEvents w (Hits sr)) w))
    as (w2 & Hloop).
  rewrite (bind_run _ _ _ _ _ Hloop). cbn [Nat.add].
  destruct (fillExisting_returns (liveScrolls env w (Hits sr))
              (replicate (length (liveScrolls env w (Hits sr))) zeroScroll) 0 w2)
    as (ids' & w3 & Hfill).
  { rewrite length_replicate. cbn. lia. }
  rewrite (bind_run _ _ _ _ _ Hfill). exists w3. unfold ret. now rewrite Hlen.
Qed.

(** X9: when the index answers a query with at least one hit and the source
    of none of the hits can be read, [findScrolls] panics: the slice of the
    loaded documents is still nil and is cut to the number of hits. *)
Theorem X9_findScrolls_panics_when_no_hit_is_live (query newQuery : string) (w : World)
    (m : gmap string Scroll) (sr : SearchResult) :
  index w = Some m ->
  translatePlusMinusTildePrefixes query = Ret newQuery ->
  bleveSearch env m newQuery (MaxResults env) = inl sr ->
  Hits sr <> [] ->
  Forall (fun id => liveScroll env w id = None) (Hits sr) ->
  findScrolls env query w = Panic "slice bounds out of range".
Proof.
  intros Hindex Htr Hsearch Hsome Hdead.
  destruct (searchBleve_loaded query newQuery w m sr Hindex Htr Hsearch)
    as (s & _ & _ & Hnil & Hrun).
  rewrite (Hnil (liveScrolls_none w (Hits sr) Hdead)) in Hrun.
  unfold findScrolls. unfold bind at 1. rewrite Hrun.
  destruct (Hits sr) as [|id rest]; [contradiction|]. reflexivity.
Qed.

(** X10: when the index refuses the translated query, [findScrolls] loads
    and renders nothing.  For the error whose text is "syntax error" it
    logs the query and returns the empty result with the total 0 and no
    error; any other error it returns as it is. *)
Theorem X10_findScrolls_on_a_refused_query (query newQuery : string) (w : World)
    (m : gmap string Scroll) (e : error) :
  index w = Some m ->
  translatePlusMinusTildePrefixes query = Ret newQuery ->
  bleveSearch env m newQuery (MaxResults env) = inr e ->
  findScrolls env query w =
    if String.eqb (Error e) "syntax error"
    then Ret ((zeroResults, None),
              addEvents [EvOpenIndex; EvSearch newQuery;
                         EvLog ("Invalid query string: '" +:+ newQuery +:+ "'")] w)
    else Ret ((zeroResults, Some e), addEvents [EvOpenIndex; EvSearch newQuery] w).
Proof.
  intros Hindex Htr Hsearch. unfold findScrolls, searchBleve.
  unfold bind at 1.
  rewrite (bind_run _ _ _ _ _ (openExistingIndex_run w m Hindex)). rewrite Htr.
  rewrite (bind_run _ _ _ _ _ (eq_refl : lift (Ret newQuery) _ = Ret (newQuery, _))).
  rewrite (bind_run _ _ _ _ _
             (performQuery_run newQuery (addEvents [EvOpenIndex] w) m Hindex)).
  rewrite Hsearch. destruct (String.eqb (Error e) "syntax error").
  - unfold bind, emit, ret, renderListOfScrolls. cbn [fst snd IDs zeroResults renderLoop
      fillExisting replicate].
    unfold ret. do 2 f_equal. apply world_ext; try reflexivity.
    unfold addEvents. cbn [trace setTrace]. now rewrite <- !app_assoc.
  - unfold ret. cbn [fst snd]. now rewrite addEvents_app.
Qed.

(** X11: when the index cannot be opened, [findScrolls] logs the error of
    the opening and returns it with the empty result, for every query: the
    query is neither translated nor searched, so not even a query with an
    empty term makes it panic. *)
Theorem X11_findScrolls_without_index (query : string) (w : World) :
  index w = None ->
  exists e : error,
    findScrolls env query w =
    Ret ((zeroResults, Some e), addEvents [EvOpenIndex; EvLog (Error e)] w).
Proof.
  intros Hindex. eexists.
  unfold findScrolls, searchBleve, openExistingIndex, logError, bind, emit, getWorld, ret.
  change (index (setTrace (trace w ++ [EvOpenIndex]) w)) with (index w).
  rewrite Hindex. cbn [fst snd]. do 2 f_equal.
  unfold addEvents. cbn [trace setTrace]. rewrite <- app_assoc. reflexivity.
Qed.

End LoadingHits.

(** ** The stages of the xelatex renderer *)

Section RenderStages.
Variable env : Env.

Lemma readKnowledgeFile_run (name : string) (w : World) :
  readKnowledgeFile name w =
  Ret (match contentOf name w with
       | inl content => (content, None)
       | inr e => (EmptyString, Some e)
       end,
       addEvents [EvReadFile (KnowledgePath name)] w).
Proof.
  unfold readKnowledgeFile, contentOf, bind, emit, getWorld, ret, addEvents.
  change (lookupFile name (setTrace (trace w ++ [EvReadFile (KnowledgePath name)]) w))
    with (lookupFile name w).
  destruct (lookupFile name w) as [f|]; [|reflexivity].
  now destruct (fileRead f).
Qed.

(** One call of [e.readTemplate]: with an error held nothing is read; else
    the template is read, and appended if it is there. *)
Lemma readTemplate_run (e : errTemplateReader) (name : string) (w : World) :
  errTemplateReader_readTemplate e name w =
  match err_ e with
  | Some _ => Ret (e, w)
  | None =>
      Ret (match templates w !! name with
           | Some t => mkErrTemplateReader (doc e +:+ t) None
           | None =>
               mkErrTemplateReader (doc e +:+ EmptyString)
                 (Some (withMessage (notExist "open" name) ("read template " +:+ name)))
           end,
           addEvents [EvReadFile (TemplatePath name)] w)
  end.
Proof.
  unfold errTemplateReader_readTemplate. destruct (err_ e); [reflexivity|].
  unfold readTemplate, bind, emit, getWorld, ret, addEvents.
  change (templates (setTrace (trace w ++ [EvReadFile (TemplatePath name)]) w))
    with (templates w).
  now destruct (templates w !! name).
Qed.

Lemma readTemplate_bind {B : Type} (e : errTemplateReader) (name : string)
    (k : errTemplateReader -> M B) (w : World) :
  bind (errTemplateReader_readTemplate e name) k w =
  match err_ e with
  | Some _ => k e w
  | None =>
      k (match templates w !! name with
         | Some t => mkErrTemplateReader (doc e +:+ t) None
         | None =>
             mkErrTemplateReader (doc e +:+ EmptyString)
               (Some (withMessage (notExist "open" name) ("read template " +:+ name)))
         end)
        (addEvents [EvReadFile (TemplatePath name)] w)
  end.
Proof. unfold bind. rewrite readTemplate_run. now destruct (err_ e). Qed.

Lemma writeTemp_run (id : ID) (text : string) (w : World) :
  tempWritable w = true ->
  writeTemp id text w =
  Ret (None,
       setTemp (<[id +:+ ".tex" := text]> (temp w))
         (addEvents [EvWriteFile (TempPath (id +:+ ".tex"))] w)).
Proof.
  intros Hw. unfold writeTemp, bind, emit, getWorld, ret, modify, addEvents.
  change (tempWritable (setTrace (trace w ++ [EvWriteFile (TempPath (id +:+ ".tex"))]) w))
    with (tempWritable w).
  now rewrite Hw.
Qed.

Lemma append_empty_r (s : string) : s +:+ EmptyString = s.
Proof.
  induction s as [|c s IH]; [reflexivity|].
  change (String c (s +:+ EmptyString) = String c s). now rewrite IH.
Qed.

(** Stage 1 on a document that can be read and has its templates. *)
Lemma scrollToLatex_success
    (x : xelatexImagemagickRenderer) (id : ID) (w : World)
    (text header typeHeader typeFooter footer : string) :
  contentOf (id +:+ ".tex") w = inl text ->
  templates w !! "header" = Some header ->
  templates w !! (Type_ (parse env id text) +:+ "_header") = Some typeHeader ->
  templates w !! (Type_ (parse env id text) +:+ "_footer") = Some typeFooter ->
  templates w !! "footer" = Some footer ->
  tempWritable w = true ->
  scrollToLatex_body env x id w =
  Ret (mkXelatex None,
       setTemp (<[id +:+ ".tex" :=
                    header +:+ typeHeader +:+ Content (parse env id text)
                    +:+ typeFooter +:+ footer]> (temp w))
         (addEvents
            [EvReadFile (KnowledgePath (id +:+ ".tex"));
             EvReadFile (TemplatePath "header");
             EvReadFile (TemplatePath (Type_ (parse env id text) +:+ "_header"));
             EvReadFile (TemplatePath (Type_ (parse env id text) +:+ "_footer"));
             EvReadFile (TemplatePath "footer");
             EvWriteFile (TempPath (id +:+ ".tex"))] w)).
Proof.
  intros Htext Hh Hth Htf Hf Hw.
  unfold scrollToLatex_body, readScroll. cbv zeta.
  rewrite (bind_run _ _ _ _ _ (readKnowledgeFile_run _ w)). rewrite Htext. cbn [fst snd].
  rewrite readTemplate_bind. cbn [err_ doc].
  change (templates (addEvents ?e w)) with (templates w). rewrite Hh.
  rewrite readTemplate_bind. cbn [err_ doc].
  change (templates (addEvents ?e1 (addEvents ?e2 w))) with (templates w). rewrite Hth.
  rewrite readTemplate_bind. cbn [err_ doc].
  change (templates (addEvents ?e1 (addEvents ?e2 (addEvents ?e3 w)))) with (templates w).
  rewrite Htf.
  rewrite readTemplate_bind. cbn [err_ doc].
  change (templates (addEvents ?e1 (addEvents ?e2 (addEvents ?e3 (addEvents ?e4 w)))))
    with (templates w).
  rewrite Hf. cbn [err_ doc].
  match goal with
  | |- context [bind (writeTemp ?i ?t) _ ?w0] =>
      rewrite (bind_run _ _ _ _ _ (writeTemp_run i t w0 Hw))
  end.
  unfold ret. cbn [errors.Wrapf errors.Wrap]. do 2 f_equal.
  apply world_ext; try reflexivity.
  - cbn [temp setTemp]. f_equal. cbn [String.append]. now rewrite !append_assoc.
  - cbn [trace setTemp]. rewrite !addEvents_app. reflexivity.
Qed.

(** X12: when the source of a document can be read and its four templates
    are there, stage 1 reads the source, then the templates header,
    type_header, type_footer and footer in this order, and writes to
    [TempDirectory/id.tex] the header, the header of the type, the content,
    the footer of the type and the footer, in this order. *)
Theorem X12_scrollToLatex_writes_templates_in_order
    (x : xelatexImagemagickRenderer) (id : ID) (w : World)
    (text header typeHeader typeFooter footer : string) :
  contentOf (id +:+ ".tex") w = inl text ->
  templates w !! "header" = Some header ->
  templates w !! (Type_ (parse env id text) +:+ "_header") = Some typeHeader ->
  templates w !! (Type_ (parse env id text) +:+ "_footer") = Some typeFooter ->
  templates w !! "footer" = Some footer ->
  tempWritable w = true ->
  exists w' : World,
    scrollToLatex_body env x id w = Ret (mkXelatex None, w') /\
    temp w' = <[id +:+ ".tex" :=
                  header +:+ typeHeader +:+ Content (parse env id text)
                  +:+ typeFooter +:+ footer]> (temp w) /\
    trace w' = trace w ++
      [EvReadFile (KnowledgePath (id +:+ ".tex"));
       EvReadFile (TemplatePath "header");
       EvReadFile (TemplatePath (Type_ (parse env id text) +:+ "_header"));
       EvReadFile (TemplatePath (Type_ (parse env id text) +:+ "_footer"));
       EvReadFile (TemplatePath "footer");
       EvWriteFile (TempPath (id +:+ ".tex"))].
Proof.
  intros Htext Hh Hth Htf Hf Hw.
  rewrite (scrollToLatex_success x id w text header typeHeader typeFooter footer)
    by assumption.
  eexists. split; [reflexivity|]. split; reflexivity.
Qed.

Ltac forget_events :=
  repeat match goal with
         | |- context [templates (addEvents ?e ?w0)] =>
             change (templates (addEvents e w0)) with (templates w0)
         end.

(** X13: when the source of a document can be read and one of its four
    templates is not there, stage 1 reads the templates up to the first
    one that is missing and no further, writes nothing to the temp
    directory, and holds an error that names this template and the
    document. *)
Theorem X13_scrollToLatex_stops_at_missing_template
    (x : xelatexImagemagickRenderer) (id : ID) (w : World) (text name : string) :
  contentOf (id +:+ ".tex") w = inl text ->
  firstMissing w (templateNames (parse env id text)) = Some name ->
  exists w' : World,
    scrollToLatex_body env x id w =
      Ret (mkXelatex
             (Some (withMessage
                      (withMessage (notExist "open" name) ("read template " +:+ name))
                      ("producing latex file for scroll " +:+ id))),
           w') /\
    temp w' = temp w /\
    trace w' = trace w ++
      EvReadFile (KnowledgePath (id +:+ ".tex")) ::
      ((fun n => EvReadFile (TemplatePath n))
         <$> upToFirstMissing w (templateNames (parse env id text))).
Proof.
  intros Htext Hmiss.
  unfold scrollToLatex_body, readScroll. cbv zeta.
  rewrite (bind_run _ _ _ _ _ (readKnowledgeFile_run _ w)). rewrite Htext. cbn [fst snd].
  unfold templateNames in *. cbn [firstMissing upToFirstMissing] in *.
  rewrite readTemplate_bind. cbn [err_ doc]. forget_events.
  destruct (templates w !! "header") as [t1|].
  2: { injection Hmiss as <-. rewrite !readTemplate_bind. cbn [err_ doc errors.Wrapf errors.Wrap].
       rewrite ?readTemplate_bind. cbn [err_ doc].
       eexists. split; [reflexivity|]. split; [reflexivity|].
       rewrite !addEvents_app. reflexivity. }
  rewrite readTemplate_bind. cbn [err_ doc]. forget_events.
  destruct (templates w !! (Type_ (parse env id text) +:+ "_header")) as [t2|].
  2: { injection Hmiss as <-. rewrite !readTemplate_bind. cbn [err_ doc errors.Wrapf errors.Wrap].
       rewrite ?readTemplate_bind. cbn [err_ doc].
       eexists. split; [reflexivity|]. split; [reflexivity|].
       rewrite !addEvents_app. reflexivity. }
  rewrite readTemplate_bind. cbn [err_ doc]. forget_events.
  destruct (templates w !! (Type_ (parse env id text) +:+ "_footer")) as [t3|].
  2: { injection Hmiss as <-. rewrite !readTemplate_bind. cbn [err_ doc errors.Wrapf errors.Wrap].
       eexists. split; [reflexivity|]. split; [reflexivity|].
       rewrite !addEvents_app. reflexivity. }
  rewrite readTemplate_bind. cbn [err_ doc]. forget_events.
  destruct (templates w !! "footer") as [t4|]; [discriminate|].
  injection Hmiss as <-. cbn [err_ doc errors.Wrapf errors.Wrap].
  eexists. split; [reflexivity|]. split; [reflexivity|].
  rewrite !addEvents_app. reflexivity.
Qed.

End RenderStages.

(** ** What rendering leaves alone *)

Section Steady.
Context (Inv : World -> World -> Prop) `{!Reflexive Inv} `{!Transitive Inv}
        `{!TraceBlind Inv}.

Lemma steady_ret {A : Type} (a : A) : steady Inv (ret a).
Proof using Type*. intros w. now exists a, w. Qed.

Lemma steady_bind {A B : Type} (m : M A) (k : A -> M B) :
  steady Inv m -> (forall a : A, steady Inv (k a)) -> steady Inv (bind m k).
Proof using Type*.
  intros Hm Hk w. destruct (Hm w) as (a & w1 & Hrun & H1).
  destruct (Hk a w1) as (b & w2 & Hrun2 & H2).
  exists b, w2. unfold bind. rewrite Hrun. split; [exact Hrun2|].
  now transitivity w1.
Qed.

Lemma steady_emit (e : Event) : steady Inv (emit e).
Proof using Type*. intros w. eexists tt, _. split; [reflexivity|]. apply trace_blind. Qed.

Lemma steady_getWorld : steady Inv getWorld.
Proof using Type*. intros w. now exists w, w. Qed.

Lemma steady_modify (f : World -> World) :
  (forall w : World, Inv w (f w)) -> steady Inv (modify f).
Proof using Type*. intros Hf w. exists tt, (f w). split; [reflexivity | apply Hf]. Qed.

End Steady.

Lemma steady_weaken {A : Type} (Inv Inv' : World -> World -> Prop) (m : M A) :
  (forall w w' : World, Inv w w' -> Inv' w w') -> steady Inv m -> steady Inv' m.
Proof.
  intros Hsub Hm w. destruct (Hm w) as (a & w' & Hrun & Hinv).
  exists a, w'. split; [exact Hrun | now apply Hsub].
Qed.

#[local] Instance onlyTemp_refl : Reflexive onlyTemp.
Proof. intros w. repeat split. Qed.

#[local] Instance onlyTemp_trans : Transitive onlyTemp.
Proof.
  intros w1 w2 w3 (A1 & A2 & A3 & A4 & A5 & A6 & A7 & A8 & A9)
    (B1 & B2 & B3 & B4 & B5 & B6 & B7 & B8 & B9).
  repeat split; congruence.
Qed.

#[local] Instance onlyTemp_blind : TraceBlind onlyTemp.
Proof. intros w t. repeat split. Qed.

#[local] Instance onlyRendered_refl (id : ID) : Reflexive (onlyRendered id).
Proof. intros w. repeat split. now right. Qed.

#[local] Instance onlyRendered_trans (id : ID) : Transitive (onlyRendered id).
Proof.
  intros w1 w2 w3 (A1 & A2 & A3 & A4 & A5 & A6 & A7 & A8 & A9)
    (B1 & B2 & B3 & B4 & B5 & B6 & B7 & B8 & B9).
  repeat split; try congruence.
  - intros id' Hne. rewrite B8 by exact Hne. now apply A8.
  - destruct B9 as [B9|B9]; [now left|]. rewrite B9. exact A9.
Qed.

#[local] Instance onlyRendered_blind (id : ID) : TraceBlind (onlyRendered id).
Proof. intros w t. repeat split. now right. Qed.

Lemma onlyTemp_onlyRendered (id : ID) (w w' : World) :
  onlyTemp w w' -> onlyRendered id w w'.
Proof.
  intros (A1 & A2 & A3 & A4 & A5 & A6 & A7 & A8 & A9).
  assert (Hentry : forall i : ID, indexEntry i w' = indexEntry i w).
  { intros i. unfold indexEntry. now rewrite A6. }
  unfold onlyRendered. repeat split; try assumption.
  - intros id' _. apply Hentry.
  - right. apply Hentry.
Qed.

Ltac steady_step :=
  first
    [ apply steady_ret; exact _
    | apply steady_emit; exact _
    | apply steady_getWorld; exact _
    | apply steady_modify; try exact _;
      intros ?; hnf; repeat split; intros; (reflexivity || (right; reflexivity))
    | apply steady_bind; try exact _; [|intros ?]
    | match goal with
      | |- steady _ (match ?x with _ => _ end) => destruct x
      end ].

Section RenderFrame.
Variable env : Env.

Lemma removeAll_onlyTemp (files : list string) : steady onlyTemp (removeAll files).
Proof.
  induction files as [|file rest IH]; cbn [removeAll]; [repeat steady_step|].
  unfold removeTemp, tryLogError, logError.
  repeat first [ apply IH | steady_step ].
Qed.

Lemma deleteTemporaryFiles_onlyTemp (x : xelatexImagemagickRenderer) (id : ID) :
  steady onlyTemp (deleteTemporaryFiles_body env x id).
Proof.
  unfold deleteTemporaryFiles_body, logError.
  repeat first [ apply removeAll_onlyTemp | steady_step ].
Qed.

Lemma latexToPdf_onlyTemp (x : xelatexImagemagickRenderer) (id : ID) :
  steady onlyTemp (latexToPdf_body env x id).
Proof.
  unfold latexToPdf_body, runXelatex. cbv zeta. repeat steady_step.
Qed.

Lemma pdfToPng_onlyRendered (x : xelatexImagemagickRenderer) (id : ID) :
  steady (onlyRendered id) (pdfToPng_body env x id).
Proof.
  unfold pdfToPng_body, runConvert. repeat steady_step.
Qed.

Lemma removeFromIndex_onlyRendered (id : ID) :
  steady (onlyRendered id) (removeFromIndex id).
Proof.
  intros w. destruct w as [kl k tpl tw tmp ch ix iw iu ck tr].
  unfold removeFromIndex, openExistingIndex, indexDelete, bind, emit, getWorld, ret, modify,
    onlyRendered, indexEntry.
  cbn [trace setTrace knowledgeListable knowledge templates tempWritable temp cache index
       indexWritable indexUpdated clock].
  destruct ix as [m|].
  - cbn [trace setTrace knowledgeListable knowledge templates tempWritable temp cache index
         indexWritable indexUpdated clock].
    destruct (String.eqb id EmptyString).
    + eexists _, _. split; [reflexivity|]. repeat split. now right.
    + cbn [index indexWritable]. destruct iw.
      * eexists _, _. split; [reflexivity|]. cbn [index setIndex
          knowledgeListable knowledge templates tempWritable indexWritable indexUpdated clock].
        repeat split.
        -- intros id' Hne. apply lookup_delete_ne. congruence.
        -- left. apply lookup_delete_eq.
      * eexists _, _. split; [reflexivity|]. repeat split. now right.
  - eexists _, _. split; [reflexivity|]. repeat split. now right.
Qed.

Lemma readTemplate_onlyRendered (id : ID) (e : errTemplateReader) (name : string) :
  steady (onlyRendered id) (errTemplateReader_readTemplate e name).
Proof.
  unfold errTemplateReader_readTemplate, readTemplate. repeat steady_step.
Qed.

Lemma scrollToLatex_onlyRendered (x : xelatexImagemagickRenderer) (id : ID) :
  steady (onlyRendered id) (scrollToLatex_body env x id).
Proof.
  unfold scrollToLatex_body, readScroll, readKnowledgeFile, writeTemp, tryLogError,
    logError.
  cbv zeta.
  repeat first [ apply removeFromIndex_onlyRendered | apply readTemplate_onlyRendered
               | steady_step ].
Qed.

Lemma renderScroll_onlyRendered (x : xelatexImagemagickRenderer) (id : ID) :
  steady (onlyRendered id) (renderScroll env (H := xelatexImagemagick env) id x).
Proof.
  unfold renderScroll.
  cbn [scrollToLatex latexToPdf pdfToPng deleteTemporaryFiles err xelatexImagemagick].
  unfold byValue.
  repeat first
    [ apply scrollToLatex_onlyRendered
    | apply pdfToPng_onlyRendered
    | apply (steady_weaken onlyTemp (onlyRendered id) _ (onlyTemp_onlyRendered id));
      first [ apply latexToPdf_onlyTemp | apply deleteTemporaryFiles_onlyTemp ]
    | steady_step ].
Qed.

(** X14: rendering a document with the xelatex renderer always returns, and
    it leaves the store, the templates, the marker and the clock as they
    were; in the index it changes nothing but the entry of the document
    itself, which it may remove. *)
Theorem X14_renderScroll_leaves_the_rest_alone
    (x : xelatexImagemagickRenderer) (id : ID) (w : World) :
  exists (r : option error * xelatexImagemagickRenderer) (w' : World),
    renderScroll env (H := xelatexImagemagick env) id x w = Ret (r, w') /\
    knowledge w' = knowledge w /\
    templates w' = templates w /\
    indexUpdated w' = indexUpdated w /\
    clock w' = clock w /\
    (forall id' : ID, id' <> id -> indexEntry id' w' = indexEntry id' w) /\
    (indexEntry id w' = None \/ indexEntry id w' = indexEntry id w).
Proof.
  destruct (renderScroll_onlyRendered x id w)
    as (r & w' & Hrun & (_ & Hk & Ht & _ & _ & Hu & Hc & Hothers & Hself)).
  exists r, w'. repeat split; assumption.
Qed.

Lemma onlyDropped_refl (ids : list ID) (w : World) : onlyDropped ids w w.
Proof. repeat split. now right. Qed.

Lemma onlyDropped_trans (ids : list ID) (w1 w2 w3 : World) :
  onlyDropped ids w1 w2 -> onlyDropped ids w2 w3 -> onlyDropped ids w1 w3.
Proof.
  intros (A1 & A2 & A3 & A4 & A5 & A6 & A7 & A8 & A9)
    (B1 & B2 & B3 & B4 & B5 & B6 & B7 & B8 & B9).
  repeat split; try congruence.
  - intros id Hout. rewrite B8 by exact Hout. now apply A8.
  - intros id. destruct (B9 id) as [B|B]; [now left|]. rewrite B. apply A9.
Qed.

Lemma onlyRendered_onlyDropped (id : ID) (ids : list ID) (w w' : World) :
  id ∈ ids -> onlyRendered id w w' -> onlyDropped ids w w'.
Proof.
  intros Hin (A1 & A2 & A3 & A4 & A5 & A6 & A7 & A8 & A9).
  repeat split; try assumption.
  - intros id' Hout. apply A8. intros ->. contradiction.
  - intros id'. destruct (String.string_dec id' id) as [->|Hne]; [exact A9|].
    right. now apply A8.
Qed.

Lemma onlyDropped_mono (ids ids' : list ID) (w w' : World) :
  (forall id : ID, id ∈ ids -> id ∈ ids') -> onlyDropped ids w w' -> onlyDropped ids' w w'.
Proof.
  intros Hsub (A1 & A2 & A3 & A4 & A5 & A6 & A7 & A8 & A9).
  repeat split; try assumption.
  intros id Hout. apply A8. intros Hin. apply Hout, Hsub, Hin.
Qed.

Lemma onlyTemp_onlyDropped (ids : list ID) (w w' : World) :
  onlyTemp w w' -> onlyDropped ids w w'.
Proof.
  intros (A1 & A2 & A3 & A4 & A5 & A6 & A7 & A8 & A9).
  assert (Hentry : forall i : ID, indexEntry i w' = indexEntry i w).
  { intros i. unfold indexEntry. now rewrite A6. }
  repeat split; try assumption.
  - intros id _. apply Hentry.
  - intros id. right. apply Hentry.
Qed.

(** The loop of [renderListOfScrolls] with the xelatex renderer. *)
Lemma renderLoop_onlyDropped (ids : list Scroll) :
  forall (numScrolls : nat) (w : World),
  exists w' : World,
    renderLoop env (H := xelatexImagemagick env) numScrolls ids (mkXelatex None) w
      = Ret (numScrolls + length ids, w') /\
    onlyDropped (ID_ <$> ids) w w'.
Proof.
  induction ids as [|foo rest IH]; intros k w.
  - exists w. split; [|apply onlyDropped_refl].
    cbn. unfold ret. do 2 f_equal. lia.
  - cbn [renderLoop].
    destruct (renderScroll_onlyRendered (mkXelatex None) (ID_ foo) w)
      as (r & w1 & Hrun & Hinv).
    pose proof (renderScroll_xelatex env (ID_ foo) (mkXelatex None) w eq_refl) as Hnil.
    rewrite Hrun in Hnil. destruct r as [e x']. destruct Hnil as [-> ->].
    rewrite (bind_run _ _ _ _ _ Hrun). cbn [fst snd].
    destruct (IH (S k) w1) as (w2 & Hrest & Hinv2). exists w2. split.
    + rewrite Hrest. do 2 f_equal. cbn [length]. lia.
    + apply (onlyDropped_trans _ w w1 w2).
      * apply (onlyRendered_onlyDropped (ID_ foo)); [|exact Hinv].
        rewrite fmap_cons. apply list_elem_of_here.
      * apply (onlyDropped_mono (ID_ <$> rest)); [|exact Hinv2].
        intros id Hin. rewrite fmap_cons. now apply list_elem_of_further.
Qed.

(** X16: with the xelatex renderer [renderListOfScrolls] always returns,
    never panics, and counts every document of the list, rendered or not.
    It leaves the store, the templates and the marker as they were and adds
    or changes no entry of the index: it can only remove entries, and only
    those of documents of the list. *)
Theorem X16_renderListOfScrolls_only_drops_entries (ids : list Scroll) (w : World) :
  exists w' : World,
    renderListOfScrolls env (H := xelatexImagemagick env) ids (mkXelatex None) w
      = Ret (length ids, w') /\
    knowledge w' = knowledge w /\
    templates w' = templates w /\
    indexUpdated w' = indexUpdated w /\
    (forall id : ID, id ∉ (ID_ <$> ids) -> indexEntry id w' = indexEntry id w) /\
    (forall id : ID, indexEntry id w' = None \/ indexEntry id w' = indexEntry id w).
Proof.
  destruct (renderLoop_onlyDropped ids 0 w)
    as (w' & Hrun & (_ & Hk & Ht & _ & _ & Hu & _ & Hothers & Hany)).
  exists w'. repeat split; assumption.
Qed.

End RenderFrame.

(** ** A render that succeeds *)

Section RenderSuccess.
Variable env : Env.

Lemma byValue_run {R : Type} (body : R -> ID -> M R) (x x' : R) (id : ID) (w w' : World) :
  body x id w = Ret (x', w') -> byValue body x id w = Ret (x, w').
Proof. intros Hrun. unfold byValue. now rewrite (bind_run _ _ _ _ _ Hrun). Qed.

(** Stage 2 on a source that builds. *)
Lemma latexToPdf_success (id : ID) (w : World) (source out pdf : string) :
  temp w !! (id +:+ ".tex") = Some source ->
  tempWritable w = true ->
  xelatex env (Some source) = (out, Some pdf) ->
  latexToPdf_body env (mkXelatex None) id w =
  Ret (mkXelatex None,
       setTemp (<[id +:+ ".pdf" := pdf]> (<[id +:+ ".log" := out]> (temp w)))
         (addEvents [EvExec "xelatex" id] w)).
Proof.
  intros Ht Hw Hx.
  unfold latexToPdf_body, runXelatex, bind, emit, getWorld, ret, modify, addEvents.
  cbn [x_error].
  change (temp (setTrace (trace w ++ [EvExec "xelatex" id]) w)) with (temp w).
  change (tempWritable (setTrace (trace w ++ [EvExec "xelatex" id]) w))
    with (tempWritable w).
  rewrite Ht, Hx. cbn [fst snd]. now rewrite Hw.
Qed.

(** Stage 3 on a PDF that converts. *)
Lemma pdfToPng_success (id : ID) (w : World) (pdf png : string) :
  temp w !! (id +:+ ".pdf") = Some pdf ->
  convert env pdf = Some png ->
  pdfToPng_body env (mkXelatex None) id w =
  Ret (mkXelatex None,
       setCache (<[id +:+ ".png" := png]> (cache w))
         (addEvents [EvExec "convert" id] w)).
Proof.
  intros Ht Hc.
  unfold pdfToPng_body, runConvert, bind, emit, getWorld, ret, modify, addEvents.
  cbn [x_error].
  change (temp (setTrace (trace w ++ [EvExec "convert" id]) w)) with (temp w).
  change (cache (setTrace (trace w ++ [EvExec "convert" id]) w)) with (cache w).
  now rewrite Ht, Hc.
Qed.

(** X15: when the artifact of a document is out of date, its source can be
    read, its four templates are there, the temp directory can be written,
    xelatex builds the assembled source and convert converts the PDF, then
    [renderScroll] returns no error and the image of that PDF is in the
    cache under [id.png]; the other images of the cache are as they were. *)
Theorem X15_renderScroll_caches_the_image (id : ID) (w : World)
    (text header typeHeader typeFooter footer out pdf png : string) :
  isUpToDate env id w = false ->
  contentOf (id +:+ ".tex") w = inl text ->
  templates w !! "header" = Some header ->
  templates w !! (Type_ (parse env id text) +:+ "_header") = Some typeHeader ->
  templates w !! (Type_ (parse env id text) +:+ "_footer") = Some typeFooter ->
  templates w !! "footer" = Some footer ->
  tempWritable w = true ->
  xelatex env (Some (header +:+ typeHeader +:+ Content (parse env id text)
                     +:+ typeFooter +:+ footer)) = (out, Some pdf) ->
  convert env pdf = Some png ->
  exists w' : World,
    renderScroll env (H := xelatexImagemagick env) id (mkXelatex None) w
      = Ret ((None, mkXelatex None), w') /\
    cache w' = <[id +:+ ".png" := png]> (cache w).
Proof.
  intros Hstale Htext Hh Hth Htf Hf Hw Hx Hc.
  unfold renderScroll.
  rewrite (bind_run _ _ _ _ _ (eq_refl : getWorld w = Ret (w, w))).
  rewrite Hstale.
  cbn [scrollToLatex latexToPdf pdfToPng deleteTemporaryFiles err xelatexImagemagick].
  rewrite (bind_run _ _ _ _ _
             (byValue_run _ _ _ _ _ _
                (scrollToLatex_success env (mkXelatex None) id w _ _ _ _ _
                   Htext Hh Hth Htf Hf Hw))).
  match goal with
  | |- context [bind (byValue (latexToPdf_body env) _ _) _ ?w1] =>
      assert (Ht1 : temp w1 !! (id +:+ ".tex")
                    = Some (header +:+ typeHeader +:+ Content (parse env id text)
                            +:+ typeFooter +:+ footer)) by apply lookup_insert_eq;
      rewrite (bind_run _ _ _ _ _
                 (byValue_run _ _ _ _ _ _ (latexToPdf_success id w1 _ _ _ Ht1 Hw Hx)))
  end.
  match goal with
  | |- context [bind (byValue (pdfToPng_body env) _ _) _ ?w2] =>
      assert (Ht2 : temp w2 !! (id +:+ ".pdf") = Some pdf) by apply lookup_insert_eq;
      rewrite (bind_run _ _ _ _ _
                 (byValue_run _ _ _ _ _ _ (pdfToPng_success id w2 _ _ Ht2 Hc)))
  end.
  match goal with
  | |- context [bind (byValue (deleteTemporaryFiles_body env) _ _) _ ?w3] =>
      destruct (deleteTemporaryFiles_onlyTemp env (mkXelatex None) id w3)
        as (x' & w' & Hrun & (_ & _ & _ & _ & Hcache & _));
      rewrite (bind_run _ _ _ _ _ (byValue_run _ _ _ _ _ _ Hrun))
  end.
  exists w'. split; [reflexivity|]. exact Hcache.
Qed.

End RenderSuccess.

(** ** What a search leaves alone *)

Section Keeps.
Context (Inv : World -> World -> Prop) `{!Reflexive Inv} `{!Transitive Inv}
        `{!TraceBlind Inv}.

Lemma keeps_ret {A : Type} (a : A) : keeps Inv (ret a).
Proof using Type*. intros w a' w' [= _ <-]. reflexivity. Qed.

Lemma keeps_lift {A : Type} (r : res A) : keeps Inv (lift r).
Proof using Type*.
  intros w a w'. unfold lift. destruct r; [|discriminate]. intros [= _ <-]. reflexivity.
Qed.

Lemma keeps_bind {A B : Type} (m : M A) (k : A -> M B) :
  keeps Inv m -> (forall a : A, keeps Inv (k a)) -> keeps Inv (bind m k).
Proof using Type*.
  intros Hm Hk w b w'. unfold bind.
  destruct (m w) as [[a w1]|] eqn:Hrun; [|discriminate].
  intros Hrun2. transitivity w1; [exact (Hm _ _ _ Hrun) | exact (Hk _ _ _ _ Hrun2)].
Qed.

Lemma keeps_emit (e : Event) : keeps Inv (emit e).
Proof using Type*. intros w a w' [= _ <-]. apply trace_blind. Qed.

Lemma keeps_getWorld : keeps Inv getWorld.
Proof using Type*. intros w a w' [= _ <-]. reflexivity. Qed.

End Keeps.

Lemma steady_keeps {A : Type} (Inv : World -> World -> Prop) (m : M A) :
  steady Inv m -> keeps Inv m.
Proof.
  intros Hm w a w' Hrun. destruct (Hm w) as (a1 & w1 & Hrun1 & Hinv).
  rewrite Hrun in Hrun1. now injection Hrun1 as _ <-.
Qed.

Ltac keeps_step :=
  first
    [ apply keeps_ret; exact _
    | apply keeps_lift; exact _
    | apply keeps_emit; exact _
    | apply keeps_getWorld; exact _
    | apply keeps_bind; try exact _; [|intros ?]
    | match goal with
      | |- keeps _ (match ?x with _ => _ end) => destruct x
      end ].

Section SearchFrame.
Variable env : Env.

Lemma loadMatching_keeps (hits : list ID) :
  forall scrolls : GoSlice.slice Scroll, keeps onlyTemp (loadMatching env hits scrolls).
Proof.
  induction hits as [|id rest IH]; intros scrolls; cbn [loadMatching]; [keeps_step|].
  unfold loadAndParseScrollContentByID, readScroll, readKnowledgeFile, logError.
  repeat first [ apply IH | keeps_step ].
Qed.

Lemma searchBleve_keeps (query : string) : keeps onlyTemp (searchBleve env query).
Proof.
  unfold searchBleve, openExistingIndex, logError, performQuery, loadMatchingScrolls.
  repeat first [ apply loadMatching_keeps | keeps_step ].
Qed.

Lemma fillExisting_keeps (results : list Scroll) :
  forall (ids : list Scroll) (i : nat), keeps onlyTemp (fillExisting results ids i).
Proof.
  induction results as [|id rest IH]; intros ids i; cbn [fillExisting]; [keeps_step|].
  unfold statKnowledge.
  repeat first [ apply IH | keeps_step ].
Qed.

(** X17: a search never writes to the library: whenever [findScrolls]
    returns, the store, the templates and the marker are as they were, and
    no entry of the index is new or changed; an entry that is gone is that
    of one of the documents returned. *)
Theorem X17_findScrolls_never_writes_the_library
    (query : string) (w w' : World) (results : Results) (e : option error) :
  findScrolls env query w = Ret ((results, e), w') ->
  knowledge w' = knowledge w /\
  templates w' = templates w /\
  indexUpdated w' = indexUpdated w /\
  (forall id : ID, id ∉ (ID_ <$> IDs results) -> indexEntry id w' = indexEntry id w) /\
  (forall id : ID, indexEntry id w' = None \/ indexEntry id w' = indexEntry id w).
Proof.
  intros Hrun.
  assert (Hinv : onlyDropped (ID_ <$> IDs results) w w').
  { revert Hrun. unfold findScrolls, bind at 1.
    destruct (searchBleve env query w) as [[[found e1] w1]|] eqn:Hsearch; [|discriminate].
    pose proof (searchBleve_keeps query _ _ _ Hsearch) as H1.
    cbn [fst snd]. destruct e1 as [e1|].
    - intros [= <- <- <-]. now apply onlyTemp_onlyDropped.
    - destruct (renderLoop_onlyDropped env (IDs found) 0 w1) as (w2 & Hloop & H2).
      unfold renderListOfScrolls. rewrite (bind_run _ _ _ _ _ Hloop).
      unfold bind at 1.
      destruct (fillExisting (IDs found) _ 0 w2) as [[ids w3]|] eqn:Hfill; [|discriminate].
      pose proof (fillExisting_keeps _ _ _ _ _ _ Hfill) as H3.
      intros [= <- <- <-]. cbn [IDs].
      apply (onlyDropped_trans _ w w1 w3); [now apply onlyTemp_onlyDropped|].
      apply (onlyDropped_trans _ w1 w2 w3); [exact H2 | now apply onlyTemp_onlyDropped]. }
  destruct Hinv as (_ & Hk & Ht & _ & _ & Hu & _ & Hothers & Hany).
  repeat split; assumption.
Qed.

End SearchFrame.

(** ** Where the query translation returns *)

Section TranslationDomain.

Lemma Split_app (a b : string) (sep : ascii) :
  GoString.Split (a +:+ String sep b) sep = GoString.Split a sep ++ GoString.Split b sep.
Proof.
  induction a as [|c a IH].
  - change (EmptyString +:+ String sep b) with (String sep b).
    cbn [GoString.Split]. now rewrite Ascii.eqb_refl.
  - change (String c a +:+ String sep b) with (String c (a +:+ String sep b)).
    cbn [GoString.Split]. rewrite IH.
    destruct (Ascii.eqb c sep); [reflexivity|].
    pose proof (Split_not_nil a sep) as Hne.
    destruct (GoString.Split a sep) as [|w ws]; [contradiction | reflexivity].
Qed.

Lemma joinWith_Split (s : string) : joinWith " " (GoString.Split s " ") = s.
Proof.
  induction s as [|c s IH]; [reflexivity|].
  cbn [GoString.Split]. pose proof (Split_not_nil s " ") as Hne.
  destruct (Ascii.eqb_spec c " ") as [->|Hc].
  - destruct (GoString.Split s " ") as [|w ws] eqn:Hs; [contradiction|].
    change (joinWith " " (EmptyString :: w :: ws))
      with (EmptyString +:+ " " +:+ joinWith " " (w :: ws)).
    now rewrite IH.
  - destruct (GoString.Split s " ") as [|w ws] eqn:Hs; [contradiction|].
    destruct ws as [|w' ws'].
    + cbn [joinWith] in *. now rewrite IH.
    + change (joinWith " " (String c w :: w' :: ws'))
        with (String c (w +:+ " " +:+ joinWith " " (w' :: ws'))).
      f_equal. exact IH.
Qed.

Lemma translate_nonempty_terms (queryString : string) :
  Forall (fun t => GoString.TrimSpace t <> EmptyString) (GoString.Split queryString " ") ->
  translatePlusMinusTildePrefixes queryString = Ret (translationOfTrimmedTerms queryString).
Proof.
  intros Hall. unfold translatePlusMinusTildePrefixes, translationOfTrimmedTerms.
  rewrite translateTerms_nonempty by (assumption || apply Split_not_nil).
  simpl. apply sliceFrom_1.
Qed.

Lemma terms_empty_or_not (terms : list string) :
  Forall (fun t => GoString.TrimSpace t <> EmptyString) terms \/
  Exists (fun t => GoString.TrimSpace t = EmptyString) terms.
Proof.
  induction terms as [|t rest [IH|IH]].
  - left. constructor.
  - destruct (String.string_dec (GoString.TrimSpace t) EmptyString) as [He|Hn].
    + right. now constructor.
    + left. now constructor.
  - right. now constructor 2.
Qed.

(** X18: the query translation returns exactly when no term of the query,
    the pieces between single spaces, is empty once trimmed of white
    space; in every other case it panics, always with an index out of
    range, whatever the other terms are. *)
Theorem X18_translation_returns_iff_no_term_is_empty (queryString : string) :
  ((exists translated : string,
      translatePlusMinusTildePrefixes queryString = Ret translated) <->
   Forall (fun t => GoString.TrimSpace t <> EmptyString)
     (GoString.Split queryString " ")) /\
  (translatePlusMinusTildePrefixes queryString = Panic "index out of range" <->
   Exists (fun t => GoString.TrimSpace t = EmptyString)
     (GoString.Split queryString " ")).
Proof.
  destruct (terms_empty_or_not (GoString.Split queryString " ")) as [Hall|Hex].
  - pose proof (translate_nonempty_terms queryString Hall) as Hrun. split; split.
    + intros _. exact Hall.
    + intros _. eexists. exact Hrun.
    + rewrite Hrun. discriminate.
    + intros Hex. exfalso. apply Exists_exists in Hex as (t & Hin & He).
      rewrite Forall_forall in Hall. exact (Hall t Hin He).
  - pose proof (translate_empty_term_panics queryString Hex) as Hrun. split; split.
    + intros (r & Hr). rewrite Hrun in Hr. discriminate.
    + intros Hall. exfalso. apply Exists_exists in Hex as (t & Hin & He).
      rewrite Forall_forall in Hall. exact (Hall t Hin He).
    + intros _. exact Hex.
    + intros _. exact Hrun.
Qed.

(** X19: a query that begins with a space, ends with a space or has two
    spaces in a row makes the translation panic, whatever else is in it. *)
Theorem X19_space_at_the_edge_panics (a b : string) :
  translatePlusMinusTildePrefixes (" " +:+ b) = Panic "index out of range" /\
  translatePlusMinusTildePrefixes (a +:+ " ") = Panic "index out of range" /\
  translatePlusMinusTildePrefixes (a +:+ "  " +:+ b) = Panic "index out of range".
Proof.
  split; [|split]; apply translate_empty_term_panics.
  - change (" " +:+ b) with (EmptyString +:+ String " " b). rewrite Split_app.
    apply Exists_app. left. now constructor.
  - rewrite Split_app. apply Exists_app. right. now constructor.
  - change ("  " +:+ b) with (String " " (EmptyString +:+ String " " b)).
    rewrite !Split_app. apply Exists_app. right. apply Exists_app. left. now constructor.
Qed.

Lemma prefixed_isPrefixed (t : string) : isPrefixed t = true -> prefixed t = t.
Proof. destruct t as [|c t]; [discriminate|]. cbn. now intros ->. Qed.

(** X20: a query whose every term begins with [+] or [-] and has no white
    space around it is already in the syntax of the engine, and the
    translation returns it as it is. *)
Theorem X20_prefixed_query_passes_through (queryString : string) :
  Forall (fun t => isPrefixed t = true /\ GoString.TrimSpace t = t)
    (GoString.Split queryString " ") ->
  translatePlusMinusTildePrefixes queryString = Ret queryString.
Proof.
  intros Hall.
  rewrite translate_nonempty_terms.
  - f_equal. unfold translationOfTrimmedTerms.
    rewrite <- (joinWith_Split queryString) at 2. f_equal.
    induction Hall as [|t rest [Hp Ht] _ IH]; [reflexivity|].
    rewrite fmap_cons, IH, Ht. f_equal. now apply prefixed_isPrefixed.
  - eapply Forall_impl; [exact Hall|]. intros t [Hp Ht]. rewrite Ht.
    destruct t; [discriminate | discriminate].
Qed.

End TranslationDomain.

(** ** The index under a search *)

#[local] Instance sameLibrary_refl : Reflexive sameLibrary.
Proof. intros w. repeat split. Qed.

#[local] Instance sameLibrary_trans : Transitive sameLibrary.
Proof.
  intros w1 w2 w3 (A1 & A2 & A3 & A4 & A5 & A6 & A7 & A8)
    (B1 & B2 & B3 & B4 & B5 & B6 & B7 & B8).
  repeat split; congruence.
Qed.

#[local] Instance sameLibrary_blind : TraceBlind sameLibrary.
Proof. intros w t. repeat split. Qed.

Lemma onlyTemp_sameLibrary (w w' : World) : onlyTemp w w' -> sameLibrary w w'.
Proof.
  intros (A1 & A2 & A3 & A4 & A5 & A6 & A7 & A8 & A9). repeat split; assumption.
Qed.

Lemma contentOf_knowledge (name : string) (w w' : World) :
  knowledge w' = knowledge w -> contentOf name w' = contentOf name w.
Proof. intros Hk. unfold contentOf, lookupFile. now rewrite Hk. Qed.

Lemma liveOrZero_knowledge (w w' : World) (s : Scroll) :
  knowledge w' = knowledge w -> liveOrZero w s -> liveOrZero w' s.
Proof.
  intros Hk [Hz|(c & Hc)]; [now left|]. right. exists c.
  now rewrite (contentOf_knowledge _ w w' Hk).
Qed.

Lemma append_Forall {A : Type} (P : A -> Prop) (grow : nat -> nat -> nat) (zero : A)
    (s : GoSlice.slice A) (x : A) :
  P zero -> P x -> Forall P (GoSlice.array s) ->
  Forall P (GoSlice.array (GoSlice.append grow zero s x)).
Proof.
  intros Hz Hx Hs. unfold GoSlice.append.
  destruct (GoSlice.len s <? GoSlice.cap s)%nat; cbn [GoSlice.array].
  - now apply Forall_insert.
  - apply Forall_app. split; [now apply Forall_take|].
    constructor; [exact Hx|]. now apply Forall_replicate.
Qed.

Section SearchKeepsIndex.
Variable env : Env.
Hypothesis parse_keeps_id : forall id content : string, ID_ (parse env id content) = id.

Lemma loadMatching_liveOrZero (hits : list ID) :
  forall (scrolls s : GoSlice.slice Scroll) (w w' w0 : World),
  knowledge w = knowledge w0 ->
  Forall (liveOrZero w0) (GoSlice.array scrolls) ->
  loadMatching env hits scrolls w = Ret (s, w') ->
  Forall (liveOrZero w0) (GoSlice.array s).
Proof using parse_keeps_id.
  induction hits as [|id rest IH]; intros scrolls s w w' w0 Hk Hs.
  - cbn [loadMatching]. now intros [= <- _].
  - cbn [loadMatching].
    rewrite (bind_run _ _ _ _ _ (loadAndParseScrollContentByID_run env id w)).
    destruct (contentOf (id +:+ ".tex") w) as [content|e] eqn:Hc; cbn [fst snd].
    + apply IH; [exact Hk|]. apply append_Forall; [now left | | exact Hs].
      right. exists content. rewrite parse_keeps_id.
      now rewrite <- (contentOf_knowledge _ w0 w Hk).
    + rewrite (bind_run _ _ _ _ _ (logError_run e _)). apply IH; [exact Hk | exact Hs].
Qed.

(** The documents [searchBleve] returns can be read, or are zero values. *)
Lemma searchBleve_liveOrZero (query : string) (w w1 : World) (found : Results) :
  searchBleve env query w = Ret ((found, None), w1) ->
  Forall (liveOrZero w) (IDs found).
Proof using parse_keeps_id.
  unfold searchBleve. destruct (index w) as [m|] eqn:Hindex.
  - rewrite (bind_run _ _ _ _ _ (openExistingIndex_run w m Hindex)).
    destruct (translatePlusMinusTildePrefixes query) as [newQuery|msg]; [|discriminate].
    rewrite (bind_run _ _ _ _ _ (eq_refl : lift (Ret newQuery) _ = Ret (newQuery, _))).
    rewrite (bind_run _ _ _ _ _
               (performQuery_run env newQuery (addEvents [EvOpenIndex] w) m Hindex)).
    destruct (bleveSearch env m newQuery (MaxResults env)) as [sr|e].
    + unfold loadMatchingScrolls, bind at 1.
      destruct (loadMatching env (Hits sr) GoSlice.nil _) as [[s w2]|] eqn:Hload;
        [|discriminate].
      assert (Hs : Forall (liveOrZero w) (GoSlice.array s)).
      { eapply loadMatching_liveOrZero; [| |exact Hload]; [reflexivity | constructor]. }
      unfold bind, lift, GoSlice.upTo.
      destruct (length (Hits sr) <=? GoSlice.cap s)%nat; [|discriminate].
      intros [= <- _]. cbn [IDs]. unfold GoSlice.elems. cbn [GoSlice.len GoSlice.array].
      now apply Forall_take.
    + destruct (String.eqb (Error e) "syntax error").
      * unfold bind, emit, ret. intros [= <- _]. constructor.
      * unfold ret. discriminate.
  - unfold openExistingIndex, bind, emit, getWorld, ret.
    change (index (setTrace (trace w ++ [EvOpenIndex]) w)) with (index w).
    rewrite Hindex. unfold logError, emit. discriminate.
Qed.

Lemma removeFromIndex_empty_id : steady sameLibrary (removeFromIndex EmptyString).
Proof.
  unfold removeFromIndex, openExistingIndex, indexDelete.
  change (String.eqb EmptyString EmptyString) with true. cbv iota.
  repeat steady_step.
Qed.

Lemma readTemplate_sameLibrary (e : errTemplateReader) (name : string) :
  steady sameLibrary (errTemplateReader_readTemplate e name).
Proof.
  unfold errTemplateReader_readTemplate, readTemplate. repeat steady_step.
Qed.

(** Stage 1 on a document that can be read, or with the empty identifier,
    leaves the index as it is. *)
Lemma scrollToLatex_sameLibrary (x : xelatexImagemagickRenderer) (id : ID) (w : World) :
  (id = EmptyString \/ exists content : string, contentOf (id +:+ ".tex") w = inl content) ->
  exists (x' : xelatexImagemagickRenderer) (w' : World),
    scrollToLatex_body env x id w = Ret (x', w') /\ sameLibrary w w'.
Proof.
  intros Hlive. unfold scrollToLatex_body, readScroll. cbv zeta.
  rewrite (bind_run _ _ _ _ _ (readKnowledgeFile_run (id +:+ ".tex") w)).
  destruct (contentOf (id +:+ ".tex") w) as [text|e] eqn:Hc; cbn [fst snd].
  - match goal with
    | |- exists x' w', ?m ?w1 = _ /\ _ =>
        assert (Hrest : steady sameLibrary m);
        [|destruct (Hrest w1) as (x' & w' & Hrun & Hinv); exists x', w';
          split; [exact Hrun|]; transitivity w1; [apply trace_blind | exact Hinv]]
    end.
    unfold writeTemp.
    repeat first [ apply readTemplate_sameLibrary | steady_step ].
  - destruct (os.IsNotExist e).
    + destruct Hlive as [->|(c & Hc')]; [|discriminate].
      match goal with
      | |- exists x' w', ?m ?w1 = _ /\ _ =>
          assert (Hrest : steady sameLibrary m);
          [|destruct (Hrest w1) as (x' & w' & Hrun & Hinv); exists x', w';
            split; [exact Hrun|]; transitivity w1; [apply trace_blind | exact Hinv]]
      end.
      unfold tryLogError, logError.
      repeat first [ apply removeFromIndex_empty_id | steady_step ].
    + eexists _, _. split; [reflexivity|]. apply trace_blind.
Qed.

Lemma pdfToPng_sameLibrary (x : xelatexImagemagickRenderer) (id : ID) :
  steady sameLibrary (pdfToPng_body env x id).
Proof. unfold pdfToPng_body, runConvert. repeat steady_step. Qed.

Lemma renderScroll_sameLibrary (id : ID) (w : World) :
  (id = EmptyString \/ exists content : string, contentOf (id +:+ ".tex") w = inl content) ->
  exists w' : World,
    renderScroll env (H := xelatexImagemagick env) id (mkXelatex None) w
      = Ret ((None, mkXelatex None), w') /\
    sameLibrary w w'.
Proof.
  intros Hlive.
  assert (Hrun : exists (r : option error * xelatexImagemagickRenderer) (w' : World),
             renderScroll env (H := xelatexImagemagick env) id (mkXelatex None) w
               = Ret (r, w') /\ sameLibrary w w').
  { unfold renderScroll.
    rewrite (bind_run _ _ _ _ _ (eq_refl : getWorld w = Ret (w, w))).
    destruct (isUpToDate env id w).
    - eexists _, _. split; [reflexivity|]. reflexivity.
    - cbn [scrollToLatex latexToPdf pdfToPng deleteTemporaryFiles err xelatexImagemagick].
      destruct (scrollToLatex_sameLibrary (mkXelatex None) id w Hlive)
        as (x1 & w1 & Hrun1 & Hinv1).
      rewrite (bind_run _ _ _ _ _ (byValue_run _ _ _ _ _ _ Hrun1)).
      match goal with
      | |- exists r w', ?m w1 = _ /\ _ =>
          assert (Hrest : steady sameLibrary m);
          [|destruct (Hrest w1) as (r & w' & Hrun & Hinv); exists r, w';
            split; [exact Hrun|]; transitivity w1; assumption]
      end.
      unfold byValue.
      repeat first
        [ apply pdfToPng_sameLibrary
        | apply (steady_weaken onlyTemp sameLibrary _ onlyTemp_sameLibrary);
          first [ apply latexToPdf_onlyTemp | apply deleteTemporaryFiles_onlyTemp ]
        | steady_step ]. }
  destruct Hrun as (r & w' & Hrun & Hinv).
  pose proof (renderScroll_xelatex env id (mkXelatex None) w eq_refl) as Hnil.
  rewrite Hrun in Hnil. destruct r as [e x']. destruct Hnil as [-> ->].
  now exists w'.
Qed.

Lemma renderLoop_sameLibrary (ids : list Scroll) :
  forall (numScrolls : nat) (w : World),
  Forall (liveOrZero w) ids ->
  exists w' : World,
    renderLoop env (H := xelatexImagemagick env) numScrolls ids (mkXelatex None) w
      = Ret (numScrolls + length ids, w') /\
    sameLibrary w w'.
Proof.
  induction ids as [|foo rest IH]; intros k w Hlive.
  - exists w. split; [|reflexivity]. cbn. unfold ret. do 2 f_equal. lia.
  - cbn [renderLoop]. inversion Hlive as [|? ? Hfoo Hrest]; subst.
    destruct (renderScroll_sameLibrary (ID_ foo) w Hfoo) as (w1 & Hrun & Hinv).
    rewrite (bind_run _ _ _ _ _ Hrun). cbn [fst snd].
    assert (Hk : knowledge w1 = knowledge w) by apply Hinv.
    destruct (IH (S k) w1) as (w2 & Hloop & Hinv2).
    { eapply Forall_impl; [exact Hrest|]. intros s. now apply liveOrZero_knowledge. }
    exists w2. split.
    + rewrite Hloop. do 2 f_equal. cbn [length]. lia.
    + now transitivity w1.
Qed.

End SearchKeepsIndex.

(** X21: with a parser that gives a document the identifier it was asked
    for, a search never changes the index: whenever [findScrolls] returns,
    the index is as it was.  A hit whose source is gone is dropped before
    the documents are rendered, so the render that would remove it from
    the index never sees it, and its entry stays. *)
Theorem X21_findScrolls_leaves_the_index (env : Env)
    (query : string) (w w' : World) (results : Results) (e : option error) :
  (forall id content : string, ID_ (parse env id content) = id) ->
  findScrolls env query w = Ret ((results, e), w') ->
  index w' = index w.
Proof.
  intros Hparse Hrun.
  assert (Hinv : sameLibrary w w'); [|apply Hinv].
  revert Hrun. unfold findScrolls, bind at 1.
  destruct (searchBleve env query w) as [[[found e1] w1]|] eqn:Hsearch; [|discriminate].
  pose proof (onlyTemp_sameLibrary _ _ (searchBleve_keeps env query _ _ _ Hsearch)) as H1.
  cbn [fst snd]. destruct e1 as [e1|].
  - now intros [= <- <- <-].
  - pose proof (searchBleve_liveOrZero env Hparse _ _ _ _ Hsearch) as Hlive.
    assert (Hk : knowledge w1 = knowledge w) by apply H1.
    destruct (renderLoop_sameLibrary env (IDs found) 0 w1) as (w2 & Hloop & H2).
    { eapply Forall_impl; [exact Hlive|]. intros s. now apply liveOrZero_knowledge. }
    unfold renderListOfScrolls. rewrite (bind_run _ _ _ _ _ Hloop).
    unfold bind at 1.
    destruct (fillExisting (IDs found) _ 0 w2) as [[ids w3]|] eqn:Hfill; [|discriminate].
    pose proof (onlyTemp_sameLibrary _ _ (fillExisting_keeps _ _ _ _ _ _ Hfill)) as H3.
    intros [= <- <- <-].
    transitivity w1; [exact H1|]. now transitivity w2.
Qed.

(** ** The properties above on the example installations *)

Ltac each_name H :=
  repeat (apply elem_of_cons in H as [->|H]); [..|now apply elem_of_nil in H].

(** X1 on the example: the deleted document d keeps its entry. *)
Lemma X1_update_witness :
  is_Some (indexEntry "d" Demo.w0) /\
  is_Some (indexEntry "d" (afterUpdate Demo.env Demo.w0)).
Proof.
  assert (H : is_Some (indexEntry "d" Demo.w0)) by (vm_compute; eexists; reflexivity).
  split; [exact H | exact (X1_update_never_removes Demo.env Demo.w0 "d" H)].
Defined.

(** X2 on the example: a.tex was modified at 100, before the marker at 150. *)
Lemma X2_update_witness :
  indexEntry "a" (afterUpdate Demo.env Demo.w0) = indexEntry "a" Demo.w0.
Proof.
  apply (X2_update_leaves_older_entries Demo.env Demo.w0
           (Demo.indexed ["a"; "b"; "c"; "d"]) "a" eq_refl).
  intros name Hin Hid.
  change (fst <$> knowledge Demo.w0) with ["a.tex"; "b.tex"; "c.tex"] in Hin.
  each_name Hin.
  - exists 100%Z. split; vm_compute; reflexivity.
  - vm_compute in Hid. discriminate.
  - vm_compute in Hid. discriminate.
Defined.

(** X3 on the example: b.tex was modified at 200, after the marker. *)
Lemma X3_update_witness :
  contentOf "b.tex" Demo.w0 = inl "beta" /\
  indexEntry "b" (afterUpdate Demo.env Demo.w0) = Some (Demo.parse "b" "beta").
Proof.
  assert (Hc : contentOf "b.tex" Demo.w0 = inl "beta") by (vm_compute; reflexivity).
  split; [exact Hc|].
  apply (X3_update_indexes_considered Demo.env Demo.w0 "b.tex" "beta"
           eq_refl eq_refl eq_refl).
  - change (fst <$> knowledge Demo.w0) with ["a.tex"; "b.tex"; "c.tex"].
    apply list_elem_of_further, list_elem_of_here.
  - exact Hc.
  - vm_compute. discriminate.
  - right. exists 200%Z. split; vm_compute; [reflexivity | discriminate].
  - intros name Hin Hid.
    change (fst <$> knowledge Demo.w0) with ["a.tex"; "b.tex"; "c.tex"] in Hin.
    each_name Hin.
    + vm_compute in Hid. discriminate.
    + reflexivity.
    + vm_compute in Hid. discriminate.
Defined.

(** X4 on the example: every document is older than the clock at 1000. *)
Lemma X4_update_witness :
  index (afterUpdate Demo.env (afterUpdate Demo.env Demo.w0))
  = index (afterUpdate Demo.env Demo.w0).
Proof.
  apply (X4_next_update_stages_nothing Demo.env Demo.w0 150%Z eq_refl eq_refl eq_refl).
  intros name Hin.
  change (fst <$> knowledge Demo.w0) with ["a.tex"; "b.tex"; "c.tex"] in Hin.
  each_name Hin.
  - exists 100%Z. split; vm_compute; reflexivity.
  - exists 200%Z. split; vm_compute; reflexivity.
  - exists 300%Z. split; vm_compute; reflexivity.
Defined.

(** X5 on an installation whose store cannot be listed. *)
Lemma X5_update_witness :
  knowledgeListable Cases.wUnlistable = false /\
  indexUpdated Cases.wUnlistable = Some 150%Z /\
  indexUpdated (afterUpdate Demo.env Cases.wUnlistable) = Some 1000%Z.
Proof.
  split; [reflexivity|]. split; [reflexivity|].
  exact (proj2 (proj2 (proj2 (X5_unlistable_store_still_moves_marker Demo.env
                                Cases.wUnlistable eq_refl eq_refl)))).
Defined.

(** X22 on an installation without an index and without a place for one. *)
Lemma X22_update_witness :
  exists e : error,
    updateIndex Demo.env Cases.wUnusable =
    Ret (Some (withMessage e "open or create index"),
         addEvents [EvOpenIndex; EvCreateIndex] Cases.wUnusable).
Proof. exact (X22_update_without_index_stops Demo.env Cases.wUnusable eq_refl). Defined.

(** X8 on an index of the documents a, b and c, which are all there. *)
Lemma X8_findScrolls_witness :
  exists w' : World,
    findScrolls Demo.env "x" Cases.wAllLive =
    Ret ((mkResults [Demo.parse "c" "gamma"; Demo.parse "a" "alpha"; Demo.parse "b" "beta"] 3,
          None), w').
Proof.
  apply (X8_findScrolls_returns_live_hits Demo.env "x" "+x" Cases.wAllLive
           (Demo.indexed ["a"; "b"; "c"]) (mkSearchResult ["c"; "a"; "b"] 3)).
  - reflexivity.
  - vm_compute. reflexivity.
  - vm_compute. reflexivity.
  - repeat constructor; vm_compute; eexists; reflexivity.
Defined.

(** X9 on an index of the deleted documents d and e. *)
Lemma X9_findScrolls_witness :
  findScrolls Demo.env "x" Cases.wNoneLive = Panic "slice bounds out of range".
Proof.
  apply (X9_findScrolls_panics_when_no_hit_is_live Demo.env "x" "+x" Cases.wNoneLive
           (Demo.indexed ["d"; "e"])
           (mkSearchResult (take 10 (fst <$> map_to_list (Demo.indexed ["d"; "e"]))) 2)).
  - reflexivity.
  - vm_compute. reflexivity.
  - vm_compute. reflexivity.
  - vm_compute. discriminate.
  - vm_compute. repeat constructor.
Defined.

(** X10 on the query [~], whose translation is empty and is refused. *)
Lemma X10_findScrolls_witness :
  translatePlusMinusTildePrefixes "~" = Ret EmptyString /\
  findScrolls Demo.env "~" Demo.w0 =
    Ret ((zeroResults, None),
         addEvents [EvOpenIndex; EvSearch EmptyString; EvLog "Invalid query string: ''"]
           Demo.w0).
Proof.
  assert (Ht : translatePlusMinusTildePrefixes "~" = Ret EmptyString)
    by (vm_compute; reflexivity).
  split; [exact Ht|].
  exact (X10_findScrolls_on_a_refused_query Demo.env "~" EmptyString Demo.w0
           (Demo.indexed ["a"; "b"; "c"; "d"]) (errorString "syntax error")
           eq_refl Ht eq_refl).
Defined.

(** X11 on the installation without an index. *)
Lemma X11_findScrolls_witness :
  exists e : error,
    findScrolls Demo.env "x" Demo.wNoIndex =
    Ret ((zeroResults, Some e), addEvents [EvOpenIndex; EvLog (Error e)] Demo.wNoIndex).
Proof. exact (X11_findScrolls_without_index Demo.env "x" Demo.wNoIndex eq_refl). Defined.

(** X12 on the document a of the example, whose type is note. *)
Lemma X12_scrollToLatex_witness :
  exists w' : World,
    scrollToLatex_body Demo.env (mkXelatex None) "a" Demo.w0 = Ret (mkXelatex None, w') /\
    temp w' !! "a.tex" = Some "HhalphafF".
Proof.
  destruct (X12_scrollToLatex_writes_templates_in_order Demo.env (mkXelatex None) "a"
              Demo.w0 "alpha" "H" "h" "f" "F"
              eq_refl eq_refl eq_refl eq_refl eq_refl eq_refl)
    as (w' & Hrun & Htemp & _).
  exists w'. split; [exact Hrun|]. rewrite Htemp. apply lookup_insert_eq.
Defined.

(** X13 on an installation without the template footer. *)
Lemma X13_scrollToLatex_witness :
  firstMissing Cases.wNoFooter (templateNames (Demo.parse "a" "alpha")) = Some "footer" /\
  exists w' : World,
    resultOf (scrollToLatex_body Demo.env (mkXelatex None) "a" Cases.wNoFooter) =
      Ret (mkXelatex
             (Some (withMessage
                      (withMessage (notExist "open" "footer") "read template footer")
                      "producing latex file for scroll a"))) /\
    worldOf (scrollToLatex_body Demo.env (mkXelatex None) "a" Cases.wNoFooter) = Some w' /\
    temp w' = temp Cases.wNoFooter.
Proof.
  assert (Hm : firstMissing Cases.wNoFooter (templateNames (Demo.parse "a" "alpha"))
               = Some "footer") by (vm_compute; reflexivity).
  split; [exact Hm|].
  destruct (X13_scrollToLatex_stops_at_missing_template Demo.env (mkXelatex None) "a"
              Cases.wNoFooter "alpha" "footer" eq_refl Hm)
    as (w' & Hrun & Htemp & _).
  exists w'. rewrite Hrun. repeat split. exact Htemp.
Defined.

(** X15 on the document a before anything has been rendered. *)
Lemma X15_renderScroll_witness :
  isUpToDate Demo.env "a" Cases.wStale = false /\
  exists w' : World,
    renderScroll Demo.env (H := xelatexImagemagick Demo.env) "a" (mkXelatex None)
      Cases.wStale = Ret ((None, mkXelatex None), w') /\
    cache w' !! "a.png" = Some "png of pdf of HhalphafF".
Proof.
  assert (Hs : isUpToDate Demo.env "a" Cases.wStale = false) by (vm_compute; reflexivity).
  split; [exact Hs|].
  destruct (X15_renderScroll_caches_the_image Demo.env "a" Cases.wStale
              "alpha" "H" "h" "f" "F" "Output written" "pdf of HhalphafF"
              "png of pdf of HhalphafF"
              Hs eq_refl eq_refl eq_refl eq_refl eq_refl eq_refl eq_refl eq_refl)
    as (w' & Hrun & Hcache).
  exists w'. split; [exact Hrun|]. rewrite Hcache. apply lookup_insert_eq.
Defined.

(** X17 on the example: the search returns, and the store is as it was. *)
Lemma X17_findScrolls_witness :
  match findScrolls Demo.env "x" Demo.w0 with
  | Ret (_, w') => knowledge w' = knowledge Demo.w0
  | Panic _ => False
  end.
Proof.
  destruct (findScrolls Demo.env "x" Demo.w0) as [[[results e] w']|msg] eqn:Hrun.
  - exact (proj1 (X17_findScrolls_never_writes_the_library Demo.env "x" Demo.w0 w'
                    results e Hrun)).
  - vm_compute in Hrun. discriminate.
Defined.

(** X21 on the example: the deleted document d is a hit and is still in
    the index after the search. *)
Lemma X21_findScrolls_witness :
  match findScrolls Demo.env "x" Demo.w0 with
  | Ret (_, w') => index w' = index Demo.w0
  | Panic _ => False
  end.
Proof.
  destruct (findScrolls Demo.env "x" Demo.w0) as [[[results e] w']|msg] eqn:Hrun.
  - exact (X21_findScrolls_leaves_the_index Demo.env "x" Demo.w0 w' results e
             (fun _ _ => eq_refl) Hrun).
  - vm_compute in Hrun. discriminate.
Defined.

(** X20 on a query of two prefixed terms. *)
Lemma X20_translation_witness :
  translatePlusMinusTildePrefixes "+alpha -beta" = Ret "+alpha -beta".
Proof.
  apply X20_prefixed_query_passes_through.
  vm_compute. repeat constructor.
Defined.
